(** * NexCRM: the role-scoped storage layer and its HTTP routes

    A shallow embedding of [shared/schema.ts], [server/storage.ts] and
    [server/routes.ts], and the properties of the lead store, the
    authorization checks of the routes, the statistics roll-up and the
    change events that follow from the code.

    Conventions.
    - A JavaScript [number] that holds a row id, a count or a sum is a [Z];
      [undefined] and [NaN] are [None] of an [option Z].
    - A [Date] is its [getTime()] value: milliseconds since the epoch, a [Z].
    - A table is the list of its rows in insertion order. *)

From Stdlib Require Import ZArith List String Ascii Bool Lia.
From Stdlib Require Import Sorting.Sorted Sorting.Permutation.
Import ListNotations.

Local Open Scope string_scope.
Local Open Scope Z_scope.

(* ================================================================== *)
(** * shared/schema.ts: the three tables *)

Record User := mkUser {
  u_id : Z;
  u_username : string;
  u_password : string;
  u_email : string;
  u_fullName : string;
  u_role : string;
  u_createdAt : Z
}.

Record Lead := mkLead {
  l_id : Z;
  l_companyName : string;
  l_contactName : string;
  l_email : string;
  l_phone : option string;
  l_status : string;
  l_source : string;
  l_value : option Z;
  l_ownerId : Z;
  l_createdAt : Z;
  l_updatedAt : Z
}.

Record Activity := mkActivity {
  a_id : Z;
  a_leadId : Z;
  a_userId : Z;
  a_type : string;
  a_subject : string;
  a_notes : option string;
  a_createdAt : Z
}.

(** The database: the rows of each table and the two [serial] sequences the
    code inserts through. *)
Record Database := mkDb {
  users : list User;
  leads : list Lead;
  activities : list Activity;
  leads_id_seq : Z;
  activities_id_seq : Z
}.

(** A value that JavaScript may leave [undefined], that a left join may
    return as [null], or that is there. *)
Inductive maybe (A : Type) : Type :=
| Undefined : maybe A
| Null : maybe A
| Val : A -> maybe A.
Arguments Undefined {A}.
Arguments Null {A}.
Arguments Val {A} _.

(** [type ActivityWithUser = Activity & { user: User }] *)
Record ActivityWithUser := mkAWU {
  awu_activity : Activity;
  awu_user : maybe User
}.

(** The shapes the lead queries return: the lead's columns, the joined
    [owner] and, for [getLeadById], the [activities].  A bare [Lead] row
    is the same object with both left [undefined]. *)
Record LeadObject := mkLO {
  lo_lead : Lead;
  lo_owner : maybe User;
  lo_activities : option (list ActivityWithUser)
}.

Definition role_sales_executive : string := "sales_executive".

(* ================================================================== *)
(** * Query building blocks *)

Section OrderBy.
Context {A : Type} (key : A -> Z).

(** [ORDER BY key DESC].  SQL leaves the order of rows with equal keys
    open; this one keeps them in their input order. *)
Fixpoint insert_desc (x : A) (l : list A) : list A :=
  match l with
  | [] => [x]
  | y :: l' => if key y <=? key x then x :: l else y :: insert_desc x l'
  end.

Definition orderBy_desc (l : list A) : list A :=
  fold_right insert_desc [] l.

Definition newer_first (x y : A) : Prop := key y <= key x.
End OrderBy.

(** [leads LEFT JOIN users ON leads.owner_id = users.id], for one lead. *)
Definition leftJoin_owner (us : list User) (l : Lead) : list LeadObject :=
  match filter (fun u => l_ownerId l =? u_id u) us with
  | [] => [mkLO l Null None]
  | ms => map (fun u => mkLO l (Val u) None) ms
  end.

(** [activities LEFT JOIN users ON activities.user_id = users.id]. *)
Definition leftJoin_user (us : list User) (a : Activity) : list ActivityWithUser :=
  match filter (fun u => a_userId a =? u_id u) us with
  | [] => [mkAWU a Null]
  | ms => map (fun u => mkAWU a (Val u)) ms
  end.

(** JavaScript truthiness of an optional number: [undefined], [NaN] and
    [0] are falsy. *)
Definition truthy (n : option Z) : bool :=
  match n with
  | Some z => negb (z =? 0)
  | None => false
  end.

(** [role === "sales_executive" && userId] *)
Definition owner_scope (userId : option Z) (role : option string) : option Z :=
  match role, userId with
  | Some r, Some uid =>
      if (r =? role_sales_executive)%string && truthy userId then Some uid else None
  | _, _ => None
  end.

(* ================================================================== *)
(** * server/storage.ts: the read queries, as functions of the database *)

Definition getAllUsers (db : Database) : list User :=
  orderBy_desc u_createdAt (users db).

Definition getAllLeads (db : Database) (userId : option Z) (role : option string)
  : list LeadObject :=
  let joined rows := orderBy_desc (fun r => l_createdAt (lo_lead r))
                       (flat_map (leftJoin_owner (users db)) rows) in
  match owner_scope userId role with
  | Some uid => joined (filter (fun l => l_ownerId l =? uid) (leads db))
  | None => joined (leads db)
  end.

Definition getActivitiesByLeadId (db : Database) (leadId : Z) : list ActivityWithUser :=
  orderBy_desc (fun r => a_createdAt (awu_activity r))
    (flat_map (leftJoin_user (users db))
       (filter (fun a => a_leadId a =? leadId) (activities db))).

(** The first query of [getLeadById]: [const [lead] = await db.select()...]. *)
Definition selectLead (db : Database) (id : Z) : option LeadObject :=
  hd_error (flat_map (leftJoin_owner (users db))
              (filter (fun l => l_id l =? id) (leads db))).

Definition getLeadById (db : Database) (id : Z) : option LeadObject :=
  match selectLead db id with
  | None => None
  | Some lead =>
      Some (mkLO (lo_lead lead) (lo_owner lead) (Some (getActivitiesByLeadId db id)))
  end.

(* ================================================================== *)
(** * server/storage.ts: the write statements *)

(** [InsertLead]: what [insertLeadSchema] lets through.  [phone] and
    [value] may be left out or be [null]; [status] may be left out and then
    takes the column default. *)
Record InsertLead := mkInsertLead {
  il_companyName : string;
  il_contactName : string;
  il_email : string;
  il_phone : maybe string;
  il_status : option string;
  il_source : string;
  il_value : maybe Z;
  il_ownerId : Z
}.

(** [Partial<InsertLead>]: every key may be left out. *)
Record PartialLead := mkPartialLead {
  pl_companyName : option string;
  pl_contactName : option string;
  pl_email : option string;
  pl_phone : maybe string;
  pl_status : option string;
  pl_source : option string;
  pl_value : maybe Z;
  pl_ownerId : option Z
}.

Record InsertActivity := mkInsertActivity {
  ia_leadId : Z;
  ia_userId : Z;
  ia_type : string;
  ia_subject : string;
  ia_notes : maybe string
}.

(** A nullable column takes [NULL] for a key that is left out or [null]. *)
Definition nullable {A : Type} (v : maybe A) : option A :=
  match v with
  | Val a => Some a
  | _ => None
  end.

(** [.set({ col: v })] on a nullable column: a key left out keeps the old
    value, [null] clears it. *)
Definition set_nullable {A : Type} (v : maybe A) (old : option A) : option A :=
  match v with
  | Undefined => old
  | Null => None
  | Val a => Some a
  end.

Definition set_column {A : Type} (v : option A) (old : A) : A :=
  match v with
  | Some a => a
  | None => old
  end.

(** The [integer] columns are PostgreSQL [int4]. *)
Definition int4 (z : Z) : bool := (-2147483648 <=? z) && (z <=? 2147483647).

Definition int4_nullable (v : option Z) : bool :=
  match v with
  | Some z => int4 z
  | None => true
  end.

Definition user_exists (db : Database) (id : Z) : bool :=
  existsb (fun u => u_id u =? id) (users db).

Definition lead_exists (db : Database) (id : Z) : bool :=
  existsb (fun l => l_id l =? id) (leads db).

(** [INSERT INTO leads ... RETURNING *].  The row takes the next value of
    the sequence and [now] for both timestamps; the statement is refused
    ([None]) when a value does not fit its column or [owner_id] references
    no user.  A refused insert has still drawn from the sequence. *)
Definition createLead (now : Z) (v : InsertLead) (db : Database)
  : Database * option Lead :=
  let row := mkLead (leads_id_seq db)
               (il_companyName v) (il_contactName v) (il_email v)
               (nullable (il_phone v))
               (set_column (il_status v) "new")
               (il_source v)
               (nullable (il_value v))
               (il_ownerId v) now now in
  if int4_nullable (l_value row) && int4 (l_ownerId row)
     && user_exists db (l_ownerId row)
  then (mkDb (users db) (leads db ++ [row]) (activities db)
          (leads_id_seq db + 1) (activities_id_seq db), Some row)
  else (mkDb (users db) (leads db) (activities db)
          (leads_id_seq db + 1) (activities_id_seq db), None).

(** [.set({ ...updateData, updatedAt: new Date() })] on one row. *)
Definition apply_update (now : Z) (p : PartialLead) (l : Lead) : Lead :=
  mkLead (l_id l)
    (set_column (pl_companyName p) (l_companyName l))
    (set_column (pl_contactName p) (l_contactName l))
    (set_column (pl_email p) (l_email l))
    (set_nullable (pl_phone p) (l_phone l))
    (set_column (pl_status p) (l_status l))
    (set_column (pl_source p) (l_source l))
    (set_nullable (pl_value p) (l_value l))
    (set_column (pl_ownerId p) (l_ownerId l))
    (l_createdAt l) now.

Definition update_ok (db : Database) (l : Lead) : bool :=
  int4_nullable (l_value l) && int4 (l_ownerId l) && user_exists db (l_ownerId l).

(** [UPDATE leads SET ... WHERE id = $1 RETURNING *].  [None] is a refused
    statement, which changes nothing; [Some None] is no matching row, the
    [undefined] that [updateLead] returns. *)
Definition updateLead (now : Z) (id : Z) (p : PartialLead) (db : Database)
  : option (Database * option Lead) :=
  let changed := map (fun l => if l_id l =? id then apply_update now p l else l)
                   (leads db) in
  let returning := filter (fun l => l_id l =? id) changed in
  if forallb (update_ok db) returning
  then Some (mkDb (users db) changed (activities db)
               (leads_id_seq db) (activities_id_seq db),
             hd_error returning)
  else None.

(** [DELETE FROM leads WHERE id = $1].  [activities.lead_id] is declared
    [references(() => leads.id, { onDelete: 'cascade' })], so the same
    statement removes the activities of the deleted lead. *)
Definition deleteLead (id : Z) (db : Database) : Database :=
  mkDb (users db)
    (filter (fun l => negb (l_id l =? id)) (leads db))
    (filter (fun a => negb (a_leadId a =? id)) (activities db))
    (leads_id_seq db) (activities_id_seq db).

(** [INSERT INTO activities ... RETURNING *]; both references are
    checked. *)
Definition createActivity (now : Z) (v : InsertActivity) (db : Database)
  : Database * option Activity :=
  let row := mkActivity (activities_id_seq db) (ia_leadId v) (ia_userId v)
               (ia_type v) (ia_subject v) (nullable (ia_notes v)) now in
  if int4 (a_leadId row) && int4 (a_userId row)
     && lead_exists db (a_leadId row) && user_exists db (a_userId row)
  then (mkDb (users db) (leads db) (activities db ++ [row])
          (leads_id_seq db) (activities_id_seq db + 1), Some row)
  else (mkDb (users db) (leads db) (activities db)
          (leads_id_seq db) (activities_id_seq db + 1), None).

(* ================================================================== *)
(** * JavaScript [Date], as far as [getStats] and [getAnalytics] use it

    [getDate], [setDate], [getMonth] and [setMonth] work in the server's
    local time zone and [toISOString] in UTC.  The server is taken to run
    with local time equal to UTC, so that both read the same calendar. *)

Definition msPerDay : Z := 86400000.

(** The date part of [toISOString()]: the text [YYYY-MM-DD] and these
    three numbers determine each other. *)
Record IsoDate := mkIsoDate { year : Z; month : Z; day : Z }.

Definition IsoDate_eqb (a b : IsoDate) : bool :=
  (year a =? year b) && (month a =? month b) && (day a =? day b).

(** The proleptic Gregorian date of a day number (days since 1970-01-01). *)
Definition civil_from_days (z : Z) : IsoDate :=
  let z := z + 719468 in
  let era := z / 146097 in
  let doe := z - era * 146097 in
  let yoe := (doe - doe / 1460 + doe / 36524 - doe / 146096) / 365 in
  let doy := doe - (365 * yoe + yoe / 4 - yoe / 100) in
  let mp := (5 * doy + 2) / 153 in
  let d := doy - (153 * mp + 2) / 5 + 1 in
  let m := if mp <? 10 then mp + 3 else mp - 9 in
  mkIsoDate (yoe + era * 400 + (if m <=? 2 then 1 else 0)) m d.

(** The day number of a date; [m] runs from 1 to 12, [d] may run outside
    the month. *)
Definition days_from_civil (y m d : Z) : Z :=
  let y := if m <=? 2 then y - 1 else y in
  let era := y / 400 in
  let yoe := y - era * 400 in
  let doy := (153 * (if 2 <? m then m - 3 else m + 9) + 2) / 5 + d - 1 in
  let doe := yoe * 365 + yoe / 4 - yoe / 100 + doy in
  era * 146097 + doe - 719468.

(** ECMAScript's [MakeDay(year, month, date)], [month] counted from 0 and
    allowed to run outside 0..11, [date] allowed to run outside the
    month. *)
Definition MakeDay (y m dt : Z) : Z :=
  days_from_civil (y + m / 12) (m mod 12 + 1) 1 + dt - 1.

Definition toISODate (t : Z) : IsoDate := civil_from_days (t / msPerDay).

Definition getDate (t : Z) : Z := day (toISODate t).
Definition getMonth (t : Z) : Z := month (toISODate t) - 1.

Definition setDate (t dt : Z) : Z :=
  MakeDay (year (toISODate t)) (getMonth t) dt * msPerDay + t mod msPerDay.

Definition setMonth (t m : Z) : Z :=
  MakeDay (year (toISODate t)) m (getDate t) * msPerDay + t mod msPerDay.

(** [Array.from({ length: n }, (_, i) => f i)] *)
Definition Array_from {A : Type} (n : nat) (f : Z -> A) : list A :=
  map (fun i => f (Z.of_nat i)) (seq 0 n).

(** [toISOString().substring(0, 7)]: year and month (the text is
    [YYYY-MM] for the years that print on four digits). *)
Definition toISOMonth (t : Z) : Z * Z := (year (toISODate t), month (toISODate t)).

(** [new Date(month + '-01').toLocaleDateString('en-US', { month: 'short' })] *)
Definition month_short (m : Z) : string :=
  nth (Z.to_nat (m - 1))
    ["Jan"; "Feb"; "Mar"; "Apr"; "May"; "Jun";
     "Jul"; "Aug"; "Sep"; "Oct"; "Nov"; "Dec"] "Invalid Date".

(* ================================================================== *)
(** * server/storage.ts: [getStats] and [getAnalytics] *)

(** The query both roll-ups start from: every lead, or the caller's own
    when [role === "sales_executive" && userId]. *)
Definition leadsQuery (db : Database) (userId : option Z) (role : option string)
  : list Lead :=
  match owner_scope userId role with
  | Some uid => filter (fun l => l_ownerId l =? uid) (leads db)
  | None => leads db
  end.

Definition count {A : Type} (f : A -> bool) (l : list A) : Z :=
  Z.of_nat (List.length (filter f l)).

Definition status_is (s : string) (l : Lead) : bool := (l_status l =? s)%string.

(** [l.value || 0] *)
Definition value_or_0 (l : Lead) : Z :=
  match l_value l with
  | Some v => v
  | None => 0
  end.

Definition sum_values (ls : list Lead) : Z :=
  fold_left (fun sum l => sum + value_or_0 l) ls 0.

(** [acc[k] = (acc[k] || 0) + 1] on an object used as a counter table.
    The table keeps its keys in the order they were first set, which is
    the order [Object.entries] lists them in (keys that spell an array
    index excepted: JavaScript lists those first). *)
Fixpoint bump (k : string) (acc : list (string * Z)) : list (string * Z) :=
  match acc with
  | [] => [(k, 1)]
  | (k', n) :: rest =>
      if (k' =? k)%string then (k', n + 1) :: rest else (k', n) :: bump k rest
  end.

Definition count_by (key : Lead -> string) (ls : list Lead) : list (string * Z) :=
  fold_left (fun acc lead => bump (key lead) acc) ls [].

Definition last7Days (now : Z) : list IsoDate :=
  Array_from 7 (fun i => toISODate (setDate now (getDate now - (6 - i)))).

Record Stats := mkStats {
  totalLeads : Z;
  activeLeads : Z;
  convertedLeads : Z;
  totalValue : Z;
  leadsByStatus : list (string * Z);
  leadsBySource : list (string * Z);
  recentActivity : list (IsoDate * Z)
}.

(** The body of [getStats] past its two queries: [allLeads] is what
    [leadsQuery] returned and [allActivities] what
    [db.select().from(activities)] returned. *)
Definition computeStats (now : Z) (allLeads : list Lead) (allActivities : list Activity)
  : Stats :=
  mkStats
    (Z.of_nat (List.length allLeads))
    (count (fun l => negb (existsb (fun s => status_is s l) ["won"; "lost"])) allLeads)
    (count (status_is "won") allLeads)
    (sum_values allLeads)
    (count_by l_status allLeads)
    (count_by l_source allLeads)
    (map (fun date =>
            (date, count (fun a => IsoDate_eqb (toISODate (a_createdAt a)) date)
                     allActivities))
         (last7Days now)).

Definition getStats (now : Z) (db : Database) (userId : option Z) (role : option string)
  : Stats :=
  computeStats now (leadsQuery db userId role) (activities db).

(** A JavaScript number that comes out of a division: kept as the
    operations that compute it, since a double is not the exact
    quotient. *)
Inductive jsnum : Type :=
| NumInt (z : Z)
| NumAdd (a b : jsnum)
| NumMul (a b : jsnum)
| NumDiv (a b : jsnum).

(** [s.charAt(0).toUpperCase() + s.slice(1)], for a text that starts
    with an ASCII character: only the letters [a]-[z] are mapped. *)
Definition capitalize (s : string) : string :=
  match s with
  | EmptyString => EmptyString
  | String c rest =>
      let n := nat_of_ascii c in
      String (if Nat.leb 97 n && Nat.leb n 122 then ascii_of_nat (n - 32) else c) rest
  end.

Definition last6Months (now : Z) : list (Z * Z) :=
  Array_from 6 (fun i => toISOMonth (setMonth now (getMonth now - (5 - i)))).

Definition month_eqb (a b : Z * Z) : bool :=
  (fst a =? fst b) && (snd a =? snd b).

Record TrendPoint := mkTrend { tp_month : string; tp_leads : Z; tp_won : Z }.

Record UserPerformance := mkPerf {
  up_user : string;
  up_leads : Z;
  up_won : Z;
  up_value : Z
}.

Record StatusShare := mkShare {
  ss_status : string;
  ss_count : Z;
  ss_percentage : jsnum
}.

Record Analytics := mkAnalytics {
  conversionRate : jsnum;
  avgDealSize : jsnum;
  avgTimeToClose : jsnum;
  leadTrend : list TrendPoint;
  performanceByUser : list UserPerformance;
  statusDistribution : list StatusShare
}.

(** The body of [getAnalytics] past its queries: [allLeads] is what
    [leadsQuery] returned and [allUsers] what [db.select().from(users)]
    returned. *)
Definition computeAnalytics (now : Z) (allLeads : list Lead) (allUsers : list User)
  : Analytics :=
  let wonLeads := filter (status_is "won") allLeads in
  let totalLeads := Z.of_nat (List.length allLeads) in
  let wonCount := Z.of_nat (List.length wonLeads) in
  let timesToClose :=
    map (fun l => NumDiv (NumInt (l_updatedAt l - l_createdAt l))
                    (NumInt (1000 * 60 * 60 * 24))) wonLeads in
  mkAnalytics
    (if 0 <? totalLeads
     then NumMul (NumDiv (NumInt wonCount) (NumInt totalLeads)) (NumInt 100)
     else NumInt 0)
    (if 0 <? wonCount
     then NumDiv (NumInt (sum_values wonLeads)) (NumInt wonCount)
     else NumInt 0)
    (if 0 <? Z.of_nat (List.length timesToClose)
     then NumDiv (fold_left NumAdd timesToClose (NumInt 0))
            (NumInt (Z.of_nat (List.length timesToClose)))
     else NumInt 0)
    (map (fun m =>
            let monthLeads :=
              filter (fun l => month_eqb (toISOMonth (l_createdAt l)) m) allLeads in
            mkTrend (month_short (snd m))
              (Z.of_nat (List.length monthLeads))
              (count (status_is "won") monthLeads))
         (last6Months now))
    (filter (fun p => 0 <? up_leads p)
       (map (fun user =>
               let userLeads := filter (fun l => l_ownerId l =? u_id user) allLeads in
               let userWon := filter (status_is "won") userLeads in
               mkPerf (u_fullName user)
                 (Z.of_nat (List.length userLeads))
                 (Z.of_nat (List.length userWon))
                 (sum_values userWon))
            allUsers))
    (map (fun sc =>
            mkShare (capitalize (fst sc)) (snd sc)
              (if 0 <? totalLeads
               then NumMul (NumDiv (NumInt (snd sc)) (NumInt totalLeads)) (NumInt 100)
               else NumInt 0))
         (count_by l_status allLeads)).

Definition getAnalytics (now : Z) (db : Database) (userId : option Z) (role : option string)
  : Analytics :=
  computeAnalytics now (leadsQuery db userId role) (users db).

(* ================================================================== *)
(** * Request bodies and the insert schemas of shared/schema.ts *)

(** A value of a parsed JSON body, as far as the schemas tell values
    apart.  [JOther] is a number that is not an integer, an array or an
    object. *)
Inductive jval : Type :=
| JNull
| JBool (b : bool)
| JInt (z : Z)
| JStr (s : string)
| JOther.

(** A JSON object: its keys with their values. *)
Definition jobject : Type := list (string * jval).

Fixpoint obj_get (k : string) (o : jobject) : option jval :=
  match o with
  | [] => None
  | (k', v) :: rest => if (k' =? k)%string then Some v else obj_get k rest
  end.

(** [o[k] = v] *)
Fixpoint obj_set (k : string) (v : jval) (o : jobject) : jobject :=
  match o with
  | [] => [(k, v)]
  | (k', v') :: rest =>
      if (k' =? k)%string then (k, v) :: rest else (k', v') :: obj_set k v rest
  end.

(** The two ways a handler's [try] block is left by an exception. *)
Inductive Err : Type :=
| ZodError
| QueryError.

Inductive result (A : Type) : Type :=
| Ok (a : A)
| Throw (e : Err).
Arguments Ok {A} _.
Arguments Throw {A} _.

Section Schemas.
(** The refinement drizzle-zod puts on an [integer] column beyond
    [z.number().int()]; which one depends on its release. *)
Variable zod_int : Z -> bool.

Definition z_string (v : option jval) : result string :=
  match v with
  | Some (JStr s) => Ok s
  | _ => Throw ZodError
  end.

Definition z_string_optional (v : option jval) : result (option string) :=
  match v with
  | None => Ok None
  | Some (JStr s) => Ok (Some s)
  | _ => Throw ZodError
  end.

Definition z_string_nullish (v : option jval) : result (maybe string) :=
  match v with
  | None => Ok Undefined
  | Some JNull => Ok Null
  | Some (JStr s) => Ok (Val s)
  | _ => Throw ZodError
  end.

Definition z_int (v : option jval) : result Z :=
  match v with
  | Some (JInt z) => if zod_int z then Ok z else Throw ZodError
  | _ => Throw ZodError
  end.

Definition z_int_optional (v : option jval) : result (option Z) :=
  match v with
  | None => Ok None
  | Some (JInt z) => if zod_int z then Ok (Some z) else Throw ZodError
  | _ => Throw ZodError
  end.

Definition z_int_nullish (v : option jval) : result (maybe Z) :=
  match v with
  | None => Ok Undefined
  | Some JNull => Ok Null
  | Some (JInt z) => if zod_int z then Ok (Val z) else Throw ZodError
  | _ => Throw ZodError
  end.

Definition and_then {A B : Type} (r : result A) (k : A -> result B) : result B :=
  match r with
  | Ok a => k a
  | Throw e => Throw e
  end.

(** [insertLeadSchema.parse]: the columns of [leads] without [id],
    [createdAt] and [updatedAt]; a column that is [notNull()] and has no
    default is required. *)
Definition insertLeadSchema_parse (o : jobject) : result InsertLead :=
  and_then (z_string (obj_get "companyName" o)) (fun companyName =>
  and_then (z_string (obj_get "contactName" o)) (fun contactName =>
  and_then (z_string (obj_get "email" o)) (fun email =>
  and_then (z_string_nullish (obj_get "phone" o)) (fun phone =>
  and_then (z_string_optional (obj_get "status" o)) (fun status =>
  and_then (z_string (obj_get "source" o)) (fun source =>
  and_then (z_int_nullish (obj_get "value" o)) (fun value =>
  and_then (z_int (obj_get "ownerId" o)) (fun ownerId =>
  Ok (mkInsertLead companyName contactName email phone status source
        value ownerId))))))))).

(** [insertLeadSchema.partial().parse] *)
Definition insertLeadSchema_partial_parse (o : jobject) : result PartialLead :=
  and_then (z_string_optional (obj_get "companyName" o)) (fun companyName =>
  and_then (z_string_optional (obj_get "contactName" o)) (fun contactName =>
  and_then (z_string_optional (obj_get "email" o)) (fun email =>
  and_then (z_string_nullish (obj_get "phone" o)) (fun phone =>
  and_then (z_string_optional (obj_get "status" o)) (fun status =>
  and_then (z_string_optional (obj_get "source" o)) (fun source =>
  and_then (z_int_nullish (obj_get "value" o)) (fun value =>
  and_then (z_int_optional (obj_get "ownerId" o)) (fun ownerId =>
  Ok (mkPartialLead companyName contactName email phone status source
        value ownerId))))))))).

(** [insertActivitySchema.parse] *)
Definition insertActivitySchema_parse (o : jobject) : result InsertActivity :=
  and_then (z_int (obj_get "leadId" o)) (fun leadId =>
  and_then (z_int (obj_get "userId" o)) (fun userId =>
  and_then (z_string (obj_get "type" o)) (fun type =>
  and_then (z_string (obj_get "subject" o)) (fun subject =>
  and_then (z_string_nullish (obj_get "notes" o)) (fun notes =>
  Ok (mkInsertActivity leadId userId type subject notes)))))).
End Schemas.

(* ================================================================== *)
(** * The server's state and the monad the handlers run in *)

(** The storage methods a handler has called, in order. *)
Inductive StorageCall : Type :=
| Call_getAllUsers
| Call_getAllLeads (userId : option Z) (role : option string)
| Call_getLeadById (id : option Z)
| Call_createLead (lead : InsertLead)
| Call_updateLead (id : option Z) (lead : PartialLead)
| Call_deleteLead (id : option Z)
| Call_createActivity (activity : InsertActivity)
| Call_getStats (userId : option Z) (role : option string)
| Call_getAnalytics (userId : option Z) (role : option string).

(** What leaves the server carries no [password]. *)
Record PublicUser := mkPublicUser {
  pu_id : Z;
  pu_username : string;
  pu_email : string;
  pu_fullName : string;
  pu_role : string;
  pu_createdAt : Z
}.

Record SanitizedActivity := mkSA {
  sa_activity : Activity;
  sa_user : maybe PublicUser
}.

Record SanitizedLead := mkSL {
  sl_lead : Lead;
  sl_owner : maybe PublicUser;
  sl_activities : option (list SanitizedActivity)
}.

(** [req.user], as [AuthenticatedRequest] declares it. *)
Record SessionUser := mkSessionUser {
  su_id : Z;
  su_username : string;
  su_email : string;
  su_fullName : string;
  su_role : string
}.

(** The envelopes [broadcastToClients] is called with.  The data of
    [lead_updated] is [updatedLead ? sanitizeLead(updatedLead) : lead]. *)
Inductive Event : Type :=
| lead_created (data : SanitizedLead)
| lead_updated (data : SanitizedLead + option Lead)
| lead_deleted (id : option Z)
| activity_created (data : Activity) (user : SessionUser).

Inductive ReadyState : Type := CONNECTING | OPEN | CLOSING | CLOSED.

Definition is_open (s : ReadyState) : bool :=
  match s with
  | OPEN => true
  | _ => false
  end.

Record World := mkWorld {
  w_db : Database;
  w_now : Z;                          (* the clock, read by [new Date()] and [defaultNow()] *)
  w_faults : list bool;               (* for each statement still to come: does the driver fail it? *)
  w_calls : list StorageCall;         (* storage methods called so far *)
  w_clients : list (nat * ReadyState);(* [wss.clients] *)
  w_sent : list (nat * Event)         (* messages sent to clients so far *)
}.

Definition M (A : Type) : Type := World -> result A * World.

Definition ret {A : Type} (a : A) : M A := fun w => (Ok a, w).

Definition throw {A : Type} (e : Err) : M A := fun w => (Throw e, w).

Definition bind {A B : Type} (m : M A) (k : A -> M B) : M B :=
  fun w =>
    match m w with
    | (Ok a, w') => k a w'
    | (Throw e, w') => (Throw e, w')
    end.

(** [try { m } catch (error) { h error }] *)
Definition try_catch {A : Type} (m : M A) (h : Err -> M A) : M A :=
  fun w =>
    match m w with
    | (Ok a, w') => (Ok a, w')
    | (Throw e, w') => h e w'
    end.

Definition lift {A : Type} (r : result A) : M A := fun w => (r, w).

Declare Scope handler_scope.
Delimit Scope handler_scope with handler.
Notation "x <- m ;; k" := (bind m (fun x => k))
  (at level 100, m at next level, right associativity) : handler_scope.
Notation "m ;;; k" := (bind m (fun _ => k))
  (at level 100, right associativity) : handler_scope.
Local Open Scope handler_scope.

Definition called (c : StorageCall) : M unit :=
  fun w => (Ok tt, mkWorld (w_db w) (w_now w) (w_faults w) (w_calls w ++ [c])
                     (w_clients w) (w_sent w)).

Definition clock : M Z := fun w => (Ok (w_now w), w).

(** One SQL statement.  The driver either fails it, and nothing changes,
    or the database runs it: [run] gives the database afterwards and the
    rows, or [None] when the database refuses the statement. *)
Definition statement {A : Type} (run : Database -> Database * option A) : M A :=
  fun w =>
    let rest := tl (w_faults w) in
    if hd false (w_faults w)
    then (Throw QueryError,
          mkWorld (w_db w) (w_now w) rest (w_calls w) (w_clients w) (w_sent w))
    else
      match run (w_db w) with
      | (db', Some a) =>
          (Ok a, mkWorld db' (w_now w) rest (w_calls w) (w_clients w) (w_sent w))
      | (db', None) =>
          (Throw QueryError,
           mkWorld db' (w_now w) rest (w_calls w) (w_clients w) (w_sent w))
      end.

(** A parameter compared with an [integer] column has to be an [int4]:
    PostgreSQL refuses [NaN] and numbers out of range. *)
Definition int4_param (p : option Z) : option Z :=
  match p with
  | Some z => if int4 z then Some z else None
  | None => None
  end.

Definition query {A : Type} (q : Database -> option A) : M A :=
  statement (fun db => (db, q db)).

(* ================================================================== *)
(** * server/storage.ts: [DatabaseStorage], called from the handlers *)

Module storage.

Definition getAllUsers : M (list User) :=
  called Call_getAllUsers ;;;
  query (fun db => Some (getAllUsers db)).

Definition getAllLeads (userId : option Z) (role : option string) : M (list LeadObject) :=
  called (Call_getAllLeads userId role) ;;;
  query (fun db =>
           match owner_scope userId role with
           | Some uid => if int4 uid then Some (getAllLeads db userId role) else None
           | None => Some (getAllLeads db userId role)
           end).

Definition getLeadById (id : option Z) : M (option LeadObject) :=
  called (Call_getLeadById id) ;;;
  lead <- query (fun db => option_map (selectLead db) (int4_param id)) ;;
  match lead with
  | None => ret None
  | Some lead =>
      leadActivities <- query (fun db =>
                          option_map (getActivitiesByLeadId db) (int4_param id)) ;;
      ret (Some (mkLO (lo_lead lead) (lo_owner lead) (Some leadActivities)))
  end.

Definition createLead (insertLead : InsertLead) : M Lead :=
  called (Call_createLead insertLead) ;;;
  now <- clock ;;
  statement (createLead now insertLead).

Definition updateLead (id : option Z) (updateData : PartialLead) : M (option Lead) :=
  called (Call_updateLead id updateData) ;;;
  now <- clock ;;
  statement (fun db =>
               match int4_param id with
               | Some id =>
                   match updateLead now id updateData db with
                   | Some (db', lead) => (db', Some lead)
                   | None => (db, None)
                   end
               | None => (db, None)
               end).

Definition deleteLead (id : option Z) : M unit :=
  called (Call_deleteLead id) ;;;
  statement (fun db =>
               match int4_param id with
               | Some id => (deleteLead id db, Some tt)
               | None => (db, None)
               end).

Definition createActivity (insertActivity : InsertActivity) : M Activity :=
  called (Call_createActivity insertActivity) ;;;
  now <- clock ;;
  statement (createActivity now insertActivity).

(** The scoped [leadsQuery], awaited. *)
Definition leadsQuery (userId : option Z) (role : option string) : M (list Lead) :=
  query (fun db =>
           match owner_scope userId role with
           | Some uid => if int4 uid then Some (leadsQuery db userId role) else None
           | None => Some (leadsQuery db userId role)
           end).

Definition getStats (userId : option Z) (role : option string) : M Stats :=
  called (Call_getStats userId role) ;;;
  allLeads <- leadsQuery userId role ;;
  now <- clock ;;
  allActivities <- query (fun db => Some (activities db)) ;;
  ret (computeStats now allLeads allActivities).

Definition getAnalytics (userId : option Z) (role : option string) : M Analytics :=
  called (Call_getAnalytics userId role) ;;;
  allLeads <- leadsQuery userId role ;;
  now <- clock ;;
  allUsers <- query (fun db => Some (users db)) ;;
  ret (computeAnalytics now allLeads allUsers).

End storage.

(* ================================================================== *)
(** * server/routes.ts *)

(** What [res.json] is given.  [JsonLead None] is [res.json(undefined)]. *)
Inductive Body : Type :=
| NoBody
| JsonError (error : string)          (* [{ error: "..." }] *)
| JsonErrorMessage (e : Err)          (* [{ error: error.message || "..." }] *)
| JsonUsers (us : list PublicUser)
| JsonLeads (ls : list SanitizedLead)
| JsonLeadDetails (l : SanitizedLead)
| JsonLead (l : option Lead)
| JsonActivity (a : Activity)
| JsonStats (s : Stats)
| JsonAnalytics (a : Analytics).

Record Response := mkResponse { status : Z; body : Body }.

(** The routes of [registerRoutes].  An [:id] is given as what
    [parseInt(req.params.id)] makes of it, [None] for [NaN]; a body is the
    JSON object of the request. *)
Inductive Route : Type :=
| GET_users
| GET_leads
| GET_lead (id : option Z)
| POST_leads (body : jobject)
| PUT_lead (id : option Z) (body : jobject)
| DELETE_lead (id : option Z)
| POST_activities (body : jobject)
| GET_stats
| GET_analytics.

(** A request: its route and [req.user], [None] when
    [req.isAuthenticated()] is false. *)
Record Request := mkRequest { req_user : option SessionUser; req_route : Route }.

Definition json (code : Z) (b : Body) : M Response := ret (mkResponse code b).

Definition requireAuth (user : option SessionUser) (next : SessionUser -> M Response)
  : M Response :=
  match user with
  | None => json 401 (JsonError "Unauthorized")
  | Some u => next u
  end.

Definition requireRole (roles : list string) (user : option SessionUser)
  (next : SessionUser -> M Response) : M Response :=
  match user with
  | None => json 401 (JsonError "Unauthorized")
  | Some u =>
      if existsb (String.eqb (su_role u)) roles
      then next u
      else json 403 (JsonError "Forbidden")
  end.

(** [({ password, ...user }) => user] *)
Definition without_password (u : User) : PublicUser :=
  mkPublicUser (u_id u) (u_username u) (u_email u) (u_fullName u) (u_role u)
    (u_createdAt u).

Definition sanitizeUser (user : maybe User) : maybe PublicUser :=
  match user with
  | Undefined => Undefined
  | Null => Null
  | Val u => Val (without_password u)
  end.

Definition sanitizeLead (lead : LeadObject) : SanitizedLead :=
  mkSL (lo_lead lead)
    (sanitizeUser (lo_owner lead))
    (option_map (map (fun activity =>
                        mkSA (awu_activity activity) (sanitizeUser (awu_user activity))))
       (lo_activities lead)).

(** A bare row of [leads], as [createLead] and [updateLead] return it,
    seen as the object [sanitizeLead] takes. *)
Definition bare (l : Lead) : LeadObject := mkLO l Undefined None.

Definition broadcastToClients (data : Event) : M unit :=
  fun w =>
    (Ok tt,
     mkWorld (w_db w) (w_now w) (w_faults w) (w_calls w) (w_clients w)
       (w_sent w ++ map (fun client => (fst client, data))
                      (filter (fun client => is_open (snd client)) (w_clients w)))).

(** [req.user?.role === "sales_executive" && lead.ownerId !== req.user.id] *)
Definition not_own (u : SessionUser) (lead : LeadObject) : bool :=
  (su_role u =? role_sales_executive)%string
  && negb (l_ownerId (lo_lead lead) =? su_id u).

Section Handlers.
(** JavaScript's [parseInt] on a value of the body; [None] is [NaN]. *)
Variable parseInt : option jval -> option Z.
Variable zod_int : Z -> bool.

Definition get_users (req : Request) : M Response :=
  requireRole ["admin"] (req_user req) (fun _ =>
    try_catch
      (users <- storage.getAllUsers ;;
       json 200 (JsonUsers (map without_password users)))
      (fun _ => json 500 (JsonError "Failed to fetch users"))).

Definition get_leads (req : Request) : M Response :=
  requireAuth (req_user req) (fun user =>
    try_catch
      (leads <- storage.getAllLeads (Some (su_id user)) (Some (su_role user)) ;;
       json 200 (JsonLeads (map sanitizeLead leads)))
      (fun _ => json 500 (JsonError "Failed to fetch leads"))).

Definition get_lead (id : option Z) (req : Request) : M Response :=
  requireAuth (req_user req) (fun user =>
    try_catch
      (lead <- storage.getLeadById id ;;
       match lead with
       | None => json 404 (JsonError "Lead not found")
       | Some lead =>
           if not_own user lead
           then json 403 (JsonError "Forbidden")
           else json 200 (JsonLeadDetails (sanitizeLead lead))
       end)
      (fun _ => json 500 (JsonError "Failed to fetch lead"))).

Definition post_leads (body : jobject) (req : Request) : M Response :=
  requireAuth (req_user req) (fun user =>
    try_catch
      (let dataToValidate :=
         if (su_role user =? role_sales_executive)%string
         then obj_set "ownerId" (JInt (su_id user)) body
         else body in
       validatedData <- lift (insertLeadSchema_parse zod_int dataToValidate) ;;
       lead <- storage.createLead validatedData ;;
       broadcastToClients (lead_created (sanitizeLead (bare lead))) ;;;
       json 201 (JsonLead (Some lead)))
      (fun error => json 400 (JsonErrorMessage error))).

Definition put_lead (id : option Z) (body : jobject) (req : Request) : M Response :=
  requireAuth (req_user req) (fun user =>
    try_catch
      (validatedData <- lift (insertLeadSchema_partial_parse zod_int body) ;;
       existingLead <- storage.getLeadById id ;;
       match existingLead with
       | None => json 404 (JsonError "Lead not found")
       | Some existingLead =>
           if not_own user existingLead
           then json 403 (JsonError "Forbidden")
           else
             lead <- storage.updateLead id validatedData ;;
             updatedLead <- storage.getLeadById id ;;
             broadcastToClients
               (lead_updated
                  match updatedLead with
                  | Some updatedLead => inl (sanitizeLead updatedLead)
                  | None => inr lead
                  end) ;;;
             json 200 (JsonLead lead)
       end)
      (fun error => json 400 (JsonErrorMessage error))).

Definition delete_lead (id : option Z) (req : Request) : M Response :=
  requireRole ["admin"; "manager"] (req_user req) (fun _ =>
    try_catch
      (existingLead <- storage.getLeadById id ;;
       match existingLead with
       | None => json 404 (JsonError "Lead not found")
       | Some _ =>
           storage.deleteLead id ;;;
           broadcastToClients (lead_deleted id) ;;;
           json 204 NoBody
       end)
      (fun _ => json 500 (JsonError "Failed to delete lead"))).

Definition post_activities (body : jobject) (req : Request) : M Response :=
  requireAuth (req_user req) (fun user =>
    try_catch
      (let leadId := parseInt (obj_get "leadId" body) in
       lead <- storage.getLeadById leadId ;;
       match lead with
       | None => json 404 (JsonError "Lead not found")
       | Some lead =>
           if not_own user lead
           then json 403
                  (JsonError "Forbidden: You can only add activities to your own leads")
           else
             validatedData <-
               lift (insertActivitySchema_parse zod_int
                       (obj_set "userId" (JInt (su_id user)) body)) ;;
             activity <- storage.createActivity validatedData ;;
             broadcastToClients (activity_created activity user) ;;;
             json 201 (JsonActivity activity)
       end)
      (fun error => json 400 (JsonErrorMessage error))).

Definition get_stats (req : Request) : M Response :=
  requireAuth (req_user req) (fun user =>
    try_catch
      (stats <- storage.getStats (Some (su_id user)) (Some (su_role user)) ;;
       json 200 (JsonStats stats))
      (fun _ => json 500 (JsonError "Failed to fetch stats"))).

Definition get_analytics (req : Request) : M Response :=
  requireRole ["admin"; "manager"] (req_user req) (fun user =>
    try_catch
      (analytics <- storage.getAnalytics (Some (su_id user)) (Some (su_role user)) ;;
       json 200 (JsonAnalytics analytics))
      (fun _ => json 500 (JsonError "Failed to fetch analytics"))).

(** The server answering one request. *)
Definition handle (req : Request) : M Response :=
  match req_route req with
  | GET_users => get_users req
  | GET_leads => get_leads req
  | GET_lead id => get_lead id req
  | POST_leads body => post_leads body req
  | PUT_lead id body => put_lead id body req
  | DELETE_lead id => delete_lead id req
  | POST_activities body => post_activities body req
  | GET_stats => get_stats req
  | GET_analytics => get_analytics req
  end.
End Handlers.

(* ================================================================== *)
(** * Databases that differ in passwords only *)

(** The same user with the credential blanked. *)
Definition scrub_user (u : User) : User :=
  mkUser (u_id u) (u_username u) EmptyString (u_email u) (u_fullName u) (u_role u) (u_createdAt u).

Definition scrub_db (db : Database) : Database :=
  mkDb (map scrub_user (users db)) (leads db) (activities db)
    (leads_id_seq db) (activities_id_seq db).

Definition scrub_world (w : World) : World :=
  mkWorld (scrub_db (w_db w)) (w_now w) (w_faults w) (w_calls w) (w_clients w) (w_sent w).

Definition scrub_maybe (u : maybe User) : maybe User :=
  match u with
  | Val u => Val (scrub_user u)
  | Null => Null
  | Undefined => Undefined
  end.

Definition scrub_activity (a : ActivityWithUser) : ActivityWithUser :=
  mkAWU (awu_activity a) (scrub_maybe (awu_user a)).

Definition scrub_lead (l : LeadObject) : LeadObject :=
  mkLO (lo_lead l) (scrub_maybe (lo_owner l))
    (option_map (map scrub_activity) (lo_activities l)).

Definition map_result {A B : Type} (f : A -> B) (r : result A) : result B :=
  match r with
  | Ok a => Ok (f a)
  | Throw e => Throw e
  end.

(** [m'] run where the passwords are blanked does what [m] does where
    they are not, up to [f] on what is returned. *)
Definition sim {A : Type} (f : A -> A) (m' m : M A) : Prop :=
  forall w, m' (scrub_world w) = (map_result f (fst (m w)), scrub_world (snd (m w))).

(** The foreign key of [activities.lead_id]. *)
Definition activities_reference_leads (db : Database) : Prop :=
  forall a, In a (activities db) -> lead_exists db (a_leadId a) = true.

(** The handler answers with this status code. *)
Definition answers (r : result Response * World) (code : Z) : Prop :=
  exists b w', r = (Ok (mkResponse code b), w').

(* ================================================================== *)
(** * A small database to run the code on *)

Module Sample.

(** [parseInt] where the sample requests use it: on a JSON integer. *)
Definition parseInt (v : option jval) : option Z :=
  match v with
  | Some (JInt z) => Some z
  | _ => None
  end.

Definition alice := mkUser 1 "alice" "salt1.hash1" "alice@crm.test" "Alice A" "sales_executive" 1000.
Definition bob := mkUser 2 "bob" "salt2.hash2" "bob@crm.test" "Bob B" "sales_executive" 2000.
Definition carol := mkUser 3 "carol" "salt3.hash3" "carol@crm.test" "Carol C" "admin" 3000.
Definition dave := mkUser 4 "dave" "salt4.hash4" "dave@crm.test" "Dave D" "manager" 4000.
Definition eve := mkUser 5 "eve" "salt5.hash5" "eve@crm.test" "Eve E" "sales_executive" 5000.

(** 2026-11-02T08:00:00Z *)
Definition today : Z := 1793606400000.

Definition acme := mkLead 10 "Acme" "Ann" "ann@acme.test" None "new" "web"
                     (Some 500) 1 (today - 5000) (today - 5000).
Definition globex := mkLead 11 "Globex" "Gus" "gus@globex.test" (Some "555") "won" "referral"
                       (Some 900) 2 (today - 3000) (today - 1000).

Definition call1 := mkActivity 100 11 2 "call" "Intro call" None (today - 2000).

Definition db : Database := mkDb [alice; bob; carol; dave; eve] [acme; globex] [call1] 12 101.

Definition world : World := mkWorld db today [] [] [(0%nat, OPEN); (1%nat, CLOSED)] [].

Definition session (u : User) : SessionUser :=
  mkSessionUser (u_id u) (u_username u) (u_email u) (u_fullName u) (u_role u).

(** A body for [POST /api/leads] that asks for owner 2. *)
Definition new_lead : jobject :=
  [("companyName", JStr "Initech"); ("contactName", JStr "Ian");
   ("email", JStr "ian@initech.test"); ("source", JStr "web");
   ("ownerId", JInt 2)].

(** A body no lead schema accepts: [value] is a string. *)
Definition bad_lead : jobject := [("value", JStr "a lot")].

(** The same database with other credentials. *)
Definition db' : Database :=
  mkDb [mkUser 1 "alice" "x" "alice@crm.test" "Alice A" "sales_executive" 1000;
        mkUser 2 "bob" "y" "bob@crm.test" "Bob B" "sales_executive" 2000;
        mkUser 3 "carol" "z" "carol@crm.test" "Carol C" "admin" 3000;
        mkUser 4 "dave" "-" "dave@crm.test" "Dave D" "manager" 4000;
        mkUser 5 "eve" "12345" "eve@crm.test" "Eve E" "sales_executive" 5000]
    [acme; globex] [call1] 12 101.

Definition world' : World := mkWorld db' today [] [] [(0%nat, OPEN); (1%nat, CLOSED)] [].

End Sample.

(* ================================================================== *)
(** * server/storage.ts: the user lookups *)

(** [const [user] = await db.select().from(users).where(eq(users.id, id));
    return user || undefined] *)
Definition getUser (db : Database) (id : Z) : option User :=
  hd_error (filter (fun u => u_id u =? id) (users db)).

Definition getUserByUsername (db : Database) (username : string) : option User :=
  hd_error (filter (fun u => (u_username u =? username)%string) (users db)).

Definition getUserByEmail (db : Database) (email : string) : option User :=
  hd_error (filter (fun u => (u_email u =? email)%string) (users db)).

(* ================================================================== *)
(** * shared/schema.ts: the constraints the tables declare *)

(** [primaryKey()] on the three [id] columns, which are [serial] and so
    below the next value of their sequence; [unique()] on [username] and
    [email]; [references(...)] on [leads.owner_id], [activities.lead_id]
    and [activities.user_id]. *)
Record constraints_hold (db : Database) : Prop := mkConstraints {
  users_pkey : NoDup (map u_id (users db));
  users_username_key : NoDup (map u_username (users db));
  users_email_key : NoDup (map u_email (users db));
  leads_pkey : NoDup (map l_id (leads db));
  leads_serial : Forall (fun l => l_id l < leads_id_seq db) (leads db);
  activities_pkey : NoDup (map a_id (activities db));
  activities_serial : Forall (fun a => a_id a < activities_id_seq db) (activities db);
  leads_owner_fkey : Forall (fun l => user_exists db (l_ownerId l) = true) (leads db);
  activities_lead_fkey : Forall (fun a => lead_exists db (a_leadId a) = true) (activities db);
  activities_user_fkey : Forall (fun a => user_exists db (a_userId a) = true) (activities db)
}.

(* ================================================================== *)
(** * What a handler leaves behind *)

(** Every run of [m] takes a state to one that is [R]-related to it. *)
Definition keeps {A : Type} (R : World -> World -> Prop) (m : M A) : Prop :=
  forall w, R w (snd (m w)).

(** The tables are what they were and nothing has been sent. *)
Definition untouched (w w' : World) : Prop :=
  w_db w' = w_db w /\ w_sent w' = w_sent w /\ w_clients w' = w_clients w.

Definition constraints_kept (w w' : World) : Prop :=
  constraints_hold (w_db w) -> constraints_hold (w_db w').

(** The messages of [events], each to every client that is [OPEN], in
    the order of [wss.clients]. *)
Definition deliveries (clients : list (nat * ReadyState)) (events : list Event)
  : list (nat * Event) :=
  flat_map (fun data => map (fun client => (fst client, data))
                          (filter (fun client => is_open (snd client)) clients))
    events.

(** The status code and the body of an answer. *)
Definition status_of (r : result Response * World) : option Z :=
  match fst r with
  | Ok resp => Some (status resp)
  | Throw _ => None
  end.

Definition body_of (r : result Response * World) : option Body :=
  match fst r with
  | Ok resp => Some (body resp)
  | Throw _ => None
  end.

(** The three tables, without the sequences. *)
Definition tables (db : Database) : list User * list Lead * list Activity :=
  (users db, leads db, activities db).

(** No quotient of the number has a zero divisor. *)
Fixpoint divides_safely (n : jsnum) : Prop :=
  match n with
  | NumInt _ => True
  | NumAdd a b => divides_safely a /\ divides_safely b
  | NumMul a b => divides_safely a /\ divides_safely b
  | NumDiv a (NumInt z) => divides_safely a /\ z <> 0
  | NumDiv _ _ => False
  end.

(* ================================================================== *)
(** * client: what the pages offer by role *)

(** [menuItems] of [AppSidebar], without the icons. *)
Record MenuItem := mkMenuItem {
  mi_title : string;
  mi_url : string;
  mi_roles : list string
}.

Definition menuItems : list MenuItem :=
  [mkMenuItem "Dashboard" "/" ["admin"; "manager"; "sales_executive"];
   mkMenuItem "Leads" "/leads" ["admin"; "manager"; "sales_executive"];
   mkMenuItem "Analytics" "/analytics" ["admin"; "manager"];
   mkMenuItem "User Management" "/users" ["admin"]].

(** [menuItems.filter((item) => item.roles.includes(user.role))] *)
Definition visibleItems (role : string) : list MenuItem :=
  filter (fun item => existsb (fun r => (r =? role)%string) (mi_roles item)) menuItems.

(** [user?.role === "admin" || user?.role === "manager"], the [canDelete]
    of the leads page and the [canAssignOwner] of the lead form. *)
Definition canDelete (user : option SessionUser) : bool :=
  match user with
  | Some u => (su_role u =? "admin")%string || (su_role u =? "manager")%string
  | None => false
  end.

(** [!!id && id !== "new"] of the lead form. *)
Definition isEditMode (id : option string) : bool :=
  match id with
  | Some s => negb (s =? EmptyString)%string && negb (s =? "new")%string
  | None => false
  end.

(** [enabled] of the lead form's query of [/api/users]. *)
Definition users_query_enabled (user : option SessionUser) (id : option string) : bool :=
  canDelete user && isEditMode id.

(** What a counter table holds for a key, 0 when the key is not in it,
    and the sum of what it holds. *)
Fixpoint counted (k : string) (acc : list (string * Z)) : Z :=
  match acc with
  | [] => 0
  | (k', n) :: rest => (if (k' =? k)%string then n else 0) + counted k rest
  end.

Definition counted_total (acc : list (string * Z)) : Z :=
  fold_right (fun entry sum => snd entry + sum) 0 acc.

(** The names that every JavaScript object inherits from
    [Object.prototype].  Read on a counter table that starts as [{}] they
    are not [undefined], so [(acc[k] || 0) + 1] does not count from 0 for
    them; [bump] describes the table for every other key. *)
Definition Object_prototype_names : list string :=
  ["constructor"; "hasOwnProperty"; "isPrototypeOf"; "propertyIsEnumerable";
   "toLocaleString"; "toString"; "valueOf"; "__proto__";
   "__defineGetter__"; "__defineSetter__"; "__lookupGetter__"; "__lookupSetter__"].

Definition own_key (k : string) : bool :=
  negb (existsb (String.eqb k) Object_prototype_names).

(** The text starts with an ASCII character, or is empty.
    [capitalize] is [s.charAt(0).toUpperCase() + s.slice(1)] for such a
    text: [toUpperCase] maps an ASCII character to another one only from
    [a]-[z] to [A]-[Z].  It also maps letters outside ASCII, which
    [capitalize] leaves as they are. *)
Definition ascii_initial (s : string) : bool :=
  match s with
  | EmptyString => true
  | String c _ => Nat.ltb (nat_of_ascii c) 128
  end.

(** The leads that the entries of [performanceByUser] add up to. *)
Definition perf_leads_total (ps : list UserPerformance) : Z :=
  fold_right (fun p sum => up_leads p + sum) 0 ps.

(** The calendar month [k] months before the month [ym] (a year and a
    month from 1 to 12). *)
Definition months_back (ym : Z * Z) (k : Z) : Z * Z :=
  let i := fst ym * 12 + (snd ym - 1) - k in
  (i / 12, i mod 12 + 1).

(** The routes that only read. *)
Definition reads (route : Route) : bool :=
  match route with
  | GET_users | GET_leads | GET_lead _ | GET_stats | GET_analytics => true
  | _ => false
  end.

(* ================================================================== *)
(** * Properties *)

(** ** Ordering *)

Section OrderByFacts.
Context {A : Type} (key : A -> Z).

Lemma insert_desc_perm (x : A) (l : list A) :
  Permutation (x :: l) (insert_desc key x l).
Proof.
  induction l as [|y l IH]; simpl.
  - apply Permutation_refl.
  - destruct (key y <=? key x).
    + apply Permutation_refl.
    + eapply perm_trans; [apply perm_swap | apply perm_skip, IH].
Qed.

Lemma orderBy_desc_perm (l : list A) : Permutation l (orderBy_desc key l).
Proof.
  induction l as [|x l IH]; simpl.
  - constructor.
  - eapply perm_trans; [apply perm_skip, IH | apply insert_desc_perm].
Qed.

Lemma orderBy_desc_In (l : list A) (x : A) : In x (orderBy_desc key l) <-> In x l.
Proof.
  split; apply Permutation_in;
    [apply Permutation_sym|]; apply orderBy_desc_perm.
Qed.

Lemma orderBy_desc_Forall (P : A -> Prop) (l : list A) :
  Forall P l -> Forall P (orderBy_desc key l).
Proof.
  rewrite !Forall_forall. intros H x Hx. apply H, orderBy_desc_In, Hx.
Qed.

Lemma insert_desc_sorted (x : A) (l : list A) :
  StronglySorted (newer_first key) l ->
  StronglySorted (newer_first key) (insert_desc key x l).
Proof.
  induction 1 as [|y l Hs IH Hy]; simpl.
  - repeat constructor.
  - destruct (key y <=? key x) eqn:E.
    + apply Z.leb_le in E. constructor.
      * constructor; assumption.
      * constructor; [exact E|].
        eapply Forall_impl; [|exact Hy]. unfold newer_first. intros; lia.
    + apply Z.leb_gt in E. constructor; [exact IH|].
      eapply Permutation_Forall; [apply insert_desc_perm|].
      constructor; [unfold newer_first; lia | exact Hy].
Qed.

Lemma orderBy_desc_sorted (l : list A) :
  StronglySorted (newer_first key) (orderBy_desc key l).
Proof.
  induction l; simpl; [constructor | apply insert_desc_sorted; assumption].
Qed.

Lemma orderBy_desc_map {B : Type} (f : B -> A) (l : list B) :
  orderBy_desc key (map f l) = map f (orderBy_desc (fun b => key (f b)) l).
Proof.
  induction l as [|b l IH]; simpl; [reflexivity|].
  rewrite IH. clear IH.
  induction (orderBy_desc (fun b0 => key (f b0)) l) as [|c m IHm]; simpl.
  - reflexivity.
  - destruct (key (f c) <=? key (f b)); simpl; [reflexivity | now rewrite IHm].
Qed.
End OrderByFacts.

(** ** The owner scope of the lead queries *)

Lemma owner_scope_Some (userId : option Z) (role : option string) (uid : Z) :
  owner_scope userId role = Some uid <->
  role = Some role_sales_executive /\ userId = Some uid /\ uid <> 0.
Proof.
  unfold owner_scope, truthy. split.
  - destruct role as [r|]; [|discriminate].
    destruct userId as [u|]; [|discriminate].
    destruct (String.eqb_spec r role_sales_executive); simpl; [|discriminate].
    destruct (Z.eqb_spec u 0); simpl; [discriminate|].
    intros [= <-]. subst. auto.
  - intros (-> & -> & Hz). rewrite String.eqb_refl. simpl.
    destruct (Z.eqb_spec uid 0); [contradiction | reflexivity].
Qed.

Lemma owner_scope_None (userId : option Z) (role : option string) :
  owner_scope userId role = None <->
  role <> Some role_sales_executive \/ truthy userId = false.
Proof.
  split.
  - intros H. destruct (truthy userId) eqn:T; [|now right]. left. intros ->.
    destruct userId as [u|]; [|discriminate]. simpl in T.
    assert (owner_scope (Some u) (Some role_sales_executive) = Some u) as E.
    { apply owner_scope_Some. repeat split. intros ->. discriminate. }
    congruence.
  - intros H. destruct (owner_scope userId role) as [uid|] eqn:E; [|reflexivity].
    apply owner_scope_Some in E. destruct E as (-> & -> & Hz).
    destruct H as [H|H]; [contradiction|]. simpl in H.
    destruct (Z.eqb_spec uid 0); [contradiction | discriminate].
Qed.

Lemma leftJoin_owner_lead (us : list User) (l : Lead) (r : LeadObject) :
  In r (leftJoin_owner us l) -> lo_lead r = l.
Proof.
  unfold leftJoin_owner. destruct (filter _ us) as [|u ms].
  - intros [<-|[]]. reflexivity.
  - intros H. apply in_map_iff in H. destruct H as (u' & <- & _). reflexivity.
Qed.

Lemma leftJoin_owner_nonempty (us : list User) (l : Lead) :
  exists r, In r (leftJoin_owner us l).
Proof.
  unfold leftJoin_owner. destruct (filter _ us) as [|u ms].
  - eexists. left. reflexivity.
  - eexists. left. reflexivity.
Qed.

Lemma joined_leads (us : list User) (rows : list Lead) (l : Lead) :
  In l (map lo_lead (flat_map (leftJoin_owner us) rows)) <-> In l rows.
Proof.
  rewrite in_map_iff. split.
  - intros (r & <- & Hr). apply in_flat_map in Hr. destruct Hr as (l' & Hl' & Hr).
    now rewrite (leftJoin_owner_lead _ _ _ Hr).
  - intros Hl. destruct (leftJoin_owner_nonempty us l) as (r & Hr).
    exists r. split; [eapply leftJoin_owner_lead; eauto|].
    apply in_flat_map. eauto.
Qed.

Lemma getAllLeads_rows (db : Database) (userId : option Z) (role : option string)
  (l : Lead) :
  In l (map lo_lead (getAllLeads db userId role)) <-> In l (leadsQuery db userId role).
Proof.
  assert (forall rows,
             In l (map lo_lead
                     (orderBy_desc (fun r => l_createdAt (lo_lead r))
                        (flat_map (leftJoin_owner (users db)) rows)))
             <-> In l rows) as H.
  { intros rows. rewrite <- (joined_leads (users db) rows l), !in_map_iff.
    split; intros (r & E & Hr); exists r; (split; [exact E|]).
    - eapply orderBy_desc_In, Hr.
    - eapply orderBy_desc_In in Hr. exact Hr. }
  unfold getAllLeads, leadsQuery.
  destruct (owner_scope userId role); apply H.
Qed.

Lemma getAllLeads_sorted (db : Database) (userId : option Z) (role : option string) :
  StronglySorted (newer_first (fun r => l_createdAt (lo_lead r)))
    (getAllLeads db userId role).
Proof.
  unfold getAllLeads. destruct (owner_scope userId role); apply orderBy_desc_sorted.
Qed.

Lemma filter_by_key_unique (k : Z) (us : list User) :
  NoDup (map u_id us) ->
  (List.length (filter (fun u => (k =? u_id u)%Z) us) <= 1)%nat.
Proof.
  induction us as [|u us IH]; simpl; [auto|].
  intros Hnd. inversion Hnd as [|? ? Hnotin Hnd']; subst.
  destruct (Z.eqb_spec k (u_id u)) as [->|_]; [|auto].
  simpl. apply le_n_S.
  replace (filter (fun u0 => u_id u =? u_id u0) us) with (@nil User); [auto|].
  symmetry. apply (proj1 (List.length_zero_iff_nil _)).
  destruct (filter _ us) as [|u' rest] eqn:E; [reflexivity|].
  exfalso. apply Hnotin.
  assert (In u' (filter (fun u0 => u_id u =? u_id u0) us)) as Hin
    by (rewrite E; now left).
  apply filter_In in Hin. destruct Hin as [Hin Heq]. apply Z.eqb_eq in Heq.
  rewrite Heq. now apply in_map.
Qed.

(** [users.id] is the primary key: with no two users of one id the join
    gives each lead once, and the leads listed are the leads selected,
    each as often as it is in the table. *)
Lemma getAllLeads_each_lead_once (db : Database) (userId : option Z) (role : option string) :
  NoDup (map u_id (users db)) ->
  Permutation (map lo_lead (getAllLeads db userId role)) (leadsQuery db userId role).
Proof.
  intros Hpk.
  assert (forall rows, map lo_lead (flat_map (leftJoin_owner (users db)) rows) = rows) as H.
  { induction rows as [|l rows IH]; simpl; [reflexivity|].
    rewrite map_app, IH. f_equal. unfold leftJoin_owner.
    pose proof (filter_by_key_unique (l_ownerId l) (users db) Hpk) as Hle.
    destruct (filter _ (users db)) as [|u [|u' ms]]; simpl in *; try reflexivity.
    exfalso. lia. }
  unfold getAllLeads, leadsQuery.
  destruct (owner_scope userId role);
    (eapply perm_trans;
     [apply Permutation_map, Permutation_sym, orderBy_desc_perm | rewrite H; apply Permutation_refl]).
Qed.

(** C1, as amended.  When [getAllLeads] is called for a sales executive
    with a user id that is there and not zero, it returns exactly the
    leads whose [ownerId] is that id; for every other role it returns
    every lead of the table; and what it returns is always ordered
    newest first by [createdAt]. *)
Theorem getAllLeads_role_scoped (db : Database) (userId : option Z) (role : option string) :
  (forall uid, role = Some role_sales_executive -> userId = Some uid -> uid <> 0 ->
     Forall (fun r => l_ownerId (lo_lead r) = uid) (getAllLeads db userId role) /\
     forall l, In l (leads db) -> l_ownerId l = uid ->
               In l (map lo_lead (getAllLeads db userId role))) /\
  (role <> Some role_sales_executive ->
     forall l, In l (map lo_lead (getAllLeads db userId role)) <-> In l (leads db)) /\
  StronglySorted (newer_first (fun r => l_createdAt (lo_lead r)))
    (getAllLeads db userId role).
Proof.
  split; [|split].
  - intros uid Hr Hu Hz.
    assert (owner_scope userId role = Some uid) as E by (apply owner_scope_Some; auto).
    split.
    + apply Forall_forall. intros r Hr'.
      assert (In (lo_lead r) (leadsQuery db userId role)) as H.
      { apply getAllLeads_rows, in_map, Hr'. }
      unfold leadsQuery in H. rewrite E in H. apply filter_In in H.
      destruct H as [_ H]. now apply Z.eqb_eq in H.
    + intros l Hl Ho. apply getAllLeads_rows. unfold leadsQuery. rewrite E.
      apply filter_In. split; [exact Hl | now apply Z.eqb_eq].
  - intros Hr l. rewrite getAllLeads_rows. unfold leadsQuery.
    replace (owner_scope userId role) with (@None Z); [reflexivity|].
    symmetry. apply owner_scope_None. now left.
  - apply getAllLeads_sorted.
Qed.

Lemma getAllLeads_role_scoped_witness :
  Forall (fun r => l_ownerId (lo_lead r) = 2)
    (getAllLeads Sample.db (Some 2) (Some role_sales_executive)) /\
  (forall l, In l (map lo_lead (getAllLeads Sample.db (Some 3) (Some "admin")))
             <-> In l (leads Sample.db)).
Proof.
  destruct (getAllLeads_role_scoped Sample.db (Some 2) (Some role_sales_executive))
    as (H1 & _ & _).
  destruct (getAllLeads_role_scoped Sample.db (Some 3) (Some "admin"))
    as (_ & H2 & _).
  split.
  - apply (H1 2); [reflexivity | reflexivity | lia].
  - apply H2. discriminate.
Defined.

(** C1 as it is written fails: called for a sales executive without a
    user id, or with the id 0, [getAllLeads] returns the leads of other
    owners. *)
Lemma getAllLeads_sales_executive_unscoped :
  ~ Forall (fun r => Some (l_ownerId (lo_lead r)) = @None Z)
      (getAllLeads Sample.db None (Some role_sales_executive)) /\
  ~ Forall (fun r => l_ownerId (lo_lead r) = 0)
      (getAllLeads Sample.db (Some 0) (Some role_sales_executive)).
Proof.
  split; intros H; inversion H as [|r rs Hr _]; subst; discriminate Hr.
Qed.

Lemma leadsQuery_unscoped (db : Database) (userId : option Z) (role : option string) :
  role <> Some role_sales_executive \/ truthy userId = false ->
  leadsQuery db userId role = leads db.
Proof.
  intros H. apply owner_scope_None in H. unfold leadsQuery. now rewrite H.
Qed.

Lemma leadsQuery_scoped (db : Database) (userId : option Z) (role : option string)
  (uid : Z) :
  role = Some role_sales_executive -> userId = Some uid -> uid <> 0 ->
  leadsQuery db userId role = filter (fun l => l_ownerId l =? uid) (leads db).
Proof.
  intros Hr Hu Hz. unfold leadsQuery.
  replace (owner_scope userId role) with (Some uid); [reflexivity|].
  symmetry. apply owner_scope_Some. auto.
Qed.

(** C6.  [getAllLeads], [getStats] and [getAnalytics] narrow the leads to
    the caller's own only when the role is [sales_executive] and the user
    id is truthy.  Otherwise, and so for a sales executive whose user id
    is missing or 0, each of them works on every lead of the table. *)
Theorem owner_filter_needs_role_and_userId
  (now : Z) (db : Database) (userId : option Z) (role : option string) :
  (role <> Some role_sales_executive \/ truthy userId = false ->
     (forall l, In l (map lo_lead (getAllLeads db userId role)) <-> In l (leads db)) /\
     getAllLeads db userId role = getAllLeads db None None /\
     getStats now db userId role = computeStats now (leads db) (activities db) /\
     getAnalytics now db userId role = computeAnalytics now (leads db) (users db)) /\
  (forall uid, role = Some role_sales_executive -> userId = Some uid -> uid <> 0 ->
     let own := filter (fun l => l_ownerId l =? uid) (leads db) in
     (forall l, In l (map lo_lead (getAllLeads db userId role)) <-> In l own) /\
     getStats now db userId role = computeStats now own (activities db) /\
     getAnalytics now db userId role = computeAnalytics now own (users db)).
Proof.
  split.
  - intros H. pose proof (leadsQuery_unscoped db userId role H) as E.
    repeat split.
    + rewrite getAllLeads_rows, E. trivial.
    + rewrite getAllLeads_rows, E. trivial.
    + apply owner_scope_None in H. unfold getAllLeads. rewrite H. reflexivity.
    + unfold getStats. now rewrite E.
    + unfold getAnalytics. now rewrite E.
  - intros uid Hr Hu Hz own.
    pose proof (leadsQuery_scoped db userId role uid Hr Hu Hz) as E.
    repeat split.
    + rewrite getAllLeads_rows, E. trivial.
    + rewrite getAllLeads_rows, E. trivial.
    + unfold getStats. now rewrite E.
    + unfold getAnalytics. now rewrite E.
Qed.

Lemma owner_filter_needs_role_and_userId_witness :
  getStats Sample.today Sample.db None (Some role_sales_executive)
    = computeStats Sample.today (leads Sample.db) (activities Sample.db) /\
  getAnalytics Sample.today Sample.db (Some 0) (Some role_sales_executive)
    = computeAnalytics Sample.today (leads Sample.db) (users Sample.db) /\
  getStats Sample.today Sample.db (Some 2) (Some role_sales_executive)
    = computeStats Sample.today [Sample.globex] (activities Sample.db).
Proof.
  destruct (owner_filter_needs_role_and_userId Sample.today Sample.db None
              (Some role_sales_executive)) as (H1 & _).
  destruct (owner_filter_needs_role_and_userId Sample.today Sample.db (Some 0)
              (Some role_sales_executive)) as (H2 & _).
  destruct (owner_filter_needs_role_and_userId Sample.today Sample.db (Some 2)
              (Some role_sales_executive)) as (_ & H3).
  split; [|split].
  - apply H1. right. reflexivity.
  - apply H2. right. reflexivity.
  - destruct (H3 2) as (_ & H & _); [reflexivity | reflexivity | lia |].
    exact H.
Defined.

(** ** Deleting a lead *)

Lemma deleteLead_no_activity (id : Z) (db : Database) :
  Forall (fun a => a_leadId a <> id) (activities (deleteLead id db)).
Proof.
  apply Forall_forall. intros a Ha. simpl in Ha. apply filter_In in Ha.
  destruct Ha as [_ Ha]. apply negb_true_iff in Ha. now apply Z.eqb_neq.
Qed.

Lemma deleteLead_no_lead (id : Z) (db : Database) :
  Forall (fun l => l_id l <> id) (leads (deleteLead id db)).
Proof.
  apply Forall_forall. intros l Hl. simpl in Hl. apply filter_In in Hl.
  destruct Hl as [_ Hl]. apply negb_true_iff in Hl. now apply Z.eqb_neq.
Qed.

Lemma deleteLead_keeps_others (id : Z) (db : Database) :
  (forall a, a_leadId a <> id ->
             (In a (activities (deleteLead id db)) <-> In a (activities db))) /\
  (forall l, l_id l <> id -> (In l (leads (deleteLead id db)) <-> In l (leads db))) /\
  users (deleteLead id db) = users db.
Proof.
  repeat split; simpl.
  - intros Hin. apply filter_In in Hin. tauto.
  - intros Hin. apply filter_In. split; [exact Hin|].
    apply negb_true_iff. now apply Z.eqb_neq.
  - intros Hin. apply filter_In in Hin. tauto.
  - intros Hin. apply filter_In. split; [exact Hin|].
    apply negb_true_iff. now apply Z.eqb_neq.
Qed.

(** [storage.deleteLead] goes through when the driver does not fail the
    statement and the id is an [int4]. *)
Lemma deleteLead_succeeds (id : Z) (w : World) :
  hd false (w_faults w) = false -> int4 id = true ->
  fst (storage.deleteLead (Some id) w) = Ok tt /\
  w_db (snd (storage.deleteLead (Some id) w)) = deleteLead id (w_db w).
Proof.
  intros Hf Hi. unfold storage.deleteLead, bind, called, statement. simpl.
  rewrite Hf, Hi. simpl. auto.
Qed.

(** C3.  [storage.deleteLead id] removes the lead and its activities
    together or not at all.  When the driver does not fail the statement
    and the id is an [int4] the call returns, and then no activity in
    the store has [leadId = id], however many had it before, the lead is
    gone, and every other lead, every other activity and every user is
    still there.  The call throws only when the driver fails the
    statement or the id is no [int4], and then the database is what it
    was: neither the lead nor any activity has been removed.  No outcome
    leaves the lead without its activities or the activities without
    the lead. *)
Theorem deleteLead_cascades_atomically (id : Z) (w : World) :
  let w' := snd (storage.deleteLead (Some id) w) in
  (hd false (w_faults w) = false -> int4 id = true ->
   fst (storage.deleteLead (Some id) w) = Ok tt /\
   Forall (fun a => a_leadId a <> id) (activities (w_db w')) /\
   Forall (fun l => l_id l <> id) (leads (w_db w')) /\
   (forall a, a_leadId a <> id ->
              (In a (activities (w_db w')) <-> In a (activities (w_db w)))) /\
   (forall l, l_id l <> id -> (In l (leads (w_db w')) <-> In l (leads (w_db w)))) /\
   users (w_db w') = users (w_db w)) /\
  ((exists e, fst (storage.deleteLead (Some id) w) = Throw e)
   <-> hd false (w_faults w) = true \/ int4 id = false) /\
  match storage.deleteLead (Some id) w with
  | (Ok _, w') =>
      Forall (fun a => a_leadId a <> id) (activities (w_db w')) /\
      Forall (fun l => l_id l <> id) (leads (w_db w'))
  | (Throw _, w') => w_db w' = w_db w
  end /\
  (w_db w' = w_db w \/ w_db w' = deleteLead id (w_db w)).
Proof.
  intros w'. subst w'. split; [|split; [|split]].
  - intros Hf Hi. destruct (deleteLead_succeeds id w Hf Hi) as [Hok Hdb].
    rewrite Hdb. split; [exact Hok|].
    split; [apply deleteLead_no_activity|]. split; [apply deleteLead_no_lead|].
    apply deleteLead_keeps_others.
  - unfold storage.deleteLead, bind, called, statement. simpl.
    destruct (hd false (w_faults w)); simpl.
    + split; [auto | eauto].
    + destruct (int4 id); simpl.
      * split; [intros (e & H); discriminate H | intros [H|H]; discriminate H].
      * split; [auto | eauto].
  - unfold storage.deleteLead, bind, called, statement. simpl.
    destruct (hd false (w_faults w)); [reflexivity|].
    destruct (int4 id); simpl; [|reflexivity].
    split; [apply deleteLead_no_activity | apply deleteLead_no_lead].
  - unfold storage.deleteLead, bind, called, statement. simpl.
    destruct (hd false (w_faults w)); [left; reflexivity|].
    destruct (int4 id); simpl; [right | left]; reflexivity.
Qed.

(** Globex (11) has one activity; deleting it returns, and leaves Acme
    and no activity. *)
Lemma deleteLead_cascades_atomically_witness :
  map a_leadId (activities Sample.db) = [11] /\
  fst (storage.deleteLead (Some 11) Sample.world) = Ok tt /\
  Forall (fun a => a_leadId a <> 11)
    (activities (w_db (snd (storage.deleteLead (Some 11) Sample.world)))) /\
  Forall (fun l => l_id l <> 11)
    (leads (w_db (snd (storage.deleteLead (Some 11) Sample.world)))) /\
  In Sample.acme (leads (w_db (snd (storage.deleteLead (Some 11) Sample.world)))).
Proof.
  split; [reflexivity|].
  destruct (deleteLead_cascades_atomically 11 Sample.world) as (Hreturns & _).
  destruct (Hreturns eq_refl eq_refl) as (Hok & Hacts & Hleads & _ & Hothers & _).
  split; [exact Hok|]. split; [exact Hacts|]. split; [exact Hleads|].
  apply Hothers; [simpl; lia | left; reflexivity].
Defined.

(** The scenario of a manager deleting Globex (11), which has one
    activity: the answer is 204, the lead and its activity are gone, the
    open client is told, and the lead is then not found. *)
Example delete_lead_scenario :
  let '(r, w') := handle Sample.parseInt int4
                    (mkRequest (Some (Sample.session Sample.dave)) (DELETE_lead (Some 11)))
                    Sample.world in
  r = Ok (mkResponse 204 NoBody) /\
  leads (w_db w') = [Sample.acme] /\ activities (w_db w') = [] /\
  w_sent w' = [(0%nat, lead_deleted (Some 11))] /\
  fst (handle Sample.parseInt int4
         (mkRequest (Some (Sample.session Sample.dave)) (GET_lead (Some 11))) w')
  = Ok (mkResponse 404 (JsonError "Lead not found")).
Proof. vm_compute. repeat split. Qed.

(** ** The routes *)

Ltac run_handler :=
  unfold handle, get_users, get_leads, get_lead, post_leads, put_lead, delete_lead,
    post_activities, get_stats, get_analytics, requireAuth, requireRole,
    storage.getAllUsers, storage.getAllLeads, storage.getLeadById,
    storage.createLead, storage.updateLead, storage.deleteLead,
    storage.createActivity, storage.getStats, storage.getAnalytics,
    storage.leadsQuery,
    try_catch, bind, lift, json, ret, throw, clock, called, query, statement,
    broadcastToClients;
  simpl.

(** C10.  [PUT /api/leads/:id] validates the body before anything else:
    when the partial body fails the schema the answer is 400, whether or
    not the lead exists, and the handler has called no storage method and
    run no statement: the server's state is untouched. *)
Theorem put_lead_validates_first
  (parseInt : option jval -> option Z) (zod_int : Z -> bool)
  (id : option Z) (body : jobject) (user : SessionUser) (e : Err) (w : World) :
  insertLeadSchema_partial_parse zod_int body = Throw e ->
  handle parseInt zod_int (mkRequest (Some user) (PUT_lead id body)) w
  = (Ok (mkResponse 400 (JsonErrorMessage e)), w).
Proof.
  intros H. run_handler. rewrite H. reflexivity.
Qed.

Lemma put_lead_validates_first_witness :
  getLeadById Sample.db 999 = None /\
  handle Sample.parseInt int4
    (mkRequest (Some (Sample.session Sample.carol)) (PUT_lead (Some 999) Sample.bad_lead))
    Sample.world
  = (Ok (mkResponse 400 (JsonErrorMessage ZodError)), Sample.world).
Proof.
  split; [reflexivity|].
  apply (put_lead_validates_first Sample.parseInt int4 (Some 999) Sample.bad_lead
           (Sample.session Sample.carol) ZodError Sample.world).
  reflexivity.
Defined.

Lemma obj_get_set (k : string) (v : jval) (o : jobject) :
  obj_get k (obj_set k v o) = Some v.
Proof.
  induction o as [|[k' v'] o IH]; simpl.
  - now rewrite String.eqb_refl.
  - destruct (String.eqb_spec k' k); simpl.
    + now rewrite String.eqb_refl.
    + destruct (String.eqb_spec k' k); [contradiction | exact IH].
Qed.

Lemma insertLeadSchema_parse_ownerId (zod_int : Z -> bool) (o : jobject) (v : InsertLead) :
  insertLeadSchema_parse zod_int o = Ok v ->
  obj_get "ownerId" o = Some (JInt (il_ownerId v)).
Proof.
  unfold insertLeadSchema_parse, and_then.
  repeat match goal with
         | |- context [match ?x with _ => _ end] =>
             match x with
             | obj_get _ _ => fail 1
             | _ => destruct x eqn:?; try discriminate
             end
         end.
  intros [= <-]. simpl.
  unfold z_int in *.
  destruct (obj_get "ownerId" o) as [[| |z| |]|]; try discriminate.
  destruct (zod_int z); [|discriminate]. congruence.
Qed.

Lemma createLead_row (now : Z) (v : InsertLead) (db db' : Database) (l : Lead) :
  createLead now v db = (db', Some l) ->
  leads db' = (leads db ++ [l])%list /\ l_ownerId l = il_ownerId v /\
  users db' = users db /\ activities db' = activities db.
Proof.
  unfold createLead.
  destruct (_ && _); intros [= <- <-]; simpl; auto.
Qed.

Lemma createLead_refused (now : Z) (v : InsertLead) (db db' : Database) :
  createLead now v db = (db', None) ->
  leads db' = leads db /\ users db' = users db /\ activities db' = activities db.
Proof.
  unfold createLead.
  destruct (_ && _); intros [= <-]; simpl; auto.
Qed.

Lemma obj_set_twice (k : string) (v v' : jval) (o : jobject) :
  obj_set k v (obj_set k v' o) = obj_set k v o.
Proof.
  induction o as [|[k0 v0] o IH]; simpl.
  - now rewrite String.eqb_refl.
  - destruct (String.eqb_spec k0 k) as [E|E]; simpl.
    + now rewrite String.eqb_refl.
    + destruct (String.eqb_spec k0 k); [contradiction|]. now rewrite IH.
Qed.

Lemma post_leads_stores_or_400
  (parseInt : option jval -> option Z) (zod_int : Z -> bool)
  (body : jobject) (user : SessionUser) (w : World) :
  su_role user = role_sales_executive ->
  exists (resp : Response) (w' : World),
    handle parseInt zod_int (mkRequest (Some user) (POST_leads body)) w = (Ok resp, w') /\
    ((status resp = 400 /\ leads (w_db w') = leads (w_db w)) \/
     (exists l, status resp = 201 /\ resp = mkResponse 201 (JsonLead (Some l)) /\
                leads (w_db w') = (leads (w_db w) ++ [l])%list /\
                l_ownerId l = su_id user)).
Proof.
  intros Hrole. run_handler. rewrite Hrole. simpl.
  destruct (insertLeadSchema_parse zod_int (obj_set "ownerId" (JInt (su_id user)) body))
    as [v|e] eqn:Hparse.
  - apply insertLeadSchema_parse_ownerId in Hparse as Howner.
    rewrite obj_get_set in Howner. injection Howner as Howner.
    destruct (hd false (w_faults w)).
    + do 2 eexists. split; [reflexivity|]. left. simpl. auto.
    + destruct (createLead (w_now w) v (w_db w)) as [db' [l|]] eqn:Hc.
      * apply createLead_row in Hc. destruct Hc as (Hl & Ho & _).
        do 2 eexists. split; [reflexivity|]. right. exists l. simpl.
        repeat split; congruence.
      * apply createLead_refused in Hc. destruct Hc as (Hl & _).
        do 2 eexists. split; [reflexivity|]. left. simpl. auto.
  - do 2 eexists. split; [reflexivity|]. left. simpl. auto.
Qed.

(** A valid request is stored whenever the driver does not fail the
    insert and the caller is a user of the database. *)
Lemma post_leads_created
  (parseInt : option jval -> option Z) (zod_int : Z -> bool)
  (body : jobject) (user : SessionUser) (w : World) (v : InsertLead) :
  su_role user = role_sales_executive ->
  insertLeadSchema_parse zod_int (obj_set "ownerId" (JInt (su_id user)) body) = Ok v ->
  hd false (w_faults w) = false ->
  int4_nullable (nullable (il_value v)) = true ->
  int4 (su_id user) = true ->
  user_exists (w_db w) (su_id user) = true ->
  exists l w',
    handle parseInt zod_int (mkRequest (Some user) (POST_leads body)) w
    = (Ok (mkResponse 201 (JsonLead (Some l))), w') /\
    l_ownerId l = su_id user /\ In l (leads (w_db w')).
Proof.
  intros Hrole Hparse Hf Hv Hi Hu. run_handler. rewrite Hrole. simpl.
  rewrite Hparse.
  apply insertLeadSchema_parse_ownerId in Hparse as Howner.
  rewrite obj_get_set in Howner. injection Howner as Howner.
  rewrite Hf. unfold createLead. simpl. rewrite <- Howner, Hv, Hi, Hu. simpl.
  do 2 eexists. split; [reflexivity|]. simpl. split; [reflexivity|].
  apply in_or_app. right. left. reflexivity.
Qed.

(** C2.  [POST /api/leads] from a sales executive stores a lead whose
    [ownerId] is the caller's id, never the value the body supplied.
    The [ownerId] of the body is ignored: whatever it is set to, the
    request is handled as if it had not been.  A request whose body is
    valid once [ownerId] is the caller's id is stored when the driver
    does not fail the insert and the caller is a user of the database:
    the answer is 201 with the new lead, which is the one row added and
    is owned by the caller.  In every case the request either stores
    nothing and answers 400, or stores exactly one new lead, owned by
    the caller, and answers 201 with it. *)
Theorem post_leads_forces_owner
  (parseInt : option jval -> option Z) (zod_int : Z -> bool)
  (body : jobject) (user : SessionUser) (w : World) :
  su_role user = role_sales_executive ->
  (forall supplied,
     handle parseInt zod_int
       (mkRequest (Some user) (POST_leads (obj_set "ownerId" supplied body))) w
     = handle parseInt zod_int (mkRequest (Some user) (POST_leads body)) w) /\
  (forall v,
     insertLeadSchema_parse zod_int (obj_set "ownerId" (JInt (su_id user)) body) = Ok v ->
     hd false (w_faults w) = false ->
     int4_nullable (nullable (il_value v)) = true ->
     int4 (su_id user) = true ->
     user_exists (w_db w) (su_id user) = true ->
     exists l w',
       handle parseInt zod_int (mkRequest (Some user) (POST_leads body)) w
       = (Ok (mkResponse 201 (JsonLead (Some l))), w') /\
       leads (w_db w') = (leads (w_db w) ++ [l])%list /\
       l_ownerId l = su_id user) /\
  exists (resp : Response) (w' : World),
    handle parseInt zod_int (mkRequest (Some user) (POST_leads body)) w = (Ok resp, w') /\
    ((status resp = 400 /\ leads (w_db w') = leads (w_db w)) \/
     (exists l, status resp = 201 /\ resp = mkResponse 201 (JsonLead (Some l)) /\
                leads (w_db w') = (leads (w_db w) ++ [l])%list /\
                l_ownerId l = su_id user)).
Proof.
  intros Hrole.
  pose proof (post_leads_stores_or_400 parseInt zod_int body user w Hrole) as Hany.
  split; [|split; [|exact Hany]].
  - intros supplied. run_handler. rewrite Hrole. simpl.
    rewrite obj_set_twice. reflexivity.
  - intros v Hparse Hf Hv Hi Hu.
    destruct (post_leads_created parseInt zod_int body user w v Hrole Hparse Hf Hv Hi Hu)
      as (l & w' & Hh & Ho & _).
    exists l, w'. split; [exact Hh|]. split; [|exact Ho].
    destruct Hany as (resp & w'' & Hh' & [[Hs _]|(l' & _ & Hr & Hl & _)]);
      rewrite Hh in Hh'; injection Hh' as <- <-.
    + discriminate Hs.
    + injection Hr as <-. exact Hl.
Qed.

(** Alice (1) posts a lead whose body names bob (2) as its owner: the
    answer is 201 and the one row added is owned by alice. *)
Lemma post_leads_forces_owner_witness :
  obj_get "ownerId" Sample.new_lead = Some (JInt 2) /\
  exists l w',
    handle Sample.parseInt int4
      (mkRequest (Some (Sample.session Sample.alice)) (POST_leads Sample.new_lead))
      Sample.world
    = (Ok (mkResponse 201 (JsonLead (Some l))), w') /\
    leads (w_db w') = (leads Sample.db ++ [l])%list /\
    l_ownerId l = 1.
Proof.
  split; [reflexivity|].
  destruct (post_leads_forces_owner Sample.parseInt int4 Sample.new_lead
              (Sample.session Sample.alice) Sample.world eq_refl) as (_ & Hstored & _).
  eapply Hstored; reflexivity.
Defined.

(** The request of the witness does store a lead: the answer is 201 and
    the owner is alice (1), not the 2 of the body. *)
Example post_leads_alice_stored :
  let '(r, w') := handle Sample.parseInt int4
                    (mkRequest (Some (Sample.session Sample.alice))
                       (POST_leads Sample.new_lead)) Sample.world in
  option_map status (match r with Ok resp => Some resp | Throw _ => None end) = Some 201 /\
  map l_ownerId (leads (w_db w')) = [1; 2; 1].
Proof. vm_compute. split; reflexivity. Qed.

(** Every message [POST /api/leads] sends is a [lead_created] whose data
    has no [owner]: [sanitizeLead] is given the bare row that [createLead]
    returned. *)
Lemma post_leads_event_owner
  (parseInt : option jval -> option Z) (zod_int : Z -> bool)
  (body : jobject) (req : Request) (w : World) :
  exists sent,
    w_sent (snd (handle parseInt zod_int (mkRequest (req_user req) (POST_leads body)) w))
    = (w_sent w ++ sent)%list /\
    Forall (fun m => exists l, snd m = lead_created (mkSL l Undefined None)) sent.
Proof.
  run_handler. destruct (req_user req) as [user|]; simpl.
  2:{ exists []. rewrite app_nil_r. auto. }
  destruct (insertLeadSchema_parse zod_int _) as [v|e]; simpl.
  2:{ exists []. rewrite app_nil_r. auto. }
  destruct (hd false (w_faults w)); simpl.
  { exists []. rewrite app_nil_r. auto. }
  destruct (createLead (w_now w) v (w_db w)) as [db' [l|]]; simpl.
  2:{ exists []. rewrite app_nil_r. auto. }
  eexists. split; [reflexivity|].
  apply Forall_forall. intros m Hm. apply in_map_iff in Hm.
  destruct Hm as (c & <- & _). exists l. reflexivity.
Qed.

(** C8, on the code.  An admin creates a lead for bob (2).  The lead is
    stored and the answer is 201, and reading the lead back gives it with
    bob as its joined owner; but the [lead_created] message that went to
    the open client carries no owner at all. *)
Theorem lead_created_event_lacks_owner :
  exists (l : Lead) (w' : World),
    handle Sample.parseInt int4
      (mkRequest (Some (Sample.session Sample.carol)) (POST_leads Sample.new_lead))
      Sample.world
    = (Ok (mkResponse 201 (JsonLead (Some l))), w') /\
    option_map lo_owner (getLeadById (w_db w') (l_id l)) = Some (Val Sample.bob) /\
    w_sent w' = [(0%nat, lead_created (mkSL l Undefined None))].
Proof.
  do 2 eexists. split; [vm_compute; reflexivity|].
  split; vm_compute; reflexivity.
Qed.

(** ** Existence before ownership *)

Lemma getLeadById_None (db : Database) (id : Z) :
  getLeadById db id = None <-> selectLead db id = None.
Proof.
  unfold getLeadById. destruct (selectLead db id); split; congruence.
Qed.

(** With a driver that fails nothing, [storage.getLeadById] on an [int4]
    returns what [getLeadById] reads in the database, and only adds the
    call to the log. *)
Lemma storage_getLeadById_ok (id : Z) (w : World) :
  w_faults w = [] -> int4 id = true ->
  storage.getLeadById (Some id) w
  = (Ok (getLeadById (w_db w) id),
     mkWorld (w_db w) (w_now w) [] (w_calls w ++ [Call_getLeadById (Some id)])
       (w_clients w) (w_sent w)).
Proof.
  intros Hf Hi. destruct w as [db now faults calls clients sent].
  simpl in Hf. subst faults.
  unfold getLeadById. run_handler. rewrite Hi. simpl.
  destruct (selectLead db id); simpl; reflexivity.
Qed.

Lemma not_own_true (u : SessionUser) (lead : LeadObject) :
  not_own u lead = true <->
  su_role u = role_sales_executive /\ l_ownerId (lo_lead lead) <> su_id u.
Proof.
  unfold not_own. rewrite andb_true_iff, negb_true_iff, String.eqb_eq, Z.eqb_neq.
  reflexivity.
Qed.

Section ExistenceFirst.
Variable parseInt : option jval -> option Z.
Variable zod_int : Z -> bool.
Variables (user : SessionUser) (id : Z) (w : World).
Hypothesis no_fault : w_faults w = [].
Hypothesis id_int4 : int4 id = true.

Local Abbreviation serve route :=
  (handle parseInt zod_int (mkRequest (Some user) route) w).

Lemma put_lead_absent (body : jobject) (v : PartialLead) :
  insertLeadSchema_partial_parse zod_int body = Ok v ->
  getLeadById (w_db w) id = None ->
  answers (serve (PUT_lead (Some id) body)) 404.
Proof.
  intros Hp Ha. unfold handle, put_lead, requireAuth, try_catch, bind, lift.
  simpl. rewrite Hp, (storage_getLeadById_ok id w no_fault id_int4), Ha.
  do 2 eexists. reflexivity.
Qed.

Lemma put_lead_foreign (body : jobject) (v : PartialLead) (lead : LeadObject) :
  insertLeadSchema_partial_parse zod_int body = Ok v ->
  getLeadById (w_db w) id = Some lead ->
  su_role user = role_sales_executive ->
  l_ownerId (lo_lead lead) <> su_id user ->
  answers (serve (PUT_lead (Some id) body)) 403.
Proof.
  intros Hp Ha Hr Ho. unfold handle, put_lead, requireAuth, try_catch, bind, lift.
  simpl. rewrite Hp, (storage_getLeadById_ok id w no_fault id_int4), Ha.
  replace (not_own user lead) with true by (symmetry; apply not_own_true; auto).
  do 2 eexists. reflexivity.
Qed.

Lemma post_activities_absent (body : jobject) :
  parseInt (obj_get "leadId" body) = Some id ->
  getLeadById (w_db w) id = None ->
  answers (serve (POST_activities body)) 404.
Proof.
  intros Hp Ha.
  unfold handle, post_activities, requireAuth, try_catch, bind, lift.
  simpl. rewrite Hp, (storage_getLeadById_ok id w no_fault id_int4), Ha.
  do 2 eexists. reflexivity.
Qed.

Lemma post_activities_foreign (body : jobject) (lead : LeadObject) :
  parseInt (obj_get "leadId" body) = Some id ->
  getLeadById (w_db w) id = Some lead ->
  su_role user = role_sales_executive ->
  l_ownerId (lo_lead lead) <> su_id user ->
  answers (serve (POST_activities body)) 403.
Proof.
  intros Hp Ha Hr Ho.
  unfold handle, post_activities, requireAuth, try_catch, bind, lift.
  simpl. rewrite Hp, (storage_getLeadById_ok id w no_fault id_int4), Ha.
  replace (not_own user lead) with true by (symmetry; apply not_own_true; auto).
  do 2 eexists. reflexivity.
Qed.

Lemma delete_lead_absent :
  su_role user = "admin" \/ su_role user = "manager" ->
  getLeadById (w_db w) id = None ->
  answers (serve (DELETE_lead (Some id))) 404.
Proof.
  intros Hr Ha. unfold handle, delete_lead, requireRole, try_catch, bind.
  simpl. replace (_ || _) with true by (destruct Hr as [-> | ->]; reflexivity).
  rewrite (storage_getLeadById_ok id w no_fault id_int4), Ha.
  do 2 eexists. reflexivity.
Qed.
End ExistenceFirst.

(** The role gate of [DELETE /api/leads/:id] comes before the handler:
    a caller who is neither admin nor manager gets 403 whatever the id,
    and nothing is read. *)
Lemma delete_lead_role_gate
  (parseInt : option jval -> option Z) (zod_int : Z -> bool)
  (user : SessionUser) (id : option Z) (w : World) :
  su_role user <> "admin" -> su_role user <> "manager" ->
  handle parseInt zod_int (mkRequest (Some user) (DELETE_lead id)) w
  = (Ok (mkResponse 403 (JsonError "Forbidden")), w).
Proof.
  intros Ha Hm. unfold handle, delete_lead, requireRole. simpl.
  destruct (String.eqb_spec (su_role user) "admin"); [contradiction|].
  destruct (String.eqb_spec (su_role user) "manager"); [contradiction|].
  reflexivity.
Qed.

(** In [PUT /api/leads/:id] and [POST /api/activities] a lead that is not
    there never gives 403, whoever asks, whatever the body and whatever the
    driver does. *)
Lemma absent_lead_never_403
  (parseInt : option jval -> option Z) (zod_int : Z -> bool)
  (user : SessionUser) (id : Z) (body : jobject) (w : World) :
  getLeadById (w_db w) id = None ->
  ~ answers (handle parseInt zod_int (mkRequest (Some user) (PUT_lead (Some id) body)) w) 403 /\
  (parseInt (obj_get "leadId" body) = Some id ->
   ~ answers (handle parseInt zod_int (mkRequest (Some user) (POST_activities body)) w) 403).
Proof.
  intros Ha. apply getLeadById_None in Ha.
  unfold answers. split; [|intros Hp]; run_handler; try rewrite Hp; simpl;
    try destruct (insertLeadSchema_partial_parse zod_int body); simpl;
    destruct (hd false (w_faults w)); simpl;
    destruct (int4 id); simpl; try rewrite Ha; simpl;
    intros (b & w' & H); discriminate H.
Qed.

(** C5, as amended.  With a driver that fails nothing and an id that is
    an [int4]: [POST /api/activities] answers 404 when the lead is not
    there and 403 when it is there and belongs to someone else than the
    sales executive who asks; [PUT /api/leads/:id] does the same once the
    body has passed validation; [DELETE /api/leads/:id] answers 404 to an
    admin or a manager when the lead is not there, and 403 to every other
    role before it looks for the lead.  In the first two routes a lead
    that is not there never gives 403. *)
Theorem existence_before_ownership
  (parseInt : option jval -> option Z) (zod_int : Z -> bool)
  (user : SessionUser) (id : Z) (w : World) :
  w_faults w = [] -> int4 id = true ->
  let serve route := handle parseInt zod_int (mkRequest (Some user) route) w in
  let foreign lead :=
    su_role user = role_sales_executive /\ l_ownerId (lo_lead lead) <> su_id user in
  (forall body, parseInt (obj_get "leadId" body) = Some id ->
     (getLeadById (w_db w) id = None -> answers (serve (POST_activities body)) 404) /\
     (forall lead, getLeadById (w_db w) id = Some lead -> foreign lead ->
                   answers (serve (POST_activities body)) 403)) /\
  (forall body v, insertLeadSchema_partial_parse zod_int body = Ok v ->
     (getLeadById (w_db w) id = None -> answers (serve (PUT_lead (Some id) body)) 404) /\
     (forall lead, getLeadById (w_db w) id = Some lead -> foreign lead ->
                   answers (serve (PUT_lead (Some id) body)) 403)) /\
  (su_role user = "admin" \/ su_role user = "manager" ->
     getLeadById (w_db w) id = None -> answers (serve (DELETE_lead (Some id))) 404) /\
  (su_role user <> "admin" -> su_role user <> "manager" ->
     answers (serve (DELETE_lead (Some id))) 403) /\
  (getLeadById (w_db w) id = None ->
     forall body,
       ~ answers (serve (PUT_lead (Some id) body)) 403 /\
       (parseInt (obj_get "leadId" body) = Some id ->
        ~ answers (serve (POST_activities body)) 403)).
Proof.
  intros Hf Hi serve foreign. unfold serve, foreign. repeat split.
  - now apply post_activities_absent.
  - intros lead Hl [Hr Ho]. eapply post_activities_foreign; eauto.
  - eapply put_lead_absent; eauto.
  - intros lead Hl [Hr Ho]. eapply put_lead_foreign; eauto.
  - now apply delete_lead_absent.
  - intros Ha Hm. unfold answers.
    rewrite (delete_lead_role_gate parseInt zod_int user (Some id) w Ha Hm).
    do 2 eexists. reflexivity.
  - now apply absent_lead_never_403.
  - now apply absent_lead_never_403.
Qed.

Lemma existence_before_ownership_witness :
  answers (handle Sample.parseInt int4
             (mkRequest (Some (Sample.session Sample.alice))
                (POST_activities [("leadId", JInt 11); ("type", JStr "call");
                                  ("subject", JStr "Hello")]))
             Sample.world) 403 /\
  answers (handle Sample.parseInt int4
             (mkRequest (Some (Sample.session Sample.dave)) (DELETE_lead (Some 999)))
             Sample.world) 404.
Proof.
  pose proof (existence_before_ownership Sample.parseInt int4
                (Sample.session Sample.alice) 11 Sample.world eq_refl eq_refl)
    as (H1 & _).
  pose proof (existence_before_ownership Sample.parseInt int4
                (Sample.session Sample.dave) 999 Sample.world eq_refl eq_refl)
    as (_ & _ & H2 & _).
  split.
  - destruct (H1 [("leadId", JInt 11); ("type", JStr "call"); ("subject", JStr "Hello")])
      as [_ H]; [reflexivity|].
    eapply H; [reflexivity|]. split; [reflexivity | discriminate].
  - apply H2; [right; reflexivity | reflexivity].
Defined.

(** C5 as it is written fails.  No lead has the id 999, and yet a sales
    executive who asks to delete it gets 403, and an admin who sends a
    [PUT] for it with a body that does not validate gets 400; neither
    gets 404. *)
Lemma absent_lead_not_always_404 :
  getLeadById Sample.db 999 = None /\
  fst (handle Sample.parseInt int4
         (mkRequest (Some (Sample.session Sample.alice)) (DELETE_lead (Some 999)))
         Sample.world)
  = Ok (mkResponse 403 (JsonError "Forbidden")) /\
  fst (handle Sample.parseInt int4
         (mkRequest (Some (Sample.session Sample.carol))
            (PUT_lead (Some 999) Sample.bad_lead))
         Sample.world)
  = Ok (mkResponse 400 (JsonErrorMessage ZodError)).
Proof. repeat split. Qed.

(** ** The statistics roll-up *)

(** With a driver that fails nothing, [storage.getStats] returns what
    [getStats] computes on the database. *)
Lemma storage_getStats_ok (userId : Z) (role : string) (w : World) :
  w_faults w = [] -> int4 userId = true ->
  fst (storage.getStats (Some userId) (Some role) w)
  = Ok (getStats (w_now w) (w_db w) (Some userId) (Some role)).
Proof.
  intros Hf Hi. destruct w as [db now faults calls clients sent].
  simpl in Hf. subst faults. unfold getStats. run_handler.
  destruct (_ && _); [rewrite Hi|]; reflexivity.
Qed.

(** The per-day counts of [getStats] are taken over every activity of the
    table: they are the same for every caller. *)
Lemma recentActivity_unscoped (now : Z) (db : Database)
  (userId : option Z) (role : option string) :
  recentActivity (getStats now db userId role)
  = map (fun date =>
           (date, count (fun a => IsoDate_eqb (toISODate (a_createdAt a)) date)
                    (activities db)))
      (last7Days now).
Proof. reflexivity. Qed.

(** What does hold of [getStats] on an empty lead set: the four totals
    are 0 and there are seven per-day entries; the entries are 0 when the
    table of activities is empty, which the foreign key makes the case
    when the table of leads is. *)
Lemma getStats_no_leads (now : Z) (db : Database)
  (userId : option Z) (role : option string) :
  leadsQuery db userId role = [] ->
  let s := getStats now db userId role in
  totalLeads s = 0 /\ activeLeads s = 0 /\ convertedLeads s = 0 /\ totalValue s = 0 /\
  List.length (recentActivity s) = 7%nat /\
  (activities db = [] -> Forall (fun entry => snd entry = 0) (recentActivity s)).
Proof.
  intros H. unfold getStats. rewrite H. simpl. repeat split.
  intros Ha. rewrite Ha. unfold last7Days, Array_from. simpl. repeat constructor.
Qed.

Lemma no_leads_no_activities (db : Database) :
  activities_reference_leads db -> leads db = [] -> activities db = [].
Proof.
  unfold activities_reference_leads, lead_exists. intros Hfk Hl.
  destruct (activities db) as [|a rest]; [reflexivity|].
  specialize (Hfk a (or_introl eq_refl)). rewrite Hl in Hfk. discriminate.
Qed.

(** *** The calendar *)

Lemma year_of_era (doe : Z) :
  0 <= doe < 146097 ->
  let yoe := (doe - doe / 1460 + doe / 36524 - doe / 146096) / 365 in
  0 <= yoe < 400 /\ 0 <= doe - (365 * yoe + yoe / 4 - yoe / 100) <= 365.
Proof.
  intros H yoe. subst yoe. Z.div_mod_to_equations. lia.
Qed.

Lemma month_of_year (doy : Z) :
  0 <= doy <= 365 -> 0 <= (5 * doy + 2) / 153 <= 11.
Proof. intros H. Z.div_mod_to_equations. lia. Qed.

Lemma days_from_civil_day (y m d : Z) :
  days_from_civil y m d = days_from_civil y m 1 + d - 1.
Proof. unfold days_from_civil. lia. Qed.

(** [days_from_civil] undoes [civil_from_days]: a date names one day. *)
Lemma civil_from_days_inverse (z : Z) :
  days_from_civil (year (civil_from_days z)) (month (civil_from_days z))
    (day (civil_from_days z)) = z /\
  1 <= month (civil_from_days z) <= 12.
Proof.
  unfold civil_from_days. cbv zeta.
  set (era := (z + 719468) / 146097).
  set (doe := z + 719468 - era * 146097).
  assert (0 <= doe < 146097) as Hdoe.
  { unfold doe, era. pose proof (Z.div_mod (z + 719468) 146097 ltac:(lia)).
    pose proof (Z.mod_pos_bound (z + 719468) 146097 ltac:(lia)). lia. }
  destruct (year_of_era doe Hdoe) as [Hyoe Hdoy].
  set (yoe := (doe - doe / 1460 + doe / 36524 - doe / 146096) / 365) in *.
  set (doy := doe - (365 * yoe + yoe / 4 - yoe / 100)) in *.
  pose proof (month_of_year doy Hdoy) as Hmp.
  set (mp := (5 * doy + 2) / 153) in *.
  set (d := doy - (153 * mp + 2) / 5 + 1).
  set (m := if mp <? 10 then mp + 3 else mp - 9).
  assert (1 <= m <= 12) as Hm by (unfold m; destruct (Z.ltb_spec mp 10); lia).
  assert ((if 2 <? m then m - 3 else m + 9) = mp) as Hback.
  { unfold m. destruct (Z.ltb_spec mp 10);
      [destruct (Z.ltb_spec 2 (mp + 3)) | destruct (Z.ltb_spec 2 (mp - 9))]; lia. }
  simpl year. simpl month. simpl day. split; [|exact Hm].
  unfold days_from_civil. cbv zeta. rewrite Hback.
  replace (if m <=? 2
           then yoe + era * 400 + (if m <=? 2 then 1 else 0) - 1
           else yoe + era * 400 + (if m <=? 2 then 1 else 0))
    with (yoe + era * 400) by (destruct (m <=? 2); lia).
  replace ((yoe + era * 400) / 400) with era
    by (rewrite Z.div_add by lia; rewrite Z.div_small by lia; lia).
  replace (yoe + era * 400 - era * 400) with yoe by lia.
  unfold d, doy, doe. lia.
Qed.

Lemma civil_from_days_inj (a b : Z) : civil_from_days a = civil_from_days b -> a = b.
Proof.
  intros H. rewrite <- (proj1 (civil_from_days_inverse a)),
    <- (proj1 (civil_from_days_inverse b)), H. reflexivity.
Qed.

(** [date.setDate(date.getDate() - k)] goes back [k] whole days. *)
Lemma setDate_back (now k : Z) :
  toISODate (setDate now (getDate now - k)) = civil_from_days (now / msPerDay - k).
Proof.
  unfold setDate, getDate, getMonth, toISODate, MakeDay.
  destruct (civil_from_days_inverse (now / msPerDay)) as [Hinv Hm].
  set (c := civil_from_days (now / msPerDay)) in *.
  replace ((month c - 1) / 12) with 0 by (symmetry; apply Z.div_small; lia).
  replace ((month c - 1) mod 12 + 1) with (month c)
    by (rewrite Z.mod_small; lia).
  rewrite Z.add_0_r.
  rewrite days_from_civil_day in Hinv.
  replace (days_from_civil (year c) (month c) 1 + (day c - k) - 1)
    with (now / msPerDay - k) by lia.
  f_equal. unfold msPerDay.
  rewrite Z.div_add_l by lia.
  rewrite (Z.div_small (now mod 86400000)); [lia|].
  apply Z.mod_pos_bound. lia.
Qed.

(** The seven dates are the seven days up to today, oldest first. *)
Lemma last7Days_consecutive (now : Z) :
  last7Days now
  = map (fun k => civil_from_days (now / msPerDay - k)) [6; 5; 4; 3; 2; 1; 0].
Proof.
  unfold last7Days, Array_from. simpl map.
  rewrite !setDate_back. reflexivity.
Qed.

Lemma last7Days_NoDup (now : Z) : NoDup (last7Days now).
Proof.
  rewrite last7Days_consecutive.
  apply Finite.Injective_map_NoDup.
  - intros a b H. apply civil_from_days_inj in H. lia.
  - repeat constructor; simpl; intuition lia.
Qed.

Lemma IsoDate_eqb_eq (a b : IsoDate) : IsoDate_eqb a b = true <-> a = b.
Proof.
  unfold IsoDate_eqb. rewrite !andb_true_iff, !Z.eqb_eq.
  destruct a, b; simpl. split; [intros [[-> ->] ->]; reflexivity | intros [= -> -> ->]; auto].
Qed.

(** What does hold of the per-day counts: there is one entry for each of
    the seven days up to today, oldest first, and it counts the activities
    of the table created on that day, 0 when there is none. *)
Lemma recentActivity_by_day (now : Z) (db : Database)
  (userId : option Z) (role : option string) :
  recentActivity (getStats now db userId role)
  = map (fun k =>
           (civil_from_days (now / msPerDay - k),
            count (fun a => a_createdAt a / msPerDay =? now / msPerDay - k)
              (activities db)))
      [6; 5; 4; 3; 2; 1; 0].
Proof.
  rewrite recentActivity_unscoped, last7Days_consecutive, map_map.
  apply map_ext. intros k. f_equal. unfold count. do 2 f_equal.
  apply filter_ext. intros a. unfold toISODate.
  destruct (Z.eqb_spec (a_createdAt a / msPerDay) (now / msPerDay - k)) as [->|Hne].
  - now apply IsoDate_eqb_eq.
  - destruct (IsoDate_eqb _ _) eqn:E; [|reflexivity].
    apply IsoDate_eqb_eq, civil_from_days_inj in E. contradiction.
Qed.

(** C7, on the code.  Alice is a sales executive whose only lead is Acme
    (10), and no activity is logged on it.  The one activity of the
    database is on Globex, which is Bob's.  The statistics Alice gets
    count that one lead, and yet show one activity for today. *)
Theorem recentActivity_counts_foreign_activities :
  leadsQuery Sample.db (Some 1) (Some role_sales_executive) = [Sample.acme] /\
  filter (fun a => a_leadId a =? l_id Sample.acme) (activities Sample.db) = [] /\
  fst (handle Sample.parseInt int4
         (mkRequest (Some (Sample.session Sample.alice)) GET_stats) Sample.world)
  = Ok (mkResponse 200
          (JsonStats (getStats Sample.today Sample.db (Some 1)
                        (Some role_sales_executive)))) /\
  getStats Sample.today Sample.db (Some 1) (Some role_sales_executive)
  = mkStats 1 1 0 500 [("new", 1)] [("web", 1)]
      [(mkIsoDate 2026 10 27, 0); (mkIsoDate 2026 10 28, 0);
       (mkIsoDate 2026 10 29, 0); (mkIsoDate 2026 10 30, 0);
       (mkIsoDate 2026 10 31, 0); (mkIsoDate 2026 11 1, 0);
       (mkIsoDate 2026 11 2, 1)].
Proof. repeat split. Qed.

(** C9, on the code.  Eve is a sales executive who owns no lead: the lead
    set the statistics for Eve are computed from is empty.  The four
    totals are 0 and there are seven per-day entries, but the entry for
    today counts the activity logged on Bob's lead. *)
Theorem getStats_no_leads_nonzero_activity :
  leadsQuery Sample.db (Some 5) (Some role_sales_executive) = [] /\
  getStats Sample.today Sample.db (Some 5) (Some role_sales_executive)
  = mkStats 0 0 0 0 [] []
      [(mkIsoDate 2026 10 27, 0); (mkIsoDate 2026 10 28, 0);
       (mkIsoDate 2026 10 29, 0); (mkIsoDate 2026 10 30, 0);
       (mkIsoDate 2026 10 31, 0); (mkIsoDate 2026 11 1, 0);
       (mkIsoDate 2026 11 2, 1)].
Proof. split; reflexivity. Qed.

(** ** Responses do not depend on passwords *)

Lemma sim_ret {A : Type} (f : A -> A) (a : A) : sim f (ret (f a)) (ret a).
Proof. intros w. reflexivity. Qed.

Lemma sim_json (code : Z) (b : Body) : sim (fun r => r) (json code b) (json code b).
Proof. intros w. reflexivity. Qed.

Lemma sim_bind {A B : Type} (f : A -> A) (g : B -> B) (m' m : M A) (k' k : A -> M B) :
  sim f m' m -> (forall a, sim g (k' (f a)) (k a)) -> sim g (bind m' k') (bind m k).
Proof.
  intros Hm Hk w. unfold bind. rewrite Hm.
  destruct (m w) as [[a|e] w1]; simpl; [apply Hk | reflexivity].
Qed.

Lemma sim_try_catch {A : Type} (f : A -> A) (m' m : M A) (h' h : Err -> M A) :
  sim f m' m -> (forall e, sim f (h' e) (h e)) -> sim f (try_catch m' h') (try_catch m h).
Proof.
  intros Hm Hh w. unfold try_catch. rewrite Hm.
  destruct (m w) as [[a|e] w1]; simpl; [reflexivity | apply Hh].
Qed.

Lemma sim_lift {A : Type} (r : result A) : sim (fun a => a) (lift r) (lift r).
Proof. intros w. unfold lift. simpl. destruct r; reflexivity. Qed.

Lemma sim_called (c : StorageCall) : sim (fun u => u) (called c) (called c).
Proof. intros w. reflexivity. Qed.

Lemma sim_clock : sim (fun t => t) clock clock.
Proof. intros w. reflexivity. Qed.

Lemma sim_broadcastToClients (data : Event) :
  sim (fun u => u) (broadcastToClients data) (broadcastToClients data).
Proof. intros w. reflexivity. Qed.

Lemma sim_statement {A : Type} (f : A -> A) (run : Database -> Database * option A) :
  (forall db, run (scrub_db db) = (scrub_db (fst (run db)), option_map f (snd (run db)))) ->
  sim f (statement run) (statement run).
Proof.
  intros H w. unfold statement. simpl.
  destruct (hd false (w_faults w)); [reflexivity|].
  rewrite H. destruct (run (w_db w)) as [db' [a|]]; reflexivity.
Qed.

Lemma sim_query {A : Type} (f : A -> A) (q : Database -> option A) :
  (forall db, q (scrub_db db) = option_map f (q db)) -> sim f (query q) (query q).
Proof.
  intros H. apply sim_statement. intros db. simpl. now rewrite H.
Qed.

(** *** The queries read no password *)

Lemma filter_by_id_scrub (p : Z -> bool) (us : list User) :
  filter (fun u => p (u_id u)) (map scrub_user us)
  = map scrub_user (filter (fun u => p (u_id u)) us).
Proof.
  induction us as [|u us IH]; simpl; [reflexivity|].
  destruct (p (u_id u)); simpl; now rewrite IH.
Qed.

Lemma leftJoin_owner_scrub (us : list User) (l : Lead) :
  leftJoin_owner (map scrub_user us) l = map scrub_lead (leftJoin_owner us l).
Proof.
  unfold leftJoin_owner.
  rewrite (filter_by_id_scrub (fun i => l_ownerId l =? i)).
  destruct (filter _ us) as [|u ms]; simpl; [reflexivity|].
  rewrite !map_map. reflexivity.
Qed.

Lemma leftJoin_user_scrub (us : list User) (a : Activity) :
  leftJoin_user (map scrub_user us) a = map scrub_activity (leftJoin_user us a).
Proof.
  unfold leftJoin_user.
  rewrite (filter_by_id_scrub (fun i => a_userId a =? i)).
  destruct (filter _ us) as [|u ms]; simpl; [reflexivity|].
  rewrite !map_map. reflexivity.
Qed.

Lemma flat_map_through {A B : Type} (g : B -> B) (f' f : A -> list B) (l : list A) :
  (forall x, f' x = map g (f x)) -> flat_map f' l = map g (flat_map f l).
Proof.
  intros H. induction l as [|x l IH]; simpl; [reflexivity|].
  now rewrite H, IH, map_app.
Qed.

Lemma getAllUsers_scrub (db : Database) :
  getAllUsers (scrub_db db) = map scrub_user (getAllUsers db).
Proof. unfold getAllUsers. simpl. rewrite orderBy_desc_map. reflexivity. Qed.

Lemma getAllLeads_scrub (db : Database) (userId : option Z) (role : option string) :
  getAllLeads (scrub_db db) userId role = map scrub_lead (getAllLeads db userId role).
Proof.
  unfold getAllLeads. simpl.
  destruct (owner_scope userId role);
    rewrite (flat_map_through scrub_lead _ (leftJoin_owner (users db)))
      by apply leftJoin_owner_scrub;
    rewrite orderBy_desc_map; reflexivity.
Qed.

Lemma selectLead_scrub (db : Database) (id : Z) :
  selectLead (scrub_db db) id = option_map scrub_lead (selectLead db id).
Proof.
  unfold selectLead. simpl.
  rewrite (flat_map_through scrub_lead _ (leftJoin_owner (users db)))
    by apply leftJoin_owner_scrub.
  destruct (flat_map _ _); reflexivity.
Qed.

Lemma getActivitiesByLeadId_scrub (db : Database) (leadId : Z) :
  getActivitiesByLeadId (scrub_db db) leadId
  = map scrub_activity (getActivitiesByLeadId db leadId).
Proof.
  unfold getActivitiesByLeadId. simpl.
  rewrite (flat_map_through scrub_activity _ (leftJoin_user (users db)))
    by apply leftJoin_user_scrub.
  rewrite orderBy_desc_map. reflexivity.
Qed.

Lemma user_exists_scrub (db : Database) (id : Z) :
  user_exists (scrub_db db) id = user_exists db id.
Proof.
  unfold user_exists. simpl. induction (users db) as [|u us IH]; simpl; [reflexivity|].
  now rewrite IH.
Qed.

Lemma computeAnalytics_scrub (now : Z) (allLeads : list Lead) (allUsers : list User) :
  computeAnalytics now allLeads (map scrub_user allUsers)
  = computeAnalytics now allLeads allUsers.
Proof. unfold computeAnalytics. now rewrite map_map. Qed.

Lemma without_password_scrub (us : list User) :
  map without_password (map scrub_user us) = map without_password us.
Proof. now rewrite map_map. Qed.

Lemma sanitizeLead_scrub (lead : LeadObject) :
  sanitizeLead (scrub_lead lead) = sanitizeLead lead.
Proof.
  destruct lead as [l owner acts]. unfold sanitizeLead, scrub_lead. simpl. f_equal.
  - destruct owner; reflexivity.
  - destruct acts as [acts|]; simpl; [|reflexivity]. f_equal.
    rewrite map_map. apply map_ext. intros [a u]. simpl. f_equal.
    destruct u; reflexivity.
Qed.

Lemma not_own_scrub (u : SessionUser) (lead : LeadObject) :
  not_own u (scrub_lead lead) = not_own u lead.
Proof. reflexivity. Qed.

Lemma createLead_scrub (now : Z) (v : InsertLead) (db : Database) :
  createLead now v (scrub_db db)
  = (scrub_db (fst (createLead now v db)), snd (createLead now v db)).
Proof.
  unfold createLead. rewrite user_exists_scrub. simpl.
  destruct (_ && _); reflexivity.
Qed.

Lemma forallb_ext_all {A : Type} (f g : A -> bool) (l : list A) :
  (forall x, f x = g x) -> forallb f l = forallb g l.
Proof.
  intros H. induction l as [|x l IH]; simpl; [reflexivity | now rewrite H, IH].
Qed.

Lemma updateLead_scrub (now id : Z) (p : PartialLead) (db : Database) :
  updateLead now id p (scrub_db db)
  = option_map (fun r => (scrub_db (fst r), snd r)) (updateLead now id p db).
Proof.
  unfold updateLead. simpl.
  rewrite (forallb_ext_all (update_ok (scrub_db db)) (update_ok db)).
  - destruct (forallb _ _); reflexivity.
  - intros l. unfold update_ok. now rewrite user_exists_scrub.
Qed.

Lemma createActivity_scrub (now : Z) (v : InsertActivity) (db : Database) :
  createActivity now v (scrub_db db)
  = (scrub_db (fst (createActivity now v db)), snd (createActivity now v db)).
Proof.
  unfold createActivity. rewrite user_exists_scrub.
  change (lead_exists (scrub_db db)) with (lead_exists db). simpl.
  destruct (_ && _); reflexivity.
Qed.

(** *** The storage methods *)

Ltac sim_step :=
  lazymatch goal with
  | |- sim _ (bind _ _) (bind _ _) => eapply sim_bind; [|intros ?]
  | |- sim _ (try_catch _ _) (try_catch _ _) => apply sim_try_catch; [|intros ?]
  | |- sim _ (called _) _ => apply sim_called
  | |- sim _ clock _ => apply sim_clock
  | |- sim _ (lift _) _ => apply sim_lift
  | |- sim _ (broadcastToClients _) _ => apply sim_broadcastToClients
  | |- sim _ (json _ _) (json _ _) => apply sim_json
  end.

Lemma sim_getAllUsers : sim (map scrub_user) storage.getAllUsers storage.getAllUsers.
Proof.
  unfold storage.getAllUsers. repeat sim_step.
  apply sim_query. intros db. now rewrite getAllUsers_scrub.
Qed.

Lemma sim_getAllLeads (userId : option Z) (role : option string) :
  sim (map scrub_lead) (storage.getAllLeads userId role) (storage.getAllLeads userId role).
Proof.
  unfold storage.getAllLeads. repeat sim_step.
  apply sim_query. intros db. rewrite getAllLeads_scrub.
  destruct (owner_scope userId role) as [uid|]; [destruct (int4 uid)|]; reflexivity.
Qed.

Lemma sim_getLeadById (id : option Z) :
  sim (option_map scrub_lead) (storage.getLeadById id) (storage.getLeadById id).
Proof.
  unfold storage.getLeadById. sim_step; [sim_step|].
  apply (sim_bind (option_map scrub_lead)).
  - apply sim_query. intros db.
    destruct (int4_param id); simpl; [now rewrite selectLead_scrub | reflexivity].
  - intros [lead|]; simpl; [|intros w; reflexivity].
    sim_step.
    + apply (sim_query (map scrub_activity)). intros db.
      destruct (int4_param id); simpl;
        [now rewrite getActivitiesByLeadId_scrub | reflexivity].
    + intros w. reflexivity.
Qed.

Lemma sim_createLead (v : InsertLead) :
  sim (fun l => l) (storage.createLead v) (storage.createLead v).
Proof.
  unfold storage.createLead. repeat sim_step.
  apply sim_statement. intros db. rewrite createLead_scrub.
  destruct (snd _); reflexivity.
Qed.

Lemma sim_updateLead (id : option Z) (p : PartialLead) :
  sim (fun l => l) (storage.updateLead id p) (storage.updateLead id p).
Proof.
  unfold storage.updateLead. repeat sim_step.
  apply sim_statement. intros db.
  destruct (int4_param id) as [i|]; [|reflexivity].
  rewrite updateLead_scrub.
  destruct (updateLead _ i p db) as [[db' [l|]]|]; reflexivity.
Qed.

Lemma sim_deleteLead (id : option Z) :
  sim (fun u => u) (storage.deleteLead id) (storage.deleteLead id).
Proof.
  unfold storage.deleteLead. repeat sim_step.
  apply sim_statement. intros db. destruct (int4_param id); reflexivity.
Qed.

Lemma sim_createActivity (v : InsertActivity) :
  sim (fun a => a) (storage.createActivity v) (storage.createActivity v).
Proof.
  unfold storage.createActivity. repeat sim_step.
  apply sim_statement. intros db. rewrite createActivity_scrub.
  destruct (snd _); reflexivity.
Qed.

Lemma sim_leadsQuery (userId : option Z) (role : option string) :
  sim (fun ls => ls) (storage.leadsQuery userId role) (storage.leadsQuery userId role).
Proof.
  unfold storage.leadsQuery. apply sim_query. intros db.
  change (leadsQuery (scrub_db db) userId role) with (leadsQuery db userId role).
  destruct (owner_scope userId role) as [uid|]; [destruct (int4 uid)|]; reflexivity.
Qed.

Lemma sim_getStats (userId : option Z) (role : option string) :
  sim (fun s => s) (storage.getStats userId role) (storage.getStats userId role).
Proof.
  unfold storage.getStats. sim_step; [sim_step|].
  sim_step; [apply sim_leadsQuery|]. sim_step; [sim_step|].
  sim_step; [|intros w; reflexivity].
  apply (sim_query (fun acts => acts)). intros db. reflexivity.
Qed.

Lemma sim_getAnalytics (userId : option Z) (role : option string) :
  sim (fun s => s) (storage.getAnalytics userId role) (storage.getAnalytics userId role).
Proof.
  unfold storage.getAnalytics. sim_step; [sim_step|].
  sim_step; [apply sim_leadsQuery|]. sim_step; [sim_step|].
  sim_step.
  - apply (sim_query (map scrub_user)). intros db. reflexivity.
  - rewrite computeAnalytics_scrub. intros w. reflexivity.
Qed.

(** *** The handlers *)

Section HandlersReadNoPassword.
Variable parseInt : option jval -> option Z.
Variable zod_int : Z -> bool.

Lemma sim_requireAuth (user : option SessionUser) (next : SessionUser -> M Response) :
  (forall u, sim (fun r => r) (next u) (next u)) ->
  sim (fun r => r) (requireAuth user next) (requireAuth user next).
Proof.
  intros H. destruct user as [u|]; simpl; [apply H | apply sim_json].
Qed.

Lemma sim_requireRole (roles : list string) (user : option SessionUser)
  (next : SessionUser -> M Response) :
  (forall u, sim (fun r => r) (next u) (next u)) ->
  sim (fun r => r) (requireRole roles user next) (requireRole roles user next).
Proof.
  intros H. destruct user as [u|]; simpl; [|apply sim_json].
  destruct (existsb _ roles); [apply H | apply sim_json].
Qed.

Lemma sim_get_users (req : Request) : sim (fun r => r) (get_users req) (get_users req).
Proof.
  unfold get_users. apply sim_requireRole. intros _. sim_step; [|apply sim_json].
  apply (sim_bind (map scrub_user)); [apply sim_getAllUsers|].
  intros users. rewrite without_password_scrub. apply sim_json.
Qed.

Lemma sim_get_leads (req : Request) : sim (fun r => r) (get_leads req) (get_leads req).
Proof.
  unfold get_leads. apply sim_requireAuth. intros user. sim_step; [|apply sim_json].
  apply (sim_bind (map scrub_lead)); [apply sim_getAllLeads|].
  intros leads. rewrite map_map.
  rewrite (map_ext _ sanitizeLead sanitizeLead_scrub). apply sim_json.
Qed.

Lemma sim_get_lead (id : option Z) (req : Request) :
  sim (fun r => r) (get_lead id req) (get_lead id req).
Proof.
  unfold get_lead. apply sim_requireAuth. intros user. sim_step; [|apply sim_json].
  apply (sim_bind (option_map scrub_lead)); [apply sim_getLeadById|].
  intros [lead|]; simpl; [|apply sim_json].
  rewrite not_own_scrub, sanitizeLead_scrub.
  destruct (not_own user lead); apply sim_json.
Qed.

Lemma sim_post_leads (body : jobject) (req : Request) :
  sim (fun r => r) (post_leads zod_int body req) (post_leads zod_int body req).
Proof.
  unfold post_leads. apply sim_requireAuth. intros user. sim_step; [|apply sim_json].
  sim_step; [sim_step|]. sim_step; [apply sim_createLead|].
  sim_step; [sim_step | apply sim_json].
Qed.

Lemma sim_put_lead (id : option Z) (body : jobject) (req : Request) :
  sim (fun r => r) (put_lead zod_int id body req) (put_lead zod_int id body req).
Proof.
  unfold put_lead. apply sim_requireAuth. intros user. sim_step; [|apply sim_json].
  sim_step; [sim_step|].
  apply (sim_bind (option_map scrub_lead)); [apply sim_getLeadById|].
  intros [existingLead|]; simpl; [|apply sim_json].
  rewrite not_own_scrub. destruct (not_own user existingLead); [apply sim_json|].
  sim_step; [apply sim_updateLead|].
  apply (sim_bind (option_map scrub_lead)); [apply sim_getLeadById|].
  intros [updatedLead|]; simpl; [rewrite sanitizeLead_scrub|];
    (sim_step; [sim_step | apply sim_json]).
Qed.

Lemma sim_delete_lead (id : option Z) (req : Request) :
  sim (fun r => r) (delete_lead id req) (delete_lead id req).
Proof.
  unfold delete_lead. apply sim_requireRole. intros _. sim_step; [|apply sim_json].
  apply (sim_bind (option_map scrub_lead)); [apply sim_getLeadById|].
  intros [existingLead|]; simpl; [|apply sim_json].
  sim_step; [apply sim_deleteLead|]. sim_step; [sim_step | apply sim_json].
Qed.

Lemma sim_post_activities (body : jobject) (req : Request) :
  sim (fun r => r) (post_activities parseInt zod_int body req)
    (post_activities parseInt zod_int body req).
Proof.
  unfold post_activities. apply sim_requireAuth. intros user.
  sim_step; [|apply sim_json].
  apply (sim_bind (option_map scrub_lead)); [apply sim_getLeadById|].
  intros [lead|]; simpl; [|apply sim_json].
  rewrite not_own_scrub. destruct (not_own user lead); [apply sim_json|].
  sim_step; [sim_step|]. sim_step; [apply sim_createActivity|].
  sim_step; [sim_step | apply sim_json].
Qed.

Lemma sim_get_stats (req : Request) : sim (fun r => r) (get_stats req) (get_stats req).
Proof.
  unfold get_stats. apply sim_requireAuth. intros user. sim_step; [|apply sim_json].
  sim_step; [apply sim_getStats | apply sim_json].
Qed.

Lemma sim_get_analytics (req : Request) :
  sim (fun r => r) (get_analytics req) (get_analytics req).
Proof.
  unfold get_analytics. apply sim_requireRole. intros user.
  sim_step; [|apply sim_json].
  sim_step; [apply sim_getAnalytics | apply sim_json].
Qed.

(** Blanking every password changes no answer and no message sent, and
    the handler leaves the two databases equal up to passwords. *)
Lemma handle_scrubbed (req : Request) (w : World) :
  handle parseInt zod_int req (scrub_world w)
  = (fst (handle parseInt zod_int req w),
     scrub_world (snd (handle parseInt zod_int req w))).
Proof.
  assert (sim (fun r => r) (handle parseInt zod_int req) (handle parseInt zod_int req))
    as H.
  { unfold handle. destruct (req_route req).
    - apply sim_get_users.
    - apply sim_get_leads.
    - apply sim_get_lead.
    - apply sim_post_leads.
    - apply sim_put_lead.
    - apply sim_delete_lead.
    - apply sim_post_activities.
    - apply sim_get_stats.
    - apply sim_get_analytics. }
  rewrite H. destruct (fst (handle parseInt zod_int req w)); reflexivity.
Qed.
End HandlersReadNoPassword.

(** C4.  Take any request and two states of the server that differ only
    in the passwords of the users.  Every route answers both with the same
    status and the same body, sends the same messages to the clients,
    and leaves states that again differ only in passwords: no response,
    the owners and authors nested in leads and activities included,
    depends on a password. *)
Theorem responses_independent_of_passwords
  (parseInt : option jval -> option Z) (zod_int : Z -> bool)
  (req : Request) (w1 w2 : World) :
  scrub_world w1 = scrub_world w2 ->
  fst (handle parseInt zod_int req w1) = fst (handle parseInt zod_int req w2) /\
  w_sent (snd (handle parseInt zod_int req w1))
  = w_sent (snd (handle parseInt zod_int req w2)) /\
  scrub_world (snd (handle parseInt zod_int req w1))
  = scrub_world (snd (handle parseInt zod_int req w2)).
Proof.
  intros H.
  pose proof (handle_scrubbed parseInt zod_int req w1) as H1.
  pose proof (handle_scrubbed parseInt zod_int req w2) as H2.
  rewrite H in H1. rewrite H1 in H2.
  pose proof (f_equal fst H2) as Hr. pose proof (f_equal snd H2) as Hw.
  simpl in Hr, Hw.
  repeat split; [exact Hr | | exact Hw].
  change (w_sent (scrub_world (snd (handle parseInt zod_int req w1)))
          = w_sent (scrub_world (snd (handle parseInt zod_int req w2)))).
  now rewrite Hw.
Qed.

Lemma responses_independent_of_passwords_witness :
  Sample.world <> Sample.world' /\
  fst (handle Sample.parseInt int4
         (mkRequest (Some (Sample.session Sample.carol)) (GET_lead (Some 11)))
         Sample.world)
  = fst (handle Sample.parseInt int4
           (mkRequest (Some (Sample.session Sample.carol)) (GET_lead (Some 11)))
           Sample.world').
Proof.
  split; [discriminate|].
  apply (responses_independent_of_passwords Sample.parseInt int4
           (mkRequest (Some (Sample.session Sample.carol)) (GET_lead (Some 11)))
           Sample.world Sample.world').
  reflexivity.
Defined.


(* ================================================================== *)
(** * Further properties of the routes and the store *)

(** ** What every handler keeps *)

Section Keeps.
Variable R : World -> World -> Prop.
Hypothesis R_refl : forall w, R w w.
Hypothesis R_trans : forall a b c, R a b -> R b c -> R a c.

Lemma keeps_ret {A : Type} (a : A) : keeps R (ret a).
Proof. intros w. apply R_refl. Qed.

Lemma keeps_json (code : Z) (b : Body) : keeps R (json code b).
Proof. intros w. apply R_refl. Qed.

Lemma keeps_lift {A : Type} (r : result A) : keeps R (lift r).
Proof. intros w. apply R_refl. Qed.

Lemma keeps_clock : keeps R clock.
Proof. intros w. apply R_refl. Qed.

Lemma keeps_bind {A B : Type} (m : M A) (k : A -> M B) :
  keeps R m -> (forall a, keeps R (k a)) -> keeps R (bind m k).
Proof.
  intros Hm Hk w. unfold bind. specialize (Hm w).
  destruct (m w) as [[a|e] w1]; simpl in *; [|exact Hm].
  eapply R_trans; [exact Hm | apply Hk].
Qed.

Lemma keeps_try_catch {A : Type} (m : M A) (h : Err -> M A) :
  keeps R m -> (forall e, keeps R (h e)) -> keeps R (try_catch m h).
Proof.
  intros Hm Hh w. unfold try_catch. specialize (Hm w).
  destruct (m w) as [[a|e] w1]; simpl in *; [exact Hm|].
  eapply R_trans; [exact Hm | apply Hh].
Qed.

Lemma keeps_requireAuth (user : option SessionUser) (next : SessionUser -> M Response) :
  (forall u, keeps R (next u)) -> keeps R (requireAuth user next).
Proof. intros H. destruct user; simpl; [apply H | apply keeps_json]. Qed.

Lemma keeps_requireRole (roles : list string) (user : option SessionUser)
  (next : SessionUser -> M Response) :
  (forall u, keeps R (next u)) -> keeps R (requireRole roles user next).
Proof.
  intros H. destruct user; simpl; [|apply keeps_json].
  destruct (existsb _ roles); [apply H | apply keeps_json].
Qed.
End Keeps.

Ltac keeps_step refl trans :=
  lazymatch goal with
  | |- keeps _ (bind _ _) => apply (keeps_bind _ trans); [|intros ?]
  | |- keeps _ (try_catch _ _) => apply (keeps_try_catch _ trans); [|intros ?]
  | |- keeps _ (requireAuth _ _) => apply (keeps_requireAuth _ refl); intros ?
  | |- keeps _ (requireRole _ _ _) => apply (keeps_requireRole _ refl); intros ?
  | |- keeps _ (json _ _) => apply (keeps_json _ refl)
  | |- keeps _ (ret _) => apply (keeps_ret _ refl)
  | |- keeps _ (lift _) => apply (keeps_lift _ refl)
  | |- keeps _ clock => apply (keeps_clock _ refl)
  | |- keeps _ (match ?x with _ => _ end) => destruct x
  | |- keeps _ (if ?x then _ else _) => destruct x
  end.

(** *** Reading changes nothing *)

Lemma untouched_refl (w : World) : untouched w w.
Proof. repeat split. Qed.

Lemma untouched_trans (a b c : World) : untouched a b -> untouched b c -> untouched a c.
Proof. unfold untouched. intros (H1 & H2 & H3) (H4 & H5 & H6). repeat split; congruence. Qed.

Lemma untouched_called (c : StorageCall) : keeps untouched (called c).
Proof. intros w. repeat split. Qed.

Lemma untouched_query {A : Type} (q : Database -> option A) : keeps untouched (query q).
Proof.
  intros w. unfold query, statement.
  destruct (hd false (w_faults w)); [repeat split|].
  simpl. destruct (q (w_db w)); repeat split.
Qed.

Ltac untouched_step :=
  first [ apply untouched_called | apply untouched_query
        | keeps_step untouched_refl untouched_trans ].

(** X1.  The five [GET] routes only read: whoever asks, whatever the
    driver does and whatever they answer, the database, sequences
    included, is what it was and no client has been sent anything. *)
Theorem get_routes_only_read
  (parseInt : option jval -> option Z) (zod_int : Z -> bool)
  (req : Request) (w : World) :
  reads (req_route req) = true ->
  untouched w (snd (handle parseInt zod_int req w)).
Proof.
  intros Hr. unfold handle.
  destruct (req_route req); try discriminate Hr;
    revert w;
    match goal with
    | |- forall w, untouched w (snd (?m w)) => change (keeps untouched m)
    end;
    unfold get_users, get_leads, get_lead, get_stats, get_analytics,
      storage.getAllUsers, storage.getAllLeads, storage.getLeadById,
      storage.getStats, storage.getAnalytics, storage.leadsQuery;
    repeat untouched_step.
Qed.

Lemma get_routes_only_read_witness :
  untouched Sample.world
    (snd (handle Sample.parseInt int4
            (mkRequest (Some (Sample.session Sample.carol)) (GET_lead (Some 11)))
            Sample.world)).
Proof.
  apply (get_routes_only_read Sample.parseInt int4
           (mkRequest (Some (Sample.session Sample.carol)) (GET_lead (Some 11)))
           Sample.world).
  reflexivity.
Defined.

(** *** The constraints of the schema are kept *)

Lemma NoDup_snoc {A : Type} (l : list A) (x : A) :
  NoDup l -> ~ In x l -> NoDup (l ++ [x])%list.
Proof.
  induction l as [|y l IH]; simpl; intros Hnd Hx.
  - constructor; [intros [] | constructor].
  - inversion Hnd as [|? ? Hy Hl]; subst. constructor.
    + rewrite in_app_iff. simpl. intros [H|[H|[]]]; [contradiction | subst; tauto].
    + apply IH; tauto.
Qed.

Lemma key_unique_filter {Row Key : Type} (key : Row -> Key) (keep : Row -> bool)
  (rows : list Row) (Hkey : NoDup (map key rows)) :
  NoDup (map key (filter keep rows)).
Proof.
  induction rows as [|row rows IH]; simpl; [constructor|].
  simpl in Hkey. inversion Hkey as [|? ? Hrow Hrows]; subst.
  destruct (keep row); simpl; [|now apply IH].
  constructor; [|now apply IH].
  intros Hin. apply Hrow. apply in_map_iff in Hin. destruct Hin as (y & Hy & Hin).
  apply filter_In in Hin. apply in_map_iff. exists y. tauto.
Qed.

Lemma user_exists_spec (db : Database) (id : Z) :
  user_exists db id = true <-> exists u, In u (users db) /\ u_id u = id.
Proof.
  unfold user_exists. rewrite existsb_exists.
  split; intros (u & Hu & H); exists u; (split; [exact Hu|]); now apply Z.eqb_eq.
Qed.

Lemma lead_exists_spec (db : Database) (id : Z) :
  lead_exists db id = true <-> exists l, In l (leads db) /\ l_id l = id.
Proof.
  unfold lead_exists. rewrite existsb_exists.
  split; intros (l & Hl & H); exists l; (split; [exact Hl|]); now apply Z.eqb_eq.
Qed.

Lemma serial_fresh {A : Type} (key : A -> Z) (next : Z) (rows : list A) :
  Forall (fun r => key r < next) rows -> ~ In next (map key rows).
Proof.
  intros H Hin. apply in_map_iff in Hin. destruct Hin as (r & Hr & Hin).
  rewrite Forall_forall in H. specialize (H r Hin). lia.
Qed.

Lemma createLead_constraints (now : Z) (v : InsertLead) (db : Database) :
  constraints_hold db -> constraints_hold (fst (createLead now v db)).
Proof.
  intros [Hu Hun Hue Hl Hls Ha Has Hlo Hal Hau]. unfold createLead.
  destruct (_ && _) eqn:Hok; simpl.
  - apply andb_true_iff in Hok. destruct Hok as [_ Hex]. simpl in Hex.
    constructor; simpl; try assumption.
    + rewrite map_app. simpl. apply NoDup_snoc; [exact Hl|].
      apply (serial_fresh l_id). exact Hls.
    + apply Forall_app. split.
      * eapply Forall_impl; [|exact Hls]. simpl. intros; lia.
      * constructor; [simpl; lia | constructor].
    + apply Forall_app. split; [exact Hlo|].
      constructor; [exact Hex | constructor].
    + eapply Forall_impl; [|exact Hal]. intros a H. unfold lead_exists in *. simpl.
      rewrite existsb_app, H. reflexivity.
  - constructor; simpl; try assumption.
    eapply Forall_impl; [|exact Hls]. simpl. intros; lia.
Qed.

Lemma updated_ids (now id : Z) (p : PartialLead) (ls : list Lead) :
  map l_id (map (fun l => if l_id l =? id then apply_update now p l else l) ls)
  = map l_id ls.
Proof.
  rewrite map_map. apply map_ext. intros l. destruct (l_id l =? id); reflexivity.
Qed.

Lemma existsb_by_key {A : Type} (key : A -> Z) (x : Z) (l : list A) :
  existsb (fun r => key r =? x) l = existsb (fun k => k =? x) (map key l).
Proof. induction l as [|r l IH]; simpl; [reflexivity | now rewrite IH]. Qed.

Lemma Forall_by_key {A : Type} (key : A -> Z) (P : Z -> Prop) (l : list A) :
  Forall (fun r => P (key r)) l <-> Forall P (map key l).
Proof. rewrite Forall_map. reflexivity. Qed.

Lemma updateLead_constraints (now id : Z) (p : PartialLead) (db db' : Database)
  (r : option Lead) :
  updateLead now id p db = Some (db', r) ->
  constraints_hold db -> constraints_hold db'.
Proof.
  unfold updateLead. destruct (forallb _ _) eqn:Hok; [|discriminate].
  intros [= <- _] [Hu Hun Hue Hl Hls Ha Has Hlo Hal Hau].
  rewrite forallb_forall in Hok.
  constructor; simpl; try assumption.
  - now rewrite updated_ids.
  - apply (Forall_by_key l_id (fun k => k < leads_id_seq db)).
    rewrite updated_ids. apply Forall_by_key. exact Hls.
  - apply Forall_forall. intros l Hin.
    destruct (l_id l =? id) eqn:E.
    + assert (update_ok db l = true) as H
        by (apply Hok, filter_In; split; [exact Hin | exact E]).
      unfold update_ok in H. apply andb_true_iff in H. apply H.
    + apply in_map_iff in Hin. destruct Hin as (l0 & Hl0 & Hin0).
      rewrite Forall_forall in Hlo.
      destruct (l_id l0 =? id) eqn:E0.
      * subst l. simpl in E. congruence.
      * subst l. apply Hlo, Hin0.
  - eapply Forall_impl; [|exact Hal]. intros a H. unfold lead_exists in *. simpl.
    rewrite existsb_by_key, updated_ids, <- existsb_by_key. exact H.
Qed.

Lemma deleteLead_constraints (id : Z) (db : Database) :
  constraints_hold db -> constraints_hold (deleteLead id db).
Proof.
  intros [Hu Hun Hue Hl Hls Ha Has Hlo Hal Hau].
  rewrite Forall_forall in Hls, Has, Hlo, Hal, Hau.
  constructor; simpl; try assumption.
  - now apply key_unique_filter.
  - apply Forall_forall. intros l H. apply filter_In in H. now apply Hls.
  - now apply key_unique_filter.
  - apply Forall_forall. intros a H. apply filter_In in H. now apply Has.
  - apply Forall_forall. intros l H. apply filter_In in H. now apply Hlo.
  - apply Forall_forall. intros a H. apply filter_In in H. destruct H as [Hin Hne].
    apply negb_true_iff, Z.eqb_neq in Hne.
    apply lead_exists_spec. simpl.
    destruct (proj1 (lead_exists_spec db (a_leadId a)) (Hal a Hin)) as (l & Hl' & El).
    exists l. split; [|exact El]. apply filter_In. split; [exact Hl'|].
    apply negb_true_iff, Z.eqb_neq. congruence.
  - apply Forall_forall. intros a H. apply filter_In in H. now apply Hau.
Qed.

Lemma createActivity_constraints (now : Z) (v : InsertActivity) (db : Database) :
  constraints_hold db -> constraints_hold (fst (createActivity now v db)).
Proof.
  intros [Hu Hun Hue Hl Hls Ha Has Hlo Hal Hau]. unfold createActivity.
  destruct (_ && _) eqn:Hok; simpl.
  - rewrite !andb_true_iff in Hok. destruct Hok as [[_ Hle] Hue']. simpl in Hle, Hue'.
    constructor; simpl; try assumption.
    + rewrite map_app. simpl. apply NoDup_snoc; [exact Ha|].
      apply (serial_fresh a_id). exact Has.
    + apply Forall_app. split.
      * eapply Forall_impl; [|exact Has]. simpl. intros; lia.
      * constructor; [simpl; lia | constructor].
    + apply Forall_app. split; [exact Hal|].
      constructor; [exact Hle | constructor].
    + apply Forall_app. split; [exact Hau|].
      constructor; [exact Hue' | constructor].
  - constructor; simpl; try assumption.
    eapply Forall_impl; [|exact Has]. simpl. intros; lia.
Qed.

Lemma constraints_kept_refl (w : World) : constraints_kept w w.
Proof. intros H. exact H. Qed.

Lemma constraints_kept_trans (a b c : World) :
  constraints_kept a b -> constraints_kept b c -> constraints_kept a c.
Proof. unfold constraints_kept. auto. Qed.

Lemma constraints_kept_statement {A : Type} (run : Database -> Database * option A) :
  (forall db, constraints_hold db -> constraints_hold (fst (run db))) ->
  keeps constraints_kept (statement run).
Proof.
  intros H w Hc. unfold statement.
  destruct (hd false (w_faults w)); simpl; [exact Hc|].
  specialize (H (w_db w) Hc). destruct (run (w_db w)) as [db' [a|]]; exact H.
Qed.

Lemma constraints_kept_same_db {A : Type} (m : M A) :
  (forall w, w_db (snd (m w)) = w_db w) -> keeps constraints_kept m.
Proof. intros H w Hc. now rewrite H. Qed.

Ltac constraints_step :=
  first
    [ apply constraints_kept_same_db; intros ?; reflexivity
    | apply constraints_kept_statement; intros ? ?;
      first [ assumption
            | apply createLead_constraints; assumption
            | apply createActivity_constraints; assumption ]
    | keeps_step constraints_kept_refl constraints_kept_trans ].

Lemma constraints_kept_getLeadById (id : option Z) :
  keeps constraints_kept (storage.getLeadById id).
Proof.
  unfold storage.getLeadById, query. repeat constraints_step.
Qed.

Lemma constraints_kept_updateLead (id : option Z) (p : PartialLead) :
  keeps constraints_kept (storage.updateLead id p).
Proof.
  unfold storage.updateLead. constraints_step; [constraints_step|].
  constraints_step; [constraints_step|].
  apply constraints_kept_statement. intros db Hc.
  destruct (int4_param id) as [i|]; [|exact Hc].
  destruct (updateLead a0 i p db) as [[db' r]|] eqn:E; [|exact Hc].
  simpl. eapply updateLead_constraints; eauto.
Qed.

Lemma constraints_kept_deleteLead (id : option Z) :
  keeps constraints_kept (storage.deleteLead id).
Proof.
  unfold storage.deleteLead. constraints_step; [constraints_step|].
  apply constraints_kept_statement. intros db Hc.
  destruct (int4_param id) as [i|]; [|exact Hc].
  simpl. now apply deleteLead_constraints.
Qed.

(** X2.  Whatever the request, the caller and the driver do, a database
    that satisfies the constraints declared in [schema.ts] (primary keys,
    ids below their sequences, unique user names and emails, the three
    references) still satisfies them when the handler is done. *)
Theorem requests_keep_constraints
  (parseInt : option jval -> option Z) (zod_int : Z -> bool)
  (req : Request) (w : World) :
  constraints_hold (w_db w) ->
  constraints_hold (w_db (snd (handle parseInt zod_int req w))).
Proof.
  revert w.
  change (keeps constraints_kept (handle parseInt zod_int req)).
  unfold handle.
  destruct (req_route req);
    unfold get_users, get_leads, get_lead, post_leads, put_lead, delete_lead,
      post_activities, get_stats, get_analytics,
      storage.getAllUsers, storage.getAllLeads, storage.createLead,
      storage.createActivity, storage.getStats, storage.getAnalytics,
      storage.leadsQuery, query;
    repeat first
      [ apply constraints_kept_getLeadById
      | apply constraints_kept_updateLead
      | apply constraints_kept_deleteLead
      | constraints_step ].
Qed.

Lemma Sample_constraints : constraints_hold Sample.db.
Proof.
  constructor; simpl;
    repeat (constructor; simpl);
    try reflexivity; try lia;
    intros H; repeat (destruct H as [H|H]; try discriminate H); exact H.
Qed.

Lemma requests_keep_constraints_witness :
  constraints_hold
    (w_db (snd (handle Sample.parseInt int4
                  (mkRequest (Some (Sample.session Sample.carol))
                     (POST_leads Sample.new_lead))
                  Sample.world))).
Proof.
  apply (requests_keep_constraints Sample.parseInt int4
           (mkRequest (Some (Sample.session Sample.carol)) (POST_leads Sample.new_lead))
           Sample.world).
  exact Sample_constraints.
Defined.

(** ** The gates in front of the handlers *)

(** X3.  A request without a session is answered 401 on every route, and
    the server's state is exactly what it was: nothing is read, written
    or sent. *)
Theorem unauthenticated_is_401
  (parseInt : option jval -> option Z) (zod_int : Z -> bool)
  (route : Route) (w : World) :
  handle parseInt zod_int (mkRequest None route) w
  = (Ok (mkResponse 401 (JsonError "Unauthorized")), w).
Proof. destruct route; reflexivity. Qed.

Lemma role_in_spec (role : string) (roles : list string) :
  existsb (String.eqb role) roles = true <-> In role roles.
Proof.
  rewrite existsb_exists. split.
  - intros (r & Hr & E). apply String.eqb_eq in E. now subst.
  - intros H. exists role. split; [exact H | apply String.eqb_refl].
Qed.

Lemma requireRole_refuses (roles : list string) (user : SessionUser)
  (next : SessionUser -> M Response) (w : World) :
  ~ In (su_role user) roles ->
  requireRole roles (Some user) next w = (Ok (mkResponse 403 (JsonError "Forbidden")), w).
Proof.
  intros H. unfold requireRole.
  destruct (existsb _ roles) eqn:E; [|reflexivity].
  apply role_in_spec in E. contradiction.
Qed.

Lemma requireRole_admits (roles : list string) (user : SessionUser)
  (next : SessionUser -> M Response) (w : World) :
  In (su_role user) roles -> requireRole roles (Some user) next w = next user w.
Proof.
  intros H. unfold requireRole. apply role_in_spec in H. now rewrite H.
Qed.

Ltac has_inner_match x :=
  match x with context [match _ with _ => _ end] => idtac end.

Ltac split_handler :=
  repeat match goal with
         | |- context [hd false (w_faults ?w)] => destruct (hd false (w_faults w)); simpl
         | |- context [match ?scrutinee with _ => _ end] =>
             tryif has_inner_match scrutinee
             then fail
             else (destruct scrutinee eqn:?; simpl)
         end.

Lemma get_users_403 (parseInt : option jval -> option Z) (zod_int : Z -> bool)
  (user : SessionUser) (w : World) :
  answers (handle parseInt zod_int (mkRequest (Some user) GET_users) w) 403
  <-> su_role user <> "admin".
Proof.
  unfold answers, handle. cbn [req_route]. unfold get_users. cbn [req_user]. split.
  - intros (b & w' & H) Hr.
    rewrite requireRole_admits in H by (rewrite Hr; now left).
    revert H. run_handler. split_handler; intros [=].
  - intros Hr. rewrite requireRole_refuses by (intros [H|[]]; congruence).
    do 2 eexists. reflexivity.
Qed.

Lemma get_analytics_403 (parseInt : option jval -> option Z) (zod_int : Z -> bool)
  (user : SessionUser) (w : World) :
  answers (handle parseInt zod_int (mkRequest (Some user) GET_analytics) w) 403
  <-> su_role user <> "admin" /\ su_role user <> "manager".
Proof.
  unfold answers, handle. cbn [req_route]. unfold get_analytics. cbn [req_user]. split.
  - intros (b & w' & H).
    destruct (in_dec string_dec (su_role user) ["admin"; "manager"]) as [Hin|Hout].
    + rewrite requireRole_admits in H by exact Hin.
      revert H. run_handler. split_handler; intros [=].
    + simpl in Hout. split; intros E; apply Hout; rewrite E; auto.
  - intros [Ha Hm]. rewrite requireRole_refuses by (intros [H|[H|[]]]; congruence).
    do 2 eexists. reflexivity.
Qed.

Lemma delete_lead_403 (parseInt : option jval -> option Z) (zod_int : Z -> bool)
  (user : SessionUser) (id : option Z) (w : World) :
  answers (handle parseInt zod_int (mkRequest (Some user) (DELETE_lead id)) w) 403
  <-> su_role user <> "admin" /\ su_role user <> "manager".
Proof.
  unfold answers, handle. cbn [req_route]. unfold delete_lead. cbn [req_user]. split.
  - intros (b & w' & H).
    destruct (in_dec string_dec (su_role user) ["admin"; "manager"]) as [Hin|Hout].
    + rewrite requireRole_admits in H by exact Hin.
      revert H. run_handler. split_handler; intros [=].
    + simpl in Hout. split; intros E; apply Hout; rewrite E; auto.
  - intros [Ha Hm]. rewrite requireRole_refuses by (intros [H|[H|[]]]; congruence).
    do 2 eexists. reflexivity.
Qed.

(** X4.  The role gates decide on the role alone.  [GET /api/users]
    answers 403 exactly to the callers who are not admin;
    [GET /api/analytics] and [DELETE /api/leads/:id] answer 403 exactly to
    the callers who are neither admin nor manager, whatever the id and
    the state of the database; and [GET /api/leads], [GET /api/stats] and
    [POST /api/leads] never answer 403 to a caller with a session. *)
Theorem role_gates_decide_403
  (parseInt : option jval -> option Z) (zod_int : Z -> bool)
  (user : SessionUser) (w : World) :
  let serve route := handle parseInt zod_int (mkRequest (Some user) route) w in
  (answers (serve GET_users) 403 <-> su_role user <> "admin") /\
  (answers (serve GET_analytics) 403
   <-> su_role user <> "admin" /\ su_role user <> "manager") /\
  (forall id, answers (serve (DELETE_lead id)) 403
              <-> su_role user <> "admin" /\ su_role user <> "manager") /\
  ~ answers (serve GET_leads) 403 /\
  ~ answers (serve GET_stats) 403 /\
  (forall body, ~ answers (serve (POST_leads body)) 403).
Proof.
  intros serve. unfold serve.
  split; [apply get_users_403|].
  split; [apply get_analytics_403|].
  split; [intros id; apply delete_lead_403|].
  split; [|split; [|intros body]];
    intros (b & w' & H); revert H; run_handler; split_handler; intros [=].
Qed.

(** ** What the client offers and what the server permits *)

Lemma visible_spec (role url : string) :
  In url (map mi_url (visibleItems role))
  <-> exists item, In item menuItems /\ mi_url item = url /\ In role (mi_roles item).
Proof.
  unfold visibleItems. rewrite in_map_iff. split.
  - intros (item & Hurl & Hin). apply filter_In in Hin. destruct Hin as [Hin Hr].
    apply existsb_exists in Hr. destruct Hr as (r & Hr & E).
    apply String.eqb_eq in E. subst r. eauto.
  - intros (item & Hin & Hurl & Hr). exists item. split; [exact Hurl|].
    apply filter_In. split; [exact Hin|]. apply existsb_exists.
    exists role. split; [exact Hr | apply String.eqb_refl].
Qed.

Lemma visible_analytics (role : string) :
  In "/analytics" (map mi_url (visibleItems role)) <-> role = "admin" \/ role = "manager".
Proof.
  rewrite visible_spec. split.
  - intros (item & Hin & Hurl & Hr).
    destruct Hin as [<-|[<-|[<-|[<-|[]]]]]; try discriminate Hurl.
    destruct Hr as [<-|[<-|[]]]; auto.
  - intros H. exists (mkMenuItem "Analytics" "/analytics" ["admin"; "manager"]).
    split; [right; right; left; reflexivity|]. split; [reflexivity|].
    destruct H as [->| ->]; simpl; auto.
Qed.

Lemma visible_users (role : string) :
  In "/users" (map mi_url (visibleItems role)) <-> role = "admin".
Proof.
  rewrite visible_spec. split.
  - intros (item & Hin & Hurl & Hr).
    destruct Hin as [<-|[<-|[<-|[<-|[]]]]]; try discriminate Hurl.
    destruct Hr as [<-|[]]; auto.
  - intros ->. exists (mkMenuItem "User Management" "/users" ["admin"]).
    split; [right; right; right; left; reflexivity|]. split; [reflexivity|].
    simpl; auto.
Qed.

Lemma canDelete_spec (user : SessionUser) :
  canDelete (Some user) = true <-> su_role user = "admin" \/ su_role user = "manager".
Proof.
  unfold canDelete. rewrite orb_true_iff, !String.eqb_eq. reflexivity.
Qed.

Lemma not_neither (role : string) :
  ~ (role <> "admin" /\ role <> "manager") <-> role = "admin" \/ role = "manager".
Proof.
  destruct (string_dec role "admin"), (string_dec role "manager"); tauto.
Qed.

(** X5.  The sidebar and the leads page offer by role what the server's
    gates let through, no more and no less: the Analytics item is shown
    exactly to the callers [GET /api/analytics] does not answer 403, the
    User Management item exactly to those [GET /api/users] does not answer
    403, and the delete button exactly to those [DELETE /api/leads/:id]
    does not answer 403. *)
Theorem menu_matches_role_gates
  (parseInt : option jval -> option Z) (zod_int : Z -> bool)
  (user : SessionUser) (w : World) :
  let serve route := handle parseInt zod_int (mkRequest (Some user) route) w in
  (In "/analytics" (map mi_url (visibleItems (su_role user)))
   <-> ~ answers (serve GET_analytics) 403) /\
  (In "/users" (map mi_url (visibleItems (su_role user)))
   <-> ~ answers (serve GET_users) 403) /\
  (forall id, canDelete (Some user) = true <-> ~ answers (serve (DELETE_lead id)) 403).
Proof.
  intros serve. unfold serve. split; [|split; [|intros id]].
  - rewrite visible_analytics, get_analytics_403. symmetry. apply not_neither.
  - rewrite visible_users, get_users_403.
    destruct (string_dec (su_role user) "admin"); tauto.
  - rewrite canDelete_spec, delete_lead_403. symmetry. apply not_neither.
Qed.

(** X6.  The lead form asks for [/api/users] in edit mode for admins and
    for managers, but the server lists the users for admins only: when
    the form sends the query, it is answered 403 exactly when the caller
    is a manager. *)
Theorem lead_form_users_query_refused_for_manager
  (parseInt : option jval -> option Z) (zod_int : Z -> bool)
  (user : SessionUser) (id : option string) (w : World) :
  users_query_enabled (Some user) id = true ->
  (answers (handle parseInt zod_int (mkRequest (Some user) GET_users) w) 403
   <-> su_role user = "manager").
Proof.
  unfold users_query_enabled. intros H. apply andb_true_iff in H.
  destruct H as [H _]. apply canDelete_spec in H. rewrite get_users_403.
  destruct H as [H|H]; rewrite H; split; intros; try reflexivity;
    try discriminate; congruence.
Qed.

Lemma lead_form_users_query_refused_for_manager_witness :
  users_query_enabled (Some (Sample.session Sample.dave)) (Some "11") = true /\
  answers (handle Sample.parseInt int4
             (mkRequest (Some (Sample.session Sample.dave)) GET_users) Sample.world) 403.
Proof.
  split; [reflexivity|].
  apply (lead_form_users_query_refused_for_manager Sample.parseInt int4
           (Sample.session Sample.dave) (Some "11") Sample.world);
    reflexivity.
Defined.

(** ** The read routes, when the driver fails nothing *)

Ltac no_faults w Hf :=
  destruct w as [db now faults calls clients sent]; simpl in Hf; subst faults;
  simpl w_db in *.

(** X7.  [GET /api/leads/:id] looks for the lead before it looks at its
    owner: it answers 404 when the lead is not there, 403 when it is
    there and a sales executive who does not own it asks, and otherwise
    200 with the lead, its owner and its activities, sanitized. *)
Theorem get_lead_answers
  (parseInt : option jval -> option Z) (zod_int : Z -> bool)
  (user : SessionUser) (id : Z) (w : World) :
  w_faults w = [] -> int4 id = true ->
  fst (handle parseInt zod_int (mkRequest (Some user) (GET_lead (Some id))) w)
  = Ok match getLeadById (w_db w) id with
       | None => mkResponse 404 (JsonError "Lead not found")
       | Some lead =>
           if (su_role user =? "sales_executive")%string
              && negb (l_ownerId (lo_lead lead) =? su_id user)
           then mkResponse 403 (JsonError "Forbidden")
           else mkResponse 200 (JsonLeadDetails (sanitizeLead lead))
       end.
Proof.
  intros Hf Hi. unfold handle, get_lead, requireAuth, try_catch, bind. simpl.
  rewrite (storage_getLeadById_ok id w Hf Hi).
  destruct (getLeadById (w_db w) id) as [lead|]; [|reflexivity].
  unfold not_own, role_sales_executive. destruct (_ && _); reflexivity.
Qed.

Lemma get_lead_answers_witness :
  fst (handle Sample.parseInt int4
         (mkRequest (Some (Sample.session Sample.alice)) (GET_lead (Some 11)))
         Sample.world)
  = Ok (mkResponse 403 (JsonError "Forbidden")).
Proof.
  apply (get_lead_answers Sample.parseInt int4 (Sample.session Sample.alice) 11
           Sample.world); reflexivity.
Defined.

Lemma storage_getAllLeads_ok (userId : Z) (role : string) (w : World) :
  w_faults w = [] -> int4 userId = true ->
  fst (storage.getAllLeads (Some userId) (Some role) w)
  = Ok (getAllLeads (w_db w) (Some userId) (Some role)).
Proof.
  intros Hf Hi. no_faults w Hf. run_handler.
  destruct (_ && _); [rewrite Hi|]; reflexivity.
Qed.

(** X8.  [GET /api/leads] answers 200 with the leads newest first, each
    with its owner sanitized.  For a sales executive (whose id is not 0)
    the list holds the leads that caller owns and no other; for every
    other role it holds every lead of the table. *)
Theorem get_leads_lists_visible_leads
  (parseInt : option jval -> option Z) (zod_int : Z -> bool)
  (user : SessionUser) (w : World) :
  w_faults w = [] -> int4 (su_id user) = true -> su_id user <> 0 ->
  exists ls,
    fst (handle parseInt zod_int (mkRequest (Some user) GET_leads) w)
    = Ok (mkResponse 200 (JsonLeads ls)) /\
    StronglySorted (newer_first (fun l => l_createdAt (sl_lead l))) ls /\
    (su_role user = "sales_executive" ->
     forall l, In l (map sl_lead ls) <-> In l (leads (w_db w)) /\ l_ownerId l = su_id user) /\
    (su_role user <> "sales_executive" ->
     forall l, In l (map sl_lead ls) <-> In l (leads (w_db w))).
Proof.
  intros Hf Hi Hz.
  exists (map sanitizeLead (getAllLeads (w_db w) (Some (su_id user)) (Some (su_role user)))).
  split; [|split; [|split]].
  - unfold handle, get_leads, requireAuth, try_catch, bind. simpl.
    pose proof (storage_getAllLeads_ok (su_id user) (su_role user) w Hf Hi) as H.
    destruct (storage.getAllLeads _ _ w) as [r w']. simpl in H. subst r. reflexivity.
  - pose proof (getAllLeads_sorted (w_db w) (Some (su_id user)) (Some (su_role user))) as H.
    induction H as [|r rs Hs IH Hr]; simpl; constructor; [exact IH|].
    rewrite Forall_map. exact Hr.
  - intros Hr l. rewrite map_map. change (fun x => sl_lead (sanitizeLead x)) with lo_lead.
    rewrite getAllLeads_rows.
    rewrite (leadsQuery_scoped (w_db w) _ _ (su_id user)) by (rewrite ?Hr; auto).
    rewrite filter_In, Z.eqb_eq. reflexivity.
  - intros Hr l. rewrite map_map. change (fun x => sl_lead (sanitizeLead x)) with lo_lead.
    rewrite getAllLeads_rows, leadsQuery_unscoped; [reflexivity|].
    left. intros [= E]. contradiction.
Qed.

Lemma get_leads_lists_visible_leads_witness :
  exists ls,
    fst (handle Sample.parseInt int4
           (mkRequest (Some (Sample.session Sample.alice)) GET_leads) Sample.world)
    = Ok (mkResponse 200 (JsonLeads ls)) /\
    map sl_lead ls = [Sample.acme].
Proof.
  destruct (get_leads_lists_visible_leads Sample.parseInt int4
              (Sample.session Sample.alice) Sample.world eq_refl eq_refl)
    as (ls & H & _); [discriminate|].
  exists ls. split; [exact H|].
  vm_compute in H. injection H as <-. reflexivity.
Defined.

(** X9.  [GET /api/users] answers an admin 200 with the users newest
    first: every user of the table once, without the password. *)
Theorem get_users_lists_every_user
  (parseInt : option jval -> option Z) (zod_int : Z -> bool)
  (user : SessionUser) (w : World) :
  w_faults w = [] -> su_role user = "admin" ->
  exists us,
    fst (handle parseInt zod_int (mkRequest (Some user) GET_users) w)
    = Ok (mkResponse 200 (JsonUsers us)) /\
    Permutation us (map without_password (users (w_db w))) /\
    StronglySorted (newer_first pu_createdAt) us.
Proof.
  intros Hf Hr. exists (map without_password (getAllUsers (w_db w))).
  split; [|split].
  - no_faults w Hf. unfold handle, get_users, requireRole. simpl. rewrite Hr. reflexivity.
  - apply Permutation_map, Permutation_sym, orderBy_desc_perm.
  - pose proof (orderBy_desc_sorted u_createdAt (users (w_db w))) as H.
    unfold getAllUsers.
    induction H as [|r rs Hs IH Hr']; simpl; constructor; [exact IH|].
    rewrite Forall_map. exact Hr'.
Qed.

Lemma get_users_lists_every_user_witness :
  exists us,
    fst (handle Sample.parseInt int4
           (mkRequest (Some (Sample.session Sample.carol)) GET_users) Sample.world)
    = Ok (mkResponse 200 (JsonUsers us)) /\
    map pu_username us = ["eve"; "dave"; "carol"; "bob"; "alice"].
Proof.
  destruct (get_users_lists_every_user Sample.parseInt int4
              (Sample.session Sample.carol) Sample.world eq_refl eq_refl)
    as (us & H & _).
  exists us. split; [exact H|].
  vm_compute in H. injection H as <-. reflexivity.
Defined.

(** ** The store: lookups, inserts and updates *)

Lemma hd_filter_unique {A K : Type} (key : A -> K) (eqb : K -> K -> bool)
  (eqb_eq : forall a b, eqb a b = true <-> a = b) (rows : list A) (r : A) :
  NoDup (map key rows) -> In r rows ->
  filter (fun x => eqb (key x) (key r)) rows = [r].
Proof.
  induction rows as [|x rows IH]; simpl; intros Hnd Hin; [contradiction|].
  inversion Hnd as [|? ? Hx Hrows]; subst.
  assert (forall y, In y rows -> eqb (key y) (key x) = false) as Hno.
  { intros y Hy. destruct (eqb (key y) (key x)) eqn:E; [|reflexivity].
    apply eqb_eq in E. exfalso. apply Hx. rewrite <- E. now apply in_map. }
  destruct Hin as [->|Hin].
  - replace (eqb (key r) (key r)) with true by (symmetry; now apply eqb_eq).
    f_equal. clear - Hno. induction rows as [|y rows IH]; simpl; [reflexivity|].
    rewrite (Hno y) by now left. apply IH. intros z Hz. apply Hno. now right.
  - replace (eqb (key x) (key r)) with false.
    + now apply IH.
    + symmetry. destruct (eqb (key x) (key r)) eqn:E; [|reflexivity].
      apply eqb_eq in E. exfalso. apply Hx. rewrite E. now apply in_map.
Qed.

Lemma hd_filter_None {A : Type} (p : A -> bool) (rows : list A) :
  hd_error (filter p rows) = None <-> forall r, In r rows -> p r = false.
Proof.
  induction rows as [|x rows IH]; simpl.
  - split; [intros _ r [] | reflexivity].
  - destruct (p x) eqn:E; simpl.
    + split; [discriminate|]. intros H. specialize (H x (or_introl eq_refl)). congruence.
    + rewrite IH. split; [intros H r [<-|Hr]; auto | intros H r Hr; apply H; now right].
Qed.

(** X10.  The three user lookups find a user by its key.  In a database
    whose [id], [username] and [email] columns are unique, each user of
    the table is what the lookup of its own id, user name or email
    returns; and a lookup returns [undefined] exactly when no user has
    the key. *)
Theorem user_lookups_find_by_key (db : Database) :
  constraints_hold db ->
  (forall u, In u (users db) ->
     getUser db (u_id u) = Some u /\
     getUserByUsername db (u_username u) = Some u /\
     getUserByEmail db (u_email u) = Some u) /\
  (forall id, getUser db id = None <-> forall u, In u (users db) -> u_id u <> id) /\
  (forall name, getUserByUsername db name = None
                <-> forall u, In u (users db) -> u_username u <> name) /\
  (forall email, getUserByEmail db email = None
                 <-> forall u, In u (users db) -> u_email u <> email).
Proof.
  intros [Hid Hname Hemail _ _ _ _ _ _ _]. split; [|split; [|split]].
  - intros u Hu. unfold getUser, getUserByUsername, getUserByEmail.
    rewrite (hd_filter_unique u_id Z.eqb Z.eqb_eq _ u Hid Hu).
    rewrite (hd_filter_unique u_username String.eqb String.eqb_eq _ u Hname Hu).
    rewrite (hd_filter_unique u_email String.eqb String.eqb_eq _ u Hemail Hu).
    auto.
  - intros id. unfold getUser. rewrite hd_filter_None.
    split; intros H u Hu; specialize (H u Hu); now apply Z.eqb_neq.
  - intros name. unfold getUserByUsername. rewrite hd_filter_None.
    split; intros H u Hu; specialize (H u Hu); now apply String.eqb_neq.
  - intros email. unfold getUserByEmail. rewrite hd_filter_None.
    split; intros H u Hu; specialize (H u Hu); now apply String.eqb_neq.
Qed.

Lemma user_lookups_find_by_key_witness :
  getUser Sample.db 3 = Some Sample.carol /\
  getUserByUsername Sample.db "bob" = Some Sample.bob /\
  getUserByEmail Sample.db "nobody@crm.test" = None.
Proof.
  destruct (user_lookups_find_by_key Sample.db Sample_constraints)
    as (Hfound & _ & _ & Hemail).
  split; [|split].
  - apply (Hfound Sample.carol). simpl. auto.
  - apply (Hfound Sample.bob). simpl. auto.
  - apply Hemail. intros u Hu. simpl in Hu.
    repeat (destruct Hu as [<-|Hu]; [discriminate|]). contradiction.
Defined.

Lemma getUser_of_exists (db : Database) (id : Z) :
  NoDup (map u_id (users db)) -> user_exists db id = true ->
  exists u, getUser db id = Some u /\ u_id u = id /\
            filter (fun x => id =? u_id x) (users db) = [u].
Proof.
  intros Hnd Hex. apply user_exists_spec in Hex. destruct Hex as (u & Hu & <-).
  exists u. unfold getUser.
  rewrite (hd_filter_unique u_id Z.eqb Z.eqb_eq _ u Hnd Hu).
  repeat split.
  rewrite <- (hd_filter_unique u_id Z.eqb Z.eqb_eq _ u Hnd Hu).
  apply filter_ext. intros x. apply Z.eqb_sym.
Qed.

Lemma filter_none {A : Type} (p : A -> bool) (rows : list A) :
  (forall r, In r rows -> p r = false) -> filter p rows = [].
Proof.
  induction rows as [|x rows IH]; simpl; intros H; [reflexivity|].
  rewrite (H x) by now left. apply IH. intros r Hr. apply H. now right.
Qed.

(** X11.  A lead that [createLead] has inserted reads back.  In a database
    that satisfies its constraints, [getLeadById] of the new id returns
    the inserted row joined with the user its [ownerId] names, and an
    empty list of activities; the row has the values that were given,
    status [new] when none was, and both timestamps at the time of the
    insert. *)
Theorem created_lead_reads_back (now : Z) (v : InsertLead) (db db' : Database) (l : Lead) :
  constraints_hold db ->
  createLead now v db = (db', Some l) ->
  exists owner,
    getUser db (il_ownerId v) = Some owner /\
    getLeadById db' (l_id l) = Some (mkLO l (Val owner) (Some [])) /\
    l = mkLead (leads_id_seq db) (il_companyName v) (il_contactName v) (il_email v)
          (nullable (il_phone v))
          match il_status v with Some s => s | None => "new" end
          (il_source v) (nullable (il_value v)) (il_ownerId v) now now.
Proof.
  intros Hc. pose proof Hc as [Hu _ _ Hl Hls _ _ _ Hal _].
  unfold createLead. destruct (_ && _) eqn:Hok; [|discriminate].
  intros [= <- <-]. apply andb_true_iff in Hok. destruct Hok as [_ Hex]. simpl in Hex.
  destruct (getUser_of_exists db (il_ownerId v) Hu Hex) as (owner & Hget & Hid & Hjoin).
  exists owner. split; [exact Hget|]. split; [|reflexivity].
  rewrite Forall_forall in Hls, Hal.
  unfold getLeadById, selectLead, getActivitiesByLeadId. simpl.
  rewrite filter_app. simpl. rewrite Z.eqb_refl.
  rewrite filter_none.
  2:{ intros r Hr. apply Z.eqb_neq. specialize (Hls r Hr). lia. }
  simpl. unfold leftJoin_owner at 1. simpl. rewrite Hjoin. simpl.
  rewrite filter_none; [reflexivity|].
  intros a Ha. apply Z.eqb_neq. specialize (Hal a Ha).
  apply lead_exists_spec in Hal. destruct Hal as (l0 & Hl0 & E).
  specialize (Hls l0 Hl0). lia.
Qed.

Lemma created_lead_reads_back_witness :
  exists l db',
    createLead Sample.today
      (mkInsertLead "Initech" "Ian" "ian@initech.test" Undefined None "web" Null 2)
      Sample.db = (db', Some l) /\
    getLeadById db' 12 = Some (mkLO l (Val Sample.bob) (Some [])).
Proof.
  do 2 eexists. split; [reflexivity|].
  edestruct (created_lead_reads_back Sample.today
               (mkInsertLead "Initech" "Ian" "ian@initech.test" Undefined None "web" Null 2)
               Sample.db _ _ Sample_constraints eq_refl) as (owner & Hget & Hread & _).
  injection Hget as <-. exact Hread.
Defined.

(** X12.  An activity that [createActivity] has inserted is listed with
    its lead.  In a database that satisfies its constraints, the
    activities of the lead then hold the new row joined with its author,
    and [getLeadById] of the lead returns it among the lead's
    activities. *)
Theorem created_activity_is_listed (now : Z) (v : InsertActivity)
  (db db' : Database) (a : Activity) :
  constraints_hold db ->
  createActivity now v db = (db', Some a) ->
  exists author,
    getUser db (ia_userId v) = Some author /\
    a_leadId a = ia_leadId v /\ a_userId a = ia_userId v /\ a_createdAt a = now /\
    In (mkAWU a (Val author)) (getActivitiesByLeadId db' (ia_leadId v)) /\
    exists lead acts,
      getLeadById db' (ia_leadId v) = Some lead /\
      lo_activities lead = Some acts /\ In (mkAWU a (Val author)) acts.
Proof.
  intros Hc. pose proof Hc as [Hu _ _ _ _ _ _ _ _ _].
  unfold createActivity. destruct (_ && _) eqn:Hok; [|discriminate].
  intros [= <- <-]. rewrite !andb_true_iff in Hok.
  destruct Hok as [[_ Hlead] Huser]. simpl in Hlead, Huser.
  destruct (getUser_of_exists db (ia_userId v) Hu Huser) as (author & Hget & Hid & Hjoin).
  exists author. split; [exact Hget|]. repeat (split; [reflexivity|]).
  assert (In (mkAWU (mkActivity (activities_id_seq db) (ia_leadId v) (ia_userId v)
                       (ia_type v) (ia_subject v) (nullable (ia_notes v)) now)
                (Val author))
            (getActivitiesByLeadId
               (mkDb (users db) (leads db)
                  (activities db ++ [mkActivity (activities_id_seq db) (ia_leadId v)
                                       (ia_userId v) (ia_type v) (ia_subject v)
                                       (nullable (ia_notes v)) now])
                  (leads_id_seq db) (activities_id_seq db + 1))
               (ia_leadId v))) as Hin.
  { unfold getActivitiesByLeadId. apply orderBy_desc_In. simpl.
    rewrite filter_app, flat_map_app, in_app_iff. right.
    simpl. rewrite Z.eqb_refl. simpl. rewrite app_nil_r.
    unfold leftJoin_user. simpl. rewrite Hjoin. left. reflexivity. }
  split; [exact Hin|].
  apply lead_exists_spec in Hlead. destruct Hlead as (l & Hl & El).
  unfold getLeadById, selectLead. simpl.
  destruct (flat_map _ _) as [|row rows] eqn:E.
  - exfalso.
    assert (In l (filter (fun l0 => l_id l0 =? ia_leadId v) (leads db))) as Hf
      by (apply filter_In; split; [exact Hl | now apply Z.eqb_eq]).
    destruct (leftJoin_owner_nonempty (users db) l) as (r & Hr).
    assert (In r (flat_map (leftJoin_owner (users db))
                    (filter (fun l0 => l_id l0 =? ia_leadId v) (leads db)))) as Hin'
      by (apply in_flat_map; eauto).
    rewrite E in Hin'. contradiction.
  - simpl. do 2 eexists. split; [reflexivity|]. split; [reflexivity|]. exact Hin.
Qed.

Lemma created_activity_is_listed_witness :
  exists a db',
    createActivity Sample.today (mkInsertActivity 10 1 "note" "Follow up" Undefined)
      Sample.db = (db', Some a) /\
    In (mkAWU a (Val Sample.alice)) (getActivitiesByLeadId db' 10).
Proof.
  do 2 eexists. split; [reflexivity|].
  edestruct (created_activity_is_listed Sample.today
               (mkInsertActivity 10 1 "note" "Follow up" Undefined)
               Sample.db _ _ Sample_constraints eq_refl)
    as (author & Hget & _ & _ & _ & Hin & _).
  injection Hget as <-. exact Hin.
Defined.

Lemma In_updated (now id : Z) (p : PartialLead) (ls : list Lead) (l' : Lead) :
  In l' (map (fun l => if l_id l =? id then apply_update now p l else l) ls) <->
  (In l' ls /\ l_id l' <> id) \/
  (exists l, In l ls /\ l_id l = id /\ l' = apply_update now p l).
Proof.
  rewrite in_map_iff. split.
  - intros (l & E & Hl). destruct (Z.eqb_spec (l_id l) id) as [Hid|Hid].
    + right. exists l. auto.
    + left. subst l'. auto.
  - intros [[Hl Hid]|(l & Hl & Hid & ->)].
    + exists l'. split; [|exact Hl]. destruct (Z.eqb_spec (l_id l') id); [contradiction|reflexivity].
    + exists l. split; [|exact Hl]. now rewrite Hid, Z.eqb_refl.
Qed.

(** X13.  [updateLead] rewrites the rows of one id and nothing else.  The
    users, the activities, the ids of the leads and every lead of another
    id are what they were.  A row of the id keeps its id and [createdAt],
    takes [updatedAt] from the clock, and in each of its eight other
    columns (company name, contact name, email, phone, status, source,
    value, owner) keeps the value when the update leaves the column out
    and takes the update's value when it gives one, [null] clearing
    phone and value; with an empty update only [updatedAt] changes.  The
    call returns [undefined] exactly when no lead has the id, and then
    the leads are unchanged. *)
Theorem updateLead_rewrites_one_row
  (now id : Z) (p : PartialLead) (db db' : Database) (r : option Lead) :
  updateLead now id p db = Some (db', r) ->
  users db' = users db /\ activities db' = activities db /\
  map l_id (leads db') = map l_id (leads db) /\
  (forall l, l_id l <> id -> (In l (leads db') <-> In l (leads db))) /\
  (forall l', In l' (leads db') -> l_id l' = id ->
     exists l, In l (leads db) /\ l_id l = id /\
       l_createdAt l' = l_createdAt l /\ l_updatedAt l' = now /\
       l_companyName l'
       = match pl_companyName p with Some s => s | None => l_companyName l end /\
       l_contactName l'
       = match pl_contactName p with Some s => s | None => l_contactName l end /\
       l_email l' = match pl_email p with Some s => s | None => l_email l end /\
       l_phone l' = match pl_phone p with
                    | Undefined => l_phone l | Null => None | Val x => Some x end /\
       l_status l' = match pl_status p with Some s => s | None => l_status l end /\
       l_source l' = match pl_source p with Some s => s | None => l_source l end /\
       l_value l' = match pl_value p with
                    | Undefined => l_value l | Null => None | Val x => Some x end /\
       l_ownerId l' = match pl_ownerId p with Some o => o | None => l_ownerId l end /\
       (p = mkPartialLead None None None Undefined None None Undefined None ->
        l' = mkLead (l_id l) (l_companyName l) (l_contactName l) (l_email l)
               (l_phone l) (l_status l) (l_source l) (l_value l) (l_ownerId l)
               (l_createdAt l) now)) /\
  (r = None <-> lead_exists db id = false) /\
  (r = None -> leads db' = leads db) /\
  (forall l', r = Some l' -> In l' (leads db') /\ l_id l' = id).
Proof.
  unfold updateLead. destruct (forallb _ _); [|discriminate].
  intros [= <- <-]. simpl.
  split; [reflexivity|]. split; [reflexivity|]. split; [apply updated_ids|].
  split; [|split; [|split; [|split]]].
  - intros l Hid. rewrite In_updated. split.
    + intros [[H _]|(l0 & _ & Hid0 & ->)]; [exact H|]. simpl in Hid. contradiction.
    + intros H. left. auto.
  - intros l' Hin Hid. apply In_updated in Hin.
    destruct Hin as [[_ Hne]|(l & Hl & Hid' & ->)]; [contradiction|].
    exists l. repeat (split; [first [assumption | reflexivity]|]).
    intros ->. reflexivity.
  - rewrite hd_filter_None. unfold lead_exists. split.
    + intros H. destruct (existsb _ (leads db)) eqn:E; [|reflexivity].
      apply existsb_exists in E. destruct E as (l & Hl & Hid).
      apply Z.eqb_eq in Hid.
      specialize (H (apply_update now p l)). simpl in H.
      rewrite Hid, Z.eqb_refl in H. apply H, In_updated. right. eauto.
    + intros H l' Hin. destruct (l_id l' =? id) eqn:E; [|reflexivity].
      apply Z.eqb_eq in E. apply In_updated in Hin.
      assert (exists l, In l (leads db) /\ l_id l = id) as (l & Hl & Hid).
      { destruct Hin as [[Hl _]|(l & Hl & Hid & _)]; eauto. }
      assert (existsb (fun l0 => l_id l0 =? id) (leads db) = true) as Hex
        by (apply existsb_exists; exists l; split; [exact Hl | now apply Z.eqb_eq]).
      congruence.
  - intros H0. pose proof (proj1 (hd_filter_None _ _) H0) as H. clear H0.
    rewrite <- (map_id (leads db)) at 2. apply map_ext_in. intros l Hl.
    destruct (l_id l =? id) eqn:E; [|reflexivity].
    specialize (H (apply_update now p l)). simpl in H. rewrite E in H.
    assert (true = false) as Habs; [|discriminate Habs].
    apply H, In_updated. right. exists l. apply Z.eqb_eq in E. auto.
  - intros l' H.
    assert (In l' (filter (fun l => l_id l =? id)
                     (map (fun l => if l_id l =? id then apply_update now p l else l)
                        (leads db)))) as Hin.
    { destruct (filter _ _) as [|x xs]; [discriminate|]. injection H as ->. now left. }
    apply filter_In in Hin. destruct Hin as [Hin Hid]. split; [exact Hin|].
    now apply Z.eqb_eq.
Qed.

Lemma updateLead_rewrites_one_row_witness :
  exists db' l',
    updateLead Sample.today 10
      (mkPartialLead None None None Undefined (Some "contacted") None Undefined None)
      Sample.db = Some (db', Some l') /\
    map l_id (leads db') = [10; 11] /\
    exists l, In l (leads Sample.db) /\ l_id l = 10 /\
      l_status l' = "contacted" /\ l_updatedAt l' = Sample.today /\
      l_companyName l' = l_companyName l /\ l_contactName l' = l_contactName l /\
      l_email l' = l_email l /\ l_phone l' = l_phone l /\ l_source l' = l_source l /\
      l_value l' = l_value l /\ l_ownerId l' = l_ownerId l.
Proof.
  do 2 eexists. split; [reflexivity|].
  edestruct (updateLead_rewrites_one_row Sample.today 10
               (mkPartialLead None None None Undefined (Some "contacted") None Undefined None)
               Sample.db _ _ eq_refl) as (_ & _ & Hids & _ & Hrow & _ & _ & Hret).
  split; [exact Hids|].
  destruct (Hret _ eq_refl) as [Hin Hid].
  destruct (Hrow _ Hin Hid)
    as (l & Hl & Hlid & _ & Hu & Hc & Hn & He & Hp & Hs & Hsrc & Hv & Ho & _).
  exists l. split; [exact Hl|]. split; [exact Hlid|].
  split; [exact Hs|]. split; [exact Hu|]. split; [exact Hc|]. split; [exact Hn|].
  split; [exact He|]. split; [exact Hp|]. split; [exact Hsrc|].
  split; [exact Hv | exact Ho].
Defined.

(** ** The writing routes, when the driver fails nothing *)

Lemma deliveries_one (clients : list (nat * ReadyState)) (data : Event) :
  deliveries clients [data]
  = map (fun client => (fst client, data))
      (filter (fun client => is_open (snd client)) clients).
Proof. unfold deliveries. simpl. apply app_nil_r. Qed.

Lemma storage_updateLead_ok (id : Z) (p : PartialLead) (w : World)
  (db' : Database) (r : option Lead) :
  w_faults w = [] -> int4 id = true ->
  updateLead (w_now w) id p (w_db w) = Some (db', r) ->
  storage.updateLead (Some id) p w
  = (Ok r, mkWorld db' (w_now w) [] (w_calls w ++ [Call_updateLead (Some id) p])
             (w_clients w) (w_sent w)).
Proof.
  intros Hf Hi Hu. no_faults w Hf. simpl in Hu. run_handler.
  rewrite Hi, Hu. reflexivity.
Qed.

Lemma updated_lead_reads_back (now id : Z) (p : PartialLead) (db db' : Database)
  (l' : Lead) :
  updateLead now id p db = Some (db', Some l') ->
  exists lead' owner,
    getLeadById db' id = Some lead' /\ lo_lead lead' = l' /\
    lo_owner lead' = Val owner /\ u_id owner = l_ownerId l'.
Proof.
  unfold updateLead. destruct (forallb _ _) eqn:Hok; [|discriminate].
  intros [= <- Hhd]. unfold getLeadById, selectLead. simpl.
  destruct (filter _ _) as [|x rest] eqn:E; [discriminate|].
  injection Hhd as ->. rewrite forallb_forall in Hok.
  assert (user_exists db (l_ownerId l') = true) as Hex.
  { specialize (Hok l' (or_introl eq_refl)). unfold update_ok in Hok.
    apply andb_true_iff in Hok. apply Hok. }
  apply user_exists_spec in Hex. destruct Hex as (u & Hu & Hid).
  simpl. unfold leftJoin_owner at 1.
  destruct (filter (fun u0 => l_ownerId l' =? u_id u0) (users db)) as [|o os] eqn:Ej.
  - exfalso.
    assert (In u (filter (fun u0 => l_ownerId l' =? u_id u0) (users db))) as Hin
      by (apply filter_In; split; [exact Hu | apply Z.eqb_eq; congruence]).
    rewrite Ej in Hin. contradiction.
  - simpl. do 2 eexists. split; [reflexivity|]. simpl. repeat split.
    assert (In o (filter (fun u0 => l_ownerId l' =? u_id u0) (users db))) as Hin
      by (rewrite Ej; now left).
    apply filter_In in Hin. destruct Hin as [_ Hin]. apply Z.eqb_eq in Hin. congruence.
Qed.

(** X14.  A [PUT /api/leads/:id] that goes through answers 200 with the
    updated row, stores the update, and tells every open client
    [lead_updated] with the lead as read back after the write: the
    updated row joined with its owner, sanitized. *)
Theorem put_lead_updates_and_announces
  (parseInt : option jval -> option Z) (zod_int : Z -> bool)
  (user : SessionUser) (id : Z) (body : jobject) (w : World)
  (v : PartialLead) (lead : LeadObject) (db' : Database) (l' : Lead) :
  w_faults w = [] -> int4 id = true ->
  insertLeadSchema_partial_parse zod_int body = Ok v ->
  getLeadById (w_db w) id = Some lead ->
  not_own user lead = false ->
  updateLead (w_now w) id v (w_db w) = Some (db', Some l') ->
  exists lead' owner w',
    handle parseInt zod_int (mkRequest (Some user) (PUT_lead (Some id) body)) w
    = (Ok (mkResponse 200 (JsonLead (Some l'))), w') /\
    w_db w' = db' /\
    getLeadById db' id = Some lead' /\ lo_lead lead' = l' /\
    lo_owner lead' = Val owner /\ u_id owner = l_ownerId l' /\
    w_sent w' = (w_sent w
                 ++ deliveries (w_clients w) [lead_updated (inl (sanitizeLead lead'))])%list.
Proof.
  intros Hf Hi Hp Hl Hown Hu.
  destruct (updated_lead_reads_back _ _ _ _ _ _ Hu) as (lead' & owner & Hr & Hl' & Ho & Hid).
  exists lead', owner. eexists.
  unfold handle, put_lead, requireAuth, try_catch, bind, lift. simpl.
  rewrite Hp, (storage_getLeadById_ok id w Hf Hi), Hl, Hown.
  rewrite (storage_updateLead_ok id v _ db' (Some l')) by (simpl; auto).
  rewrite storage_getLeadById_ok by (simpl; auto). simpl w_db. rewrite Hr.
  unfold broadcastToClients, json, ret. cbn [w_db w_now w_faults w_calls w_clients w_sent].
  split; [reflexivity|]. cbn [w_db w_sent]. rewrite ?deliveries_one, ?app_nil_r.
  repeat split; assumption.
Qed.

Lemma put_lead_updates_and_announces_witness :
  exists l' lead' w',
    handle Sample.parseInt int4
      (mkRequest (Some (Sample.session Sample.alice))
         (PUT_lead (Some 10) [("status", JStr "contacted")]))
      Sample.world
    = (Ok (mkResponse 200 (JsonLead (Some l'))), w') /\
    l_status l' = "contacted" /\
    lo_owner lead' = Val Sample.alice /\
    w_sent w' = [(0%nat, lead_updated (inl (sanitizeLead lead')))].
Proof.
  edestruct (put_lead_updates_and_announces Sample.parseInt int4
               (Sample.session Sample.alice) 10 [("status", JStr "contacted")]
               Sample.world _ _ _ _ eq_refl eq_refl eq_refl eq_refl eq_refl eq_refl)
    as (lead' & owner & w' & H & _ & Hr & _ & Ho & _ & Hs).
  do 3 eexists. split; [exact H|]. split; [reflexivity|]. split; [|exact Hs].
  rewrite Ho. f_equal. vm_compute in Hr. injection Hr as <-.
  injection Ho as <-. reflexivity.
Defined.

Lemma storage_deleteLead_ok (id : Z) (w : World) :
  w_faults w = [] -> int4 id = true ->
  storage.deleteLead (Some id) w
  = (Ok tt, mkWorld (deleteLead id (w_db w)) (w_now w) []
              (w_calls w ++ [Call_deleteLead (Some id)]) (w_clients w) (w_sent w)).
Proof.
  intros Hf Hi. no_faults w Hf. run_handler. rewrite Hi. reflexivity.
Qed.

Lemma getLeadById_deleted (db : Database) (id : Z) :
  getLeadById (deleteLead id db) id = None.
Proof.
  unfold getLeadById, selectLead. simpl.
  rewrite filter_none; [reflexivity|].
  intros l Hl. apply filter_In in Hl. destruct Hl as [_ Hl].
  apply negb_true_iff in Hl. exact Hl.
Qed.

(** X15.  A [DELETE /api/leads/:id] by an admin or a manager on a lead
    that is there answers 204, removes the lead with its activities and
    no other row, and tells every open client [lead_deleted] with the
    id; after it, [GET /api/leads/:id] answers 404 to every caller. *)
Theorem delete_lead_then_not_found
  (parseInt : option jval -> option Z) (zod_int : Z -> bool)
  (user reader : SessionUser) (id : Z) (w : World) (lead : LeadObject) :
  w_faults w = [] -> int4 id = true ->
  su_role user = "admin" \/ su_role user = "manager" ->
  getLeadById (w_db w) id = Some lead ->
  exists w',
    handle parseInt zod_int (mkRequest (Some user) (DELETE_lead (Some id))) w
    = (Ok (mkResponse 204 NoBody), w') /\
    w_db w' = deleteLead id (w_db w) /\
    w_sent w' = (w_sent w ++ deliveries (w_clients w) [lead_deleted (Some id)])%list /\
    fst (handle parseInt zod_int (mkRequest (Some reader) (GET_lead (Some id))) w')
    = Ok (mkResponse 404 (JsonError "Lead not found")).
Proof.
  intros Hf Hi Hr Hl. eexists.
  unfold handle at 1. unfold delete_lead. cbn [req_route req_user].
  rewrite requireRole_admits by (destruct Hr as [-> | ->]; simpl; auto).
  unfold try_catch, bind.
  rewrite (storage_getLeadById_ok id w Hf Hi), Hl.
  rewrite storage_deleteLead_ok by (simpl; auto).
  unfold broadcastToClients, json, ret. cbn [w_db w_now w_faults w_calls w_clients w_sent].
  split; [reflexivity|]. cbn [w_db w_sent]. rewrite ?deliveries_one, ?app_nil_r.
  split; [reflexivity|]. split; [reflexivity|].
  unfold handle, get_lead, requireAuth, try_catch, bind. simpl.
  rewrite storage_getLeadById_ok by (simpl; auto). cbn [w_db].
  rewrite getLeadById_deleted. reflexivity.
Qed.

Lemma delete_lead_then_not_found_witness :
  exists w',
    handle Sample.parseInt int4
      (mkRequest (Some (Sample.session Sample.dave)) (DELETE_lead (Some 11)))
      Sample.world
    = (Ok (mkResponse 204 NoBody), w') /\
    activities (w_db w') = [] /\
    fst (handle Sample.parseInt int4
           (mkRequest (Some (Sample.session Sample.bob)) (GET_lead (Some 11))) w')
    = Ok (mkResponse 404 (JsonError "Lead not found")).
Proof.
  edestruct (delete_lead_then_not_found Sample.parseInt int4
               (Sample.session Sample.dave) (Sample.session Sample.bob) 11
               Sample.world _ eq_refl eq_refl (or_intror eq_refl) eq_refl)
    as (w' & H & Hdb & _ & Hget).
  exists w'. split; [exact H|]. split; [|exact Hget].
  rewrite Hdb. reflexivity.
Defined.

(** ** What a request can have done *)

Lemma statement_result {A : Type} (run : Database -> Database * option A)
  (w w' : World) (r : result A) :
  statement run w = (r, w') ->
  w_sent w' = w_sent w /\ w_clients w' = w_clients w /\ w_now w' = w_now w /\
  ((w_db w' = w_db w /\ r = Throw QueryError) \/
   run (w_db w) = (w_db w', match r with Ok a => Some a | Throw _ => None end)).
Proof.
  unfold statement. destruct (hd false (w_faults w)).
  - intros [= <- <-]. simpl. repeat (split; [reflexivity|]). left. auto.
  - destruct (run (w_db w)) as [db' [a|]]; intros [= <- <-]; simpl;
      repeat (split; [reflexivity|]); right; reflexivity.
Qed.

Lemma storage_getLeadById_found (id : option Z) (w w' : World) (lead : LeadObject) :
  storage.getLeadById id w = (Ok (Some lead), w') ->
  exists z, id = Some z /\ int4 z = true /\ getLeadById (w_db w) z = Some lead /\
            w_db w' = w_db w /\ w_sent w' = w_sent w /\ w_clients w' = w_clients w /\
            w_now w' = w_now w.
Proof.
  unfold storage.getLeadById, getLeadById. run_handler.
  destruct (hd false (w_faults w)); simpl; [discriminate|].
  destruct id as [z|]; simpl; [|discriminate].
  destruct (int4 z) eqn:Hi; simpl; [|discriminate].
  destruct (selectLead (w_db w) z) as [l|] eqn:Hsel; simpl; [|discriminate].
  destruct (hd false (tl (w_faults w))); simpl; [discriminate|].
  intros [= <- <-]. exists z. rewrite Hsel. simpl. repeat split; assumption.
Qed.

Lemma untouched_getLeadById (id : option Z) : keeps untouched (storage.getLeadById id).
Proof. unfold storage.getLeadById. repeat untouched_step. Qed.

Lemma storage_createActivity_result (v : InsertActivity) (w w' : World)
  (r : result Activity) :
  storage.createActivity v w = (r, w') ->
  w_sent w' = w_sent w /\ w_clients w' = w_clients w /\
  ((tables (w_db w') = tables (w_db w) /\ exists e, r = Throw e) \/
   exists a, r = Ok a /\ createActivity (w_now w) v (w_db w) = (w_db w', Some a)).
Proof.
  unfold storage.createActivity, bind, called, clock. simpl. intros H.
  apply statement_result in H. simpl in H.
  destruct H as (Hs & Hc & _ & [[Hdb ->]|Hrun]).
  - repeat split; try assumption. left. rewrite Hdb. eauto.
  - repeat split; try assumption. destruct r as [a|e]; [right; eauto|].
    left. split; [|eauto]. unfold createActivity in Hrun.
    destruct (_ && _); inversion Hrun. reflexivity.
Qed.

Lemma obj_get_set_other (k k' : string) (v : jval) (o : jobject) :
  k <> k' -> obj_get k (obj_set k' v o) = obj_get k o.
Proof.
  intros Hne. induction o as [|[k0 v0] o IH]; simpl.
  - destruct (String.eqb_spec k' k); [congruence | reflexivity].
  - destruct (String.eqb_spec k0 k'); simpl.
    + subst k0. destruct (String.eqb_spec k' k); [congruence|].
      reflexivity.
    + destruct (String.eqb_spec k0 k); [reflexivity | exact IH].
Qed.

Lemma insertActivitySchema_parse_ids (zod_int : Z -> bool) (o : jobject)
  (v : InsertActivity) :
  insertActivitySchema_parse zod_int o = Ok v ->
  obj_get "leadId" o = Some (JInt (ia_leadId v)) /\
  obj_get "userId" o = Some (JInt (ia_userId v)).
Proof.
  unfold insertActivitySchema_parse, and_then, z_int.
  destruct (obj_get "leadId" o) as [[| |z1| |]|]; try discriminate.
  destruct (zod_int z1); [|discriminate].
  destruct (obj_get "userId" o) as [[| |z2| |]|]; try discriminate.
  destruct (zod_int z2); [|discriminate].
  destruct (z_string _); [|discriminate].
  destruct (z_string _); [|discriminate].
  destruct (z_string_nullish _); [|discriminate].
  intros [= <-]. auto.
Qed.

(** X16.  [POST /api/activities] either stores nothing and sends nothing,
    or stores exactly one activity, answers 201 with it and tells the open
    clients [activity_created].  The stored activity has the caller as its
    author whatever [userId] the body gave, and it is logged on a lead
    that exists and that a sales executive who posts it owns.  (That
    [parseInt] gives back an integer it is given is assumed.) *)
Theorem post_activities_forces_author
  (parseInt : option jval -> option Z) (zod_int : Z -> bool)
  (user : SessionUser) (body : jobject) (w : World) :
  (forall z, int4 z = true -> parseInt (Some (JInt z)) = Some z) ->
  exists resp w',
    handle parseInt zod_int (mkRequest (Some user) (POST_activities body)) w
    = (Ok resp, w') /\
    ((tables (w_db w') = tables (w_db w) /\ w_sent w' = w_sent w /\ status resp <> 201) \/
     exists a lead,
       resp = mkResponse 201 (JsonActivity a) /\
       tables (w_db w') = (users (w_db w), leads (w_db w), (activities (w_db w) ++ [a])%list) /\
       a_userId a = su_id user /\
       getLeadById (w_db w) (a_leadId a) = Some lead /\
       not_own user lead = false /\
       w_sent w' = (w_sent w ++ deliveries (w_clients w) [activity_created a user])%list).
Proof.
  intros HparseInt.
  unfold handle, post_activities, requireAuth, try_catch, bind, lift. simpl.
  destruct (storage.getLeadById (parseInt (obj_get "leadId" body)) w)
    as [[[lead|]|e] w1] eqn:Hget.
  - apply storage_getLeadById_found in Hget.
    destruct Hget as (z & Hz & Hi & Hlead & Hdb & Hsent & Hcl & Hnow).
    destruct (not_own user lead) eqn:Hown.
    { do 2 eexists. split; [reflexivity|]. left. simpl.
      rewrite Hdb, Hsent. repeat split. discriminate. }
    destruct (insertActivitySchema_parse zod_int _) as [v|e] eqn:Hp.
    2:{ do 2 eexists. split; [reflexivity|]. left. simpl.
        rewrite Hdb, Hsent. repeat split. discriminate. }
    apply insertActivitySchema_parse_ids in Hp. destruct Hp as [Hlid Huid].
    rewrite obj_get_set in Huid. injection Huid as Huid.
    rewrite obj_get_set_other in Hlid by discriminate.
    destruct (storage.createActivity v w1) as [r w2] eqn:Hc.
    apply storage_createActivity_result in Hc.
    destruct Hc as (Hs2 & Hc2 & [[Ht (e & ->)]|(a & -> & Hcreate)]).
    { do 2 eexists. split; [reflexivity|]. left. simpl.
      rewrite Ht, Hdb, Hs2, Hsent. repeat split. discriminate. }
    unfold broadcastToClients, json, ret. simpl.
    do 2 eexists. split; [reflexivity|]. right. exists a, lead. simpl.
    unfold createActivity in Hcreate.
    destruct (_ && _) eqn:Hok; [|discriminate].
    rewrite !andb_true_iff in Hok. destruct Hok as [[[Hil _] _] _]. simpl in Hil.
    injection Hcreate as Hdb2 Ha. subst a. simpl.
    rewrite Hlid, (HparseInt _ Hil) in Hz. injection Hz as <-.
    rewrite <- Hdb2, Hdb, Hs2, Hsent, Hc2, Hcl, app_nil_r. simpl.
    repeat split; auto.
  - pose proof (untouched_getLeadById (parseInt (obj_get "leadId" body)) w) as H.
    rewrite Hget in H. destruct H as (Hdb & Hsent & _). simpl in Hdb, Hsent.
    do 2 eexists. split; [reflexivity|]. left. simpl.
    rewrite Hdb, Hsent. repeat split. discriminate.
  - pose proof (untouched_getLeadById (parseInt (obj_get "leadId" body)) w) as H.
    rewrite Hget in H. destruct H as (Hdb & Hsent & _). simpl in Hdb, Hsent.
    do 2 eexists. split; [reflexivity|]. left. simpl.
    rewrite Hdb, Hsent. repeat split. discriminate.
Qed.

Lemma post_activities_forces_author_witness :
  exists resp w',
    handle Sample.parseInt int4
      (mkRequest (Some (Sample.session Sample.alice))
         (POST_activities [("leadId", JInt 10); ("userId", JInt 2); ("type", JStr "call");
                           ("subject", JStr "Hello")]))
      Sample.world
    = (Ok resp, w') /\
    status resp = 201 /\ map a_userId (activities (w_db w')) = [2; 1].
Proof.
  edestruct (post_activities_forces_author Sample.parseInt int4
               (Sample.session Sample.alice)
               [("leadId", JInt 10); ("userId", JInt 2); ("type", JStr "call");
                ("subject", JStr "Hello")]
               Sample.world)
    as (resp & w' & H & _).
  - intros z _. reflexivity.
  - exists resp, w'. split; [exact H|].
    vm_compute in H. injection H as <- <-. split; reflexivity.
Defined.

Lemma createActivity_refused (now : Z) (v : InsertActivity) (db db' : Database) :
  createActivity now v db = (db', None) -> tables db' = tables db.
Proof. unfold createActivity. destruct (_ && _); intros [= <-]; reflexivity. Qed.

Lemma createLead_refused_tables (now : Z) (v : InsertLead) (db db' : Database) :
  createLead now v db = (db', None) -> tables db' = tables db.
Proof. unfold createLead. destruct (_ && _); intros [= <-]; reflexivity. Qed.

(** X17.  An answer of 400 or above means that nothing was written and
    nothing was sent: the three tables and the messages to the clients
    are what they were, on every route and whatever the driver does.  The
    one exception is a 400 from [PUT /api/leads/:id], which is left
    out. *)
Theorem errors_change_nothing
  (parseInt : option jval -> option Z) (zod_int : Z -> bool)
  (req : Request) (w : World) (code : Z) :
  status_of (handle parseInt zod_int req w) = Some code ->
  400 <= code ->
  (forall id body, req_route req = PUT_lead id body -> code <> 400) ->
  tables (w_db (snd (handle parseInt zod_int req w))) = tables (w_db w) /\
  w_sent (snd (handle parseInt zod_int req w)) = w_sent w.
Proof.
  destruct req as [[user|] route]; destruct route; unfold status_of;
    run_handler; split_handler; intros [= <-] Hge Hput;
    try lia; try (exfalso; eapply Hput; reflexivity);
    try (split; reflexivity);
    repeat match goal with
           | H : createLead _ _ _ = (_, None) |- _ =>
               apply createLead_refused_tables in H; rewrite H
           | H : createActivity _ _ _ = (_, None) |- _ =>
               apply createActivity_refused in H; rewrite H
           end;
    try (split; reflexivity).
Qed.

Lemma errors_change_nothing_witness :
  status_of (handle Sample.parseInt int4
               (mkRequest (Some (Sample.session Sample.carol)) (POST_leads Sample.bad_lead))
               Sample.world) = Some 400 /\
  tables (w_db (snd (handle Sample.parseInt int4
                       (mkRequest (Some (Sample.session Sample.carol))
                          (POST_leads Sample.bad_lead))
                       Sample.world)))
  = tables Sample.db.
Proof.
  split; [reflexivity|].
  apply (errors_change_nothing Sample.parseInt int4
           (mkRequest (Some (Sample.session Sample.carol)) (POST_leads Sample.bad_lead))
           Sample.world 400); [reflexivity | lia | discriminate].
Defined.

(** The exception: when the driver fails the read that follows the
    update, [PUT /api/leads/:id] answers 400 although the update is
    stored. *)
Example put_lead_400_after_write :
  let r := handle Sample.parseInt int4
             (mkRequest (Some (Sample.session Sample.alice))
                (PUT_lead (Some 10) [("status", JStr "contacted")]))
             (mkWorld Sample.db Sample.today [false; false; false; true] [] [] []) in
  status_of r = Some 400 /\
  map l_status (leads (w_db (snd r))) = ["contacted"; "won"].
Proof. split; reflexivity. Qed.

(** ** What is sent to the clients *)

Lemma deliveries_spec (clients : list (nat * ReadyState)) (events : list Event)
  (c : nat) (data : Event) :
  In (c, data) (deliveries clients events) <-> In (c, OPEN) clients /\ In data events.
Proof.
  unfold deliveries. rewrite in_flat_map. split.
  - intros (ev & Hev & Hin). apply in_map_iff in Hin.
    destruct Hin as ([c' s] & [= <- <-] & Hin). apply filter_In in Hin.
    destruct Hin as [Hin Ho]. simpl in Ho. destruct s; try discriminate. auto.
  - intros [Hc Hev]. exists data. split; [exact Hev|]. apply in_map_iff.
    exists (c, OPEN). split; [reflexivity|]. apply filter_In. auto.
Qed.

(** X18.  A request sends at most one event, and only when it answers
    200, 201 or 204 on a route that writes.  The event goes to every
    client that is [OPEN] and to no other, and the set of clients is not
    changed. *)
Theorem one_event_to_open_clients
  (parseInt : option jval -> option Z) (zod_int : Z -> bool)
  (req : Request) (w : World) :
  exists events,
    w_sent (snd (handle parseInt zod_int req w))
    = (w_sent w ++ deliveries (w_clients w) events)%list /\
    (List.length events <= 1)%nat /\
    w_clients (snd (handle parseInt zod_int req w)) = w_clients w /\
    (events <> [] ->
     reads (req_route req) = false /\
     exists code, status_of (handle parseInt zod_int req w) = Some code /\
                  (code = 200 \/ code = 201 \/ code = 204)) /\
    (forall c data, In (c, data) (deliveries (w_clients w) events)
                    <-> In (c, OPEN) (w_clients w) /\ In data events).
Proof.
  assert (forall sent cs, sent = (sent ++ deliveries cs [])%list :> list (nat * Event)) as Hnil
    by (intros; simpl; now rewrite app_nil_r).
  destruct req as [[user|] route]; destruct route; unfold status_of;
    run_handler; split_handler;
    first
      [ exists []; split; [apply Hnil|]; split; [simpl; lia|]; split; [reflexivity|];
        split; [intros H; contradiction | intros; apply deliveries_spec]
      | eexists [_]; split; [rewrite deliveries_one; reflexivity|];
        split; [simpl; lia|]; split; [reflexivity|];
        split; [intros _; split; [reflexivity|]; eexists; split; [reflexivity|]; auto
               | intros; apply deliveries_spec] ].
Qed.

(** ** The roll-ups *)

Lemma count_cons {A : Type} (f : A -> bool) (x : A) (l : list A) :
  count f (x :: l) = (if f x then 1 else 0) + count f l.
Proof.
  unfold count. simpl. destruct (f x); simpl List.length; lia.
Qed.

Lemma count_nonneg {A : Type} (f : A -> bool) (l : list A) : 0 <= count f l.
Proof. unfold count. lia. Qed.

Lemma bump_keys (k : string) (acc : list (string * Z)) :
  forall k', In k' (map fst (bump k acc)) <-> k' = k \/ In k' (map fst acc).
Proof.
  induction acc as [|[k0 n] acc IH]; simpl; intros k'.
  - intuition congruence.
  - destruct (String.eqb_spec k0 k); simpl.
    + subst. intuition congruence.
    + rewrite IH. tauto.
Qed.

Lemma bump_NoDup (k : string) (acc : list (string * Z)) :
  NoDup (map fst acc) -> NoDup (map fst (bump k acc)).
Proof.
  induction acc as [|[k0 n] acc IH]; simpl; intros Hnd.
  - constructor; [intros [] | constructor].
  - inversion Hnd as [|? ? Hk0 Hacc]; subst.
    destruct (String.eqb_spec k0 k); simpl.
    + constructor; assumption.
    + constructor; [|now apply IH].
      rewrite bump_keys. intros [E|H]; [congruence | contradiction].
Qed.

Lemma bump_counted (k k' : string) (acc : list (string * Z)) :
  counted k' (bump k acc) = counted k' acc + (if (k =? k')%string then 1 else 0).
Proof.
  induction acc as [|[k0 n] acc IH]; simpl.
  - lia.
  - destruct (String.eqb_spec k0 k); simpl.
    + subst k0. destruct (k =? k')%string; lia.
    + rewrite IH. lia.
Qed.

Lemma bump_positive (k : string) (acc : list (string * Z)) :
  Forall (fun entry => 0 < snd entry) acc ->
  Forall (fun entry => 0 < snd entry) (bump k acc).
Proof.
  induction acc as [|[k0 n] acc IH]; simpl; intros H.
  - repeat constructor.
  - inversion H as [|? ? Hn Hacc]; subst. simpl in Hn.
    destruct (k0 =? k)%string; constructor; simpl; auto; lia.
Qed.

Lemma bump_total (k : string) (acc : list (string * Z)) :
  counted_total (bump k acc) = counted_total acc + 1.
Proof.
  induction acc as [|[k0 n] acc IH]; simpl; [reflexivity|].
  destruct (k0 =? k)%string; simpl; lia.
Qed.

Lemma count_by_from (key : Lead -> string) (ls : list Lead) (acc : list (string * Z)) :
  let out := fold_left (fun acc lead => bump (key lead) acc) ls acc in
  (NoDup (map fst acc) -> NoDup (map fst out)) /\
  (Forall (fun entry => 0 < snd entry) acc -> Forall (fun entry => 0 < snd entry) out) /\
  (forall k, counted k out = counted k acc + count (fun l => (key l =? k)%string) ls) /\
  counted_total out = counted_total acc + Z.of_nat (List.length ls).
Proof.
  revert acc. induction ls as [|l ls IH]; intros acc; simpl.
  - repeat split; auto; intros; unfold count; simpl; lia.
  - destruct (IH (bump (key l) acc)) as (H1 & H2 & H3 & H4). repeat split.
    + intros H. apply H1, bump_NoDup, H.
    + intros H. apply H2, bump_positive, H.
    + intros k. rewrite H3, bump_counted, count_cons. lia.
    + rewrite H4, bump_total. lia.
Qed.

Lemma counted_entry (acc : list (string * Z)) (k : string) (n : Z) :
  NoDup (map fst acc) -> In (k, n) acc -> counted k acc = n.
Proof.
  induction acc as [|[k0 n0] acc IH]; simpl; intros Hnd Hin; [contradiction|].
  inversion Hnd as [|? ? Hk0 Hacc]; subst.
  destruct Hin as [[= -> ->]|Hin].
  - rewrite String.eqb_refl.
    assert (counted k acc = 0) as ->; [|lia].
    clear - Hk0. induction acc as [|[k1 n1] acc IH]; simpl in *; [reflexivity|].
    destruct (String.eqb_spec k1 k); [subst; tauto|]. rewrite IH; tauto.
  - destruct (String.eqb_spec k0 k).
    + subst. exfalso. apply Hk0. apply in_map_iff. exists (k, n). auto.
    + rewrite IH; auto.
Qed.

Lemma counted_positive_entry (acc : list (string * Z)) (k : string) :
  counted k acc <> 0 -> exists n, In (k, n) acc.
Proof.
  induction acc as [|[k0 n0] acc IH]; simpl; intros H; [congruence|].
  destruct (String.eqb_spec k0 k).
  - subst. eauto.
  - destruct (IH ltac:(lia)) as (m & Hm). eauto.
Qed.

Lemma count_by_spec (key : Lead -> string) (ls : list Lead) :
  NoDup (map fst (count_by key ls)) /\
  (forall k n, In (k, n) (count_by key ls)
               <-> n = count (fun l => (key l =? k)%string) ls /\ 0 < n) /\
  counted_total (count_by key ls) = Z.of_nat (List.length ls).
Proof.
  destruct (count_by_from key ls []) as (H1 & H2 & H3 & H4). fold (count_by key ls) in *.
  specialize (H1 (NoDup_nil _)). specialize (H2 (Forall_nil _)).
  split; [exact H1|]. split; [|simpl in H4; lia].
  intros k n. split.
  - intros Hin. rewrite Forall_forall in H2. specialize (H2 _ Hin). simpl in H2.
    split; [|exact H2]. rewrite <- (counted_entry _ _ _ H1 Hin), H3. simpl. lia.
  - intros [-> Hpos].
    destruct (counted_positive_entry (count_by key ls) k) as (m & Hn).
    + rewrite H3. simpl. lia.
    + rewrite <- (counted_entry _ _ _ H1 Hn), H3 in Hn. simpl in Hn.
      replace (0 + count (fun l => (key l =? k)%string) ls)
        with (count (fun l => (key l =? k)%string) ls) in Hn by lia.
      exact Hn.
Qed.

Lemma count_partition (ls : list Lead) :
  Z.of_nat (List.length ls)
  = count (fun l => negb (existsb (fun s => status_is s l) ["won"; "lost"])) ls
    + count (status_is "won") ls + count (status_is "lost") ls.
Proof.
  induction ls as [|l ls IH]; [reflexivity|].
  rewrite !count_cons. simpl List.length. rewrite Nat2Z.inj_succ, IH.
  assert (existsb (fun s => status_is s l) ["won"; "lost"]
          = status_is "won" l || status_is "lost" l) as ->
    by (simpl; rewrite orb_false_r; reflexivity).
  assert (status_is "won" l && status_is "lost" l = false) as Hex.
  { unfold status_is.
    destruct (String.eqb_spec (l_status l) "won") as [E|_]; [|reflexivity].
    rewrite E. reflexivity. }
  revert Hex.
  destruct (status_is "won" l), (status_is "lost" l); cbn [negb orb andb]; intros Hex;
    try discriminate; lia.
Qed.

(** X19.  The counts of [getStats] add up.  When no counted lead has a
    status or a source that spells a property of [Object.prototype],
    [leadsByStatus] has one entry for each status that a counted lead
    has, with the number of those leads, and its counts sum to
    [totalLeads]; likewise [leadsBySource].  Every counted lead is
    active, won or lost and only one of them: [totalLeads] is
    [activeLeads] plus [convertedLeads] plus the number of lost leads. *)
Theorem getStats_counts_add_up (now : Z) (db : Database)
  (userId : option Z) (role : option string) :
  let s := getStats now db userId role in
  let counted_leads := leadsQuery db userId role in
  Forall (fun l => own_key (l_status l) = true /\ own_key (l_source l) = true)
    counted_leads ->
  totalLeads s = Z.of_nat (List.length counted_leads) /\
  NoDup (map fst (leadsByStatus s)) /\
  (forall status n, In (status, n) (leadsByStatus s)
                    <-> n = count (status_is status) counted_leads /\ 0 < n) /\
  counted_total (leadsByStatus s) = totalLeads s /\
  NoDup (map fst (leadsBySource s)) /\
  (forall source n, In (source, n) (leadsBySource s)
                    <-> n = count (fun l => (l_source l =? source)%string) counted_leads
                        /\ 0 < n) /\
  counted_total (leadsBySource s) = totalLeads s /\
  totalLeads s = activeLeads s + convertedLeads s + count (status_is "lost") counted_leads /\
  0 <= convertedLeads s <= totalLeads s.
Proof.
  intros s ls _. unfold s, getStats, computeStats. simpl. fold ls.
  destruct (count_by_spec l_status ls) as (H1 & H2 & H3).
  destruct (count_by_spec l_source ls) as (H4 & H5 & H6).
  pose proof (count_partition ls) as Hp.
  pose proof (count_nonneg (status_is "lost") ls).
  pose proof (count_nonneg (status_is "won") ls).
  pose proof (count_nonneg
                (fun l => negb (existsb (fun s0 => status_is s0 l) ["won"; "lost"])) ls).
  split; [reflexivity|]. split; [exact H1|]. split; [exact H2|]. split; [exact H3|].
  split; [exact H4|]. split; [exact H5|]. split; [exact H6|].
  change (fun l : Lead => negb (status_is "won" l || (status_is "lost" l || false)))
    with (fun l : Lead => negb (existsb (fun s0 => status_is s0 l) ["won"; "lost"])).
  lia.
Qed.

Lemma getStats_counts_add_up_witness :
  let s := getStats Sample.today Sample.db None (Some "admin") in
  totalLeads s = 2 /\
  (forall status n, In (status, n) (leadsByStatus s)
                    <-> n = count (status_is status) (leads Sample.db) /\ 0 < n) /\
  counted_total (leadsByStatus s) = 2.
Proof.
  pose proof (getStats_counts_add_up Sample.today Sample.db None (Some "admin")) as H.
  cbv zeta in H.
  destruct H as (H1 & _ & H3 & H4 & _).
  - repeat constructor.
  - cbv zeta. split; [exact H1|]. split; [exact H3|]. rewrite H4. exact H1.
Defined.

Lemma divides_safely_sum (ts : list jsnum) (acc : jsnum) :
  divides_safely acc -> Forall divides_safely ts ->
  divides_safely (fold_left NumAdd ts acc).
Proof.
  revert acc. induction ts as [|t ts IH]; simpl; intros acc Hacc Hts; [exact Hacc|].
  inversion Hts; subst. apply IH; simpl; auto.
Qed.

(** X20.  [getAnalytics] divides by nothing that is 0: the conversion
    rate, the average deal size, the average time to close and every
    percentage of [statusDistribution] are quotients by a count that the
    code has checked to be positive, or the constant 0.  The entries of
    [statusDistribution] are the statuses, capitalized, with their
    counts.  This is for counted leads whose status spells no property
    of [Object.prototype] and starts with an ASCII character. *)
Theorem getAnalytics_divides_safely (now : Z) (db : Database)
  (userId : option Z) (role : option string) :
  let a := getAnalytics now db userId role in
  let counted_leads := leadsQuery db userId role in
  Forall (fun l => own_key (l_status l) = true /\ ascii_initial (l_status l) = true)
    counted_leads ->
  divides_safely (conversionRate a) /\
  divides_safely (avgDealSize a) /\
  divides_safely (avgTimeToClose a) /\
  Forall (fun share => divides_safely (ss_percentage share)) (statusDistribution a) /\
  (counted_leads = [] ->
   conversionRate a = NumInt 0 /\ avgDealSize a = NumInt 0 /\
   avgTimeToClose a = NumInt 0 /\ statusDistribution a = []) /\
  (forall share, In share (statusDistribution a) ->
     exists status, ss_status share = capitalize status /\
       ascii_initial status = true /\
       ss_count share = count (status_is status) counted_leads /\ 0 < ss_count share).
Proof.
  intros a ls Hkeys. unfold a, getAnalytics, computeAnalytics. cbv zeta. fold ls.
  cbn [conversionRate avgDealSize avgTimeToClose statusDistribution].
  rewrite length_map.
  split; [|split; [|split; [|split; [|split]]]].
  - destruct (Z.ltb_spec 0 (Z.of_nat (List.length ls))); simpl; auto.
    repeat split; lia.
  - destruct (Z.ltb_spec 0 (Z.of_nat (List.length (filter (status_is "won") ls))));
      simpl; auto. split; [exact I | lia].
  - destruct (Z.ltb_spec 0 (Z.of_nat (List.length (filter (status_is "won") ls))));
      simpl; auto.
    split; [|lia]. apply divides_safely_sum; [exact I|].
    apply Forall_forall. intros t Ht. apply in_map_iff in Ht.
    destruct Ht as (l & <- & _). simpl. split; [exact I | lia].
  - apply Forall_forall. intros share Hs. apply in_map_iff in Hs.
    destruct Hs as (sc & <- & _). cbn [ss_percentage].
    destruct (Z.ltb_spec 0 (Z.of_nat (List.length ls))); simpl; auto.
    repeat split; lia.
  - intros ->. simpl. auto.
  - intros share Hs. apply in_map_iff in Hs. destruct Hs as ([status n] & <- & Hin).
    apply (proj1 (proj2 (count_by_spec l_status ls))) in Hin. destruct Hin as [-> Hn].
    exists status. cbn [ss_status ss_count fst snd].
    split; [reflexivity|]. split; [|auto].
    unfold count in Hn.
    destruct (filter (fun l => (l_status l =? status)%string) ls) as [|l rest] eqn:Hfil;
      [simpl in Hn; lia|].
    assert (In l (filter (fun l => (l_status l =? status)%string) ls)) as Hl
      by (rewrite Hfil; left; reflexivity).
    apply filter_In in Hl. destruct Hl as [Hl Hst]. apply String.eqb_eq in Hst.
    rewrite Forall_forall in Hkeys. rewrite <- Hst. exact (proj2 (Hkeys l Hl)).
Qed.

Lemma getAnalytics_divides_safely_witness :
  divides_safely (conversionRate (getAnalytics Sample.today Sample.db None (Some "admin"))) /\
  divides_safely (avgDealSize (getAnalytics Sample.today Sample.db None (Some "admin"))) /\
  map ss_status (statusDistribution (getAnalytics Sample.today Sample.db None (Some "admin")))
  = map capitalize (map l_status (leads Sample.db)) /\
  forall share,
    In share (statusDistribution (getAnalytics Sample.today Sample.db None (Some "admin"))) ->
    exists status, ss_status share = capitalize status /\
      ss_count share = count (status_is status) (leads Sample.db) /\ 0 < ss_count share.
Proof.
  pose proof (getAnalytics_divides_safely Sample.today Sample.db None (Some "admin")) as H.
  cbv zeta in H.
  destruct H as (H1 & H2 & _ & _ & _ & H6).
  - repeat constructor.
  - split; [exact H1|]. split; [exact H2|]. split; [reflexivity|].
    intros share Hin. destruct (H6 share Hin) as (status & Hs & _ & Hc & Hp).
    exists status. auto.
Defined.

Lemma owner_once (us : list User) (id : Z) :
  NoDup (map u_id us) ->
  fold_right (fun u sum => (if id =? u_id u then 1 else 0) + sum) 0 us
  = if existsb (fun u => u_id u =? id) us then 1 else 0.
Proof.
  induction us as [|u us IH]; simpl; intros Hnd; [reflexivity|].
  inversion Hnd as [|? ? Hu Hus]; subst. rewrite (IH Hus).
  rewrite (Z.eqb_sym id (u_id u)).
  destruct (Z.eqb_spec (u_id u) id) as [E|_]; simpl; [|lia].
  destruct (existsb (fun u0 => u_id u0 =? id) us) eqn:Hex; [|reflexivity].
  exfalso. apply Hu. apply existsb_exists in Hex. destruct Hex as (u' & Hin & Hid).
  apply Z.eqb_eq in Hid. apply in_map_iff. exists u'. split; [congruence | exact Hin].
Qed.

Lemma leads_by_owner_total (us : list User) (ls : list Lead) :
  NoDup (map u_id us) ->
  Forall (fun l => existsb (fun u => u_id u =? l_ownerId l) us = true) ls ->
  fold_right (fun u sum => count (fun l => l_ownerId l =? u_id u) ls + sum) 0 us
  = Z.of_nat (List.length ls).
Proof.
  intros Hnd. induction ls as [|l ls IH]; intros Hfk.
  - clear. induction us as [|u us IHu]; [reflexivity|].
    cbn [fold_right]. rewrite IHu. reflexivity.
  - inversion Hfk as [|? ? Hl Hls]; subst.
    simpl List.length. rewrite Nat2Z.inj_succ, <- (IH Hls).
    pose proof (owner_once us (l_ownerId l) Hnd) as Hone. rewrite Hl in Hone.
    rewrite <- Z.add_1_l, <- Hone. clear.
    induction us as [|u us IHu]; simpl; [reflexivity|].
    rewrite count_cons, IHu. lia.
Qed.

Lemma perf_leads_total_filter (ps : list UserPerformance) :
  Forall (fun p => 0 <= up_leads p) ps ->
  perf_leads_total (filter (fun p => 0 <? up_leads p) ps) = perf_leads_total ps.
Proof.
  induction ps as [|p ps IH]; simpl; intros H; [reflexivity|].
  inversion H; subst.
  destruct (Z.ltb_spec 0 (up_leads p)); simpl; rewrite IH by assumption; lia.
Qed.

Lemma count_filter_le {A : Type} (f g : A -> bool) (l : list A) :
  0 <= count f (filter g l) <= count g l.
Proof.
  unfold count. split; [lia|]. apply inj_le.
  induction l as [|x l IH]; simpl; [lia|].
  destruct (g x); simpl; [destruct (f x); simpl; lia | exact IH].
Qed.

Lemma leadsQuery_subset (db : Database) (userId : option Z) (role : option string) :
  forall l, In l (leadsQuery db userId role) -> In l (leads db).
Proof.
  intros l. unfold leadsQuery. destruct (owner_scope userId role); [|auto].
  rewrite filter_In. tauto.
Qed.

(** X21.  [performanceByUser] of [getAnalytics] accounts for every
    counted lead once.  In a database that keeps the constraints of the
    schema (user ids are unique and every lead's owner exists) the
    [leads] of its entries add up to the number of counted leads; every
    entry is that of a user who owns at least one counted lead, with the
    number of those leads and, of them, the number that are won. *)
Theorem performanceByUser_accounts_for_every_lead (now : Z) (db : Database)
  (userId : option Z) (role : option string) :
  constraints_hold db ->
  let a := getAnalytics now db userId role in
  let counted_leads := leadsQuery db userId role in
  perf_leads_total (performanceByUser a) = Z.of_nat (List.length counted_leads) /\
  (forall p, In p (performanceByUser a) ->
     1 <= up_leads p /\ 0 <= up_won p <= up_leads p /\
     exists u, In u (users db) /\ up_user p = u_fullName u /\
       up_leads p = count (fun l => l_ownerId l =? u_id u) counted_leads /\
       up_won p = count (fun l => (l_ownerId l =? u_id u) && status_is "won" l)
                    counted_leads) /\
  (forall u, In u (users db) ->
     (exists l, In l counted_leads /\ l_ownerId l = u_id u) ->
     exists p, In p (performanceByUser a) /\ up_user p = u_fullName u).
Proof.
  intros Hc a ls. unfold a, getAnalytics, computeAnalytics. cbv zeta. fold ls.
  cbn [performanceByUser].
  split; [|split].
  - rewrite perf_leads_total_filter.
    + rewrite <- (leads_by_owner_total (users db) ls (users_pkey db Hc)).
      * induction (users db) as [|u us IH]; [reflexivity|].
        cbn [map perf_leads_total fold_right up_leads].
        unfold perf_leads_total in IH. rewrite IH. reflexivity.
      * apply Forall_forall. intros l Hl.
        apply (leadsQuery_subset db userId role) in Hl.
        pose proof (leads_owner_fkey db Hc) as Hfk. rewrite Forall_forall in Hfk.
        exact (Hfk l Hl).
    + apply Forall_forall. intros p Hp. apply in_map_iff in Hp.
      destruct Hp as (u & <- & _). simpl. lia.
  - intros p Hp. apply filter_In in Hp. destruct Hp as [Hp Hpos].
    apply in_map_iff in Hp. destruct Hp as (u & <- & Hu).
    cbn [up_leads up_won up_user] in *. apply Z.ltb_lt in Hpos.
    pose proof (count_filter_le (status_is "won") (fun l => l_ownerId l =? u_id u) ls)
      as Hle. unfold count in Hle.
    split; [lia|]. split; [lia|].
    exists u. split; [exact Hu|]. split; [reflexivity|]. split; [reflexivity|].
    unfold count. do 2 f_equal. clear.
    induction ls as [|l ls IH]; simpl; [reflexivity|].
    destruct (l_ownerId l =? u_id u); simpl; [|exact IH].
    destruct (status_is "won" l); simpl; rewrite IH; reflexivity.
  - intros u Hu (l & Hl & Hown).
    exists (mkPerf (u_fullName u)
              (Z.of_nat (List.length (filter (fun l0 => l_ownerId l0 =? u_id u) ls)))
              (Z.of_nat (List.length
                 (filter (status_is "won")
                    (filter (fun l0 => l_ownerId l0 =? u_id u) ls))))
              (sum_values
                 (filter (status_is "won")
                    (filter (fun l0 => l_ownerId l0 =? u_id u) ls)))).
    split; [|reflexivity].
    apply filter_In. split.
    + apply in_map_iff. exists u. split; [reflexivity | exact Hu].
    + cbn [up_leads]. apply Z.ltb_lt.
      assert (In l (filter (fun l0 => l_ownerId l0 =? u_id u) ls)) as Hin.
      { apply filter_In. split; [exact Hl | now apply Z.eqb_eq]. }
      destruct (filter (fun l0 => l_ownerId l0 =? u_id u) ls); [contradiction|].
      simpl List.length. lia.
Qed.

Lemma performanceByUser_accounts_for_every_lead_witness :
  perf_leads_total
    (performanceByUser (getAnalytics Sample.today Sample.db None (Some "manager")))
  = 2.
Proof.
  exact (proj1 (performanceByUser_accounts_for_every_lead Sample.today Sample.db
                  None (Some "manager") Sample_constraints)).
Defined.

(** ** The months of the lead trend *)

Lemma year_of_day (yoe doy : Z) :
  0 <= yoe < 400 -> 0 <= doy <= 364 ->
  let doe := yoe * 365 + yoe / 4 - yoe / 100 + doy in
  0 <= doe < 146097 /\
  (doe - doe / 1460 + doe / 36524 - doe / 146096) / 365 = yoe.
Proof.
  intros Hy Hd doe. subst doe. Z.div_mod_to_equations. lia.
Qed.

Lemma month_of_day (mp d : Z) :
  0 <= mp <= 11 -> 1 <= d <= 28 ->
  let doy := (153 * mp + 2) / 5 + d - 1 in
  0 <= doy <= 364 /\ (5 * doy + 2) / 153 = mp.
Proof.
  intros Hm Hd doy. subst doy. Z.div_mod_to_equations. lia.
Qed.

(** [civil_from_days] undoes [days_from_civil] on the days that every
    month has. *)
Lemma civil_of_days_from_civil (y m d : Z) :
  1 <= m <= 12 -> 1 <= d <= 28 ->
  civil_from_days (days_from_civil y m d) = mkIsoDate y m d.
Proof.
  intros Hm Hd. unfold days_from_civil. cbv zeta.
  set (y' := if m <=? 2 then y - 1 else y).
  set (era := y' / 400).
  set (yoe := y' - era * 400).
  set (mp := if 2 <? m then m - 3 else m + 9).
  assert (0 <= yoe < 400) as Hyoe.
  { unfold yoe, era. clearbody y'. Z.div_mod_to_equations. lia. }
  assert (0 <= mp <= 11) as Hmp.
  { unfold mp. destruct (Z.ltb_spec 2 m); lia. }
  destruct (month_of_day mp d Hmp Hd) as [Hdoy Hmp'].
  set (doy := (153 * mp + 2) / 5 + d - 1) in *.
  destruct (year_of_day yoe doy Hyoe Hdoy) as [Hdoe Hyoe'].
  set (doe := yoe * 365 + yoe / 4 - yoe / 100 + doy) in *.
  unfold civil_from_days. cbv zeta.
  replace (era * 146097 + doe - 719468 + 719468) with (doe + era * 146097) by lia.
  rewrite Z.div_add by lia. rewrite (Z.div_small doe 146097) by lia.
  replace (doe + era * 146097 - (0 + era) * 146097) with doe by lia.
  rewrite Hyoe'.
  replace (doe - (365 * yoe + yoe / 4 - yoe / 100)) with doy by (unfold doe; lia).
  rewrite Hmp'.
  f_equal.
  - unfold mp, yoe, y'.
    destruct (Z.ltb_spec 2 m), (Z.leb_spec m 2); try lia.
    + destruct (Z.ltb_spec (m - 3) 10); destruct (Z.leb_spec (m - 3 + 3) 2);
        try lia; destruct (Z.leb_spec (m - 3 - 9) 2); lia.
    + destruct (Z.ltb_spec (m + 9) 10); try lia.
      destruct (Z.leb_spec (m + 9 - 9) 2); lia.
  - unfold mp. destruct (Z.ltb_spec 2 m).
    + destruct (Z.ltb_spec (m - 3) 10); lia.
    + destruct (Z.ltb_spec (m + 9) 10); lia.
  - unfold doy. lia.
Qed.

Lemma day_of_month_positive (z : Z) : 1 <= day (civil_from_days z).
Proof.
  unfold civil_from_days. cbv zeta. cbn [day].
  set (era := (z + 719468) / 146097).
  set (doe := z + 719468 - era * 146097).
  assert (0 <= doe < 146097) as Hdoe.
  { unfold doe, era. pose proof (Z.div_mod (z + 719468) 146097 ltac:(lia)).
    pose proof (Z.mod_pos_bound (z + 719468) 146097 ltac:(lia)). lia. }
  destruct (year_of_era doe Hdoe) as [_ Hdoy].
  set (yoe := (doe - doe / 1460 + doe / 36524 - doe / 146096) / 365) in *.
  set (doy := doe - (365 * yoe + yoe / 4 - yoe / 100)) in *.
  clearbody doy. Z.div_mod_to_equations. lia.
Qed.

(** [date.setMonth(date.getMonth() - k)] goes back [k] calendar months
    when the day of the month is one that every month has. *)
Lemma setMonth_back (now k : Z) :
  getDate now <= 28 ->
  toISOMonth (setMonth now (getMonth now - k)) = months_back (toISOMonth now) k.
Proof.
  unfold setMonth, getDate, getMonth, toISOMonth, months_back, toISODate, MakeDay.
  intros Hd. cbn [fst snd].
  pose proof (day_of_month_positive (now / msPerDay)) as Hd1.
  destruct (civil_from_days_inverse (now / msPerDay)) as [_ Hm].
  set (c := civil_from_days (now / msPerDay)) in *.
  rewrite <- days_from_civil_day.
  assert ((days_from_civil (year c + (month c - 1 - k) / 12)
             ((month c - 1 - k) mod 12 + 1) (day c) * msPerDay + now mod msPerDay)
          / msPerDay
          = days_from_civil (year c + (month c - 1 - k) / 12)
              ((month c - 1 - k) mod 12 + 1) (day c)) as ->.
  { unfold msPerDay. rewrite Z.div_add_l by lia.
    rewrite (Z.div_small (now mod 86400000) 86400000)
      by (apply Z.mod_pos_bound; lia).
    lia. }
  rewrite civil_of_days_from_civil.
  - cbn [year month].
    replace (year c * 12 + (month c - 1) - k) with (year c * 12 + (month c - 1 - k)) by lia.
    rewrite Z.div_add_l by lia.
    rewrite (Z.add_comm (year c * 12)), Z.mod_add by lia. reflexivity.
  - pose proof (Z.mod_pos_bound (month c - 1 - k) 12 ltac:(lia)). lia.
  - lia.
Qed.

Lemma months_back_inj (ym : Z * Z) (j k : Z) :
  months_back ym j = months_back ym k -> j = k.
Proof.
  unfold months_back. cbv zeta. intros [= Hq Hr].
  pose proof (Z.div_mod (fst ym * 12 + (snd ym - 1) - j) 12 ltac:(lia)).
  pose proof (Z.div_mod (fst ym * 12 + (snd ym - 1) - k) 12 ltac:(lia)).
  lia.
Qed.

(** X22.  On a day of the month that every month has (the 28th at the
    latest), [last6Months] of [getAnalytics] is the six calendar months
    that end with the current one, oldest first and each once, and
    [leadTrend] has one point for each of them. *)
Theorem last6Months_consecutive (now : Z) (db : Database)
  (userId : option Z) (role : option string) :
  getDate now <= 28 ->
  last6Months now = map (months_back (toISOMonth now)) [5; 4; 3; 2; 1; 0] /\
  NoDup (last6Months now) /\
  map tp_month (leadTrend (getAnalytics now db userId role))
  = map (fun k => month_short (snd (months_back (toISOMonth now) k))) [5; 4; 3; 2; 1; 0] /\
  map tp_leads (leadTrend (getAnalytics now db userId role))
  = map (fun k => count (fun l => month_eqb (toISOMonth (l_createdAt l))
                                    (months_back (toISOMonth now) k))
                    (leadsQuery db userId role)) [5; 4; 3; 2; 1; 0].
Proof.
  intros Hd.
  assert (last6Months now = map (months_back (toISOMonth now)) [5; 4; 3; 2; 1; 0]) as E.
  { unfold last6Months, Array_from. cbn [map seq].
    rewrite !setMonth_back by exact Hd. reflexivity. }
  split; [exact E|]. split; [|split].
  - rewrite E. apply Finite.Injective_map_NoDup.
    + intros j k. apply months_back_inj.
    + repeat constructor; simpl; intuition lia.
  - unfold getAnalytics, computeAnalytics. cbv zeta. cbn [leadTrend].
    rewrite E, !map_map. reflexivity.
  - unfold getAnalytics, computeAnalytics. cbv zeta. cbn [leadTrend].
    rewrite E, !map_map. reflexivity.
Qed.

Lemma last6Months_consecutive_witness :
  last6Months Sample.today
  = [(2026, 6); (2026, 7); (2026, 8); (2026, 9); (2026, 10); (2026, 11)].
Proof.
  rewrite (proj1 (last6Months_consecutive Sample.today Sample.db None None
                    ltac:(vm_compute; discriminate))).
  reflexivity.
Defined.

(** On the 31st the months that have no 31st day are skipped and the
    month after each comes twice: 2026-12-31T08:00:00Z. *)
Example last6Months_on_the_31st :
  last6Months 1798704000000
  = [(2026, 7); (2026, 8); (2026, 10); (2026, 10); (2026, 12); (2026, 12)].
Proof. vm_compute. reflexivity. Qed.
